(** * url-shortener: the short-link resolution engine

    A shallow embedding of the Go packages [shortener] (code generation),
    [validator], [domain], [repository/postgres], [cache] and [service],
    followed by the properties of the engine that the specification
    states about them.

    Conventions of the embedding:
    - a Go [string] is a Rocq [string] (a sequence of 8-bit bytes); [len]
      is [String.length];
    - Go's [int] and [int64] values are [Z]; they are only compared and
      counted up by one here, and the one place where a bound matters
      (the [BIGINT] click counter) checks it; [uint] is a [Z] in
      [0, 2^64), as on a 64-bit platform, and the one place that can
      overflow it ([Decode]) reduces modulo [2^64];
    - an instant ([time.Time]) is a [Z]; a nullable column or pointer is an
      [option];
    - a function that returns [(T, error)] returns [Result T];
    - stateful collaborators (the table behind gorm, the redis keyspace,
      the entropy source) are passed and returned explicitly. *)

From Stdlib Require Import ZArith Ascii String List Lia Bool.
From stdpp Require Import base option list gmap strings pretty.
From Equations Require Import Equations.

Open Scope string_scope.
Open Scope Z_scope.

(** ** Bytes and strings as Go sees them *)

Module gostr.

(** The numeric value of a byte. *)
Definition byte_val (c : ascii) : Z := Z.of_N (N_of_ascii c).

(** [c1 <= c && c <= c2] on bytes. *)
Definition byte_in (lo hi c : ascii) : bool :=
  (byte_val lo <=? byte_val c) && (byte_val c <=? byte_val hi).

(** [s[i]].  Go panics when [i] is out of range; every index taken in
    the code modelled here is a remainder below the length of [s] (see
    [index_in_range]), so the default below is never reached. *)
Definition index (s : string) (i : Z) : ascii :=
  match String.get (Z.to_nat i) s with
  | Some c => c
  | None => Ascii.zero
  end.

(** [len(s)] as an [int]. *)
Definition len (s : string) : Z := Z.of_nat (String.length s).

(** [for _, c := range s] over a string of single-byte characters: does
    [c] occur in [s]. *)
Fixpoint contains_byte (s : string) (c : ascii) : bool :=
  match s with
  | EmptyString => false
  | String d rest => if Ascii.eqb c d then true else contains_byte rest c
  end.

Fixpoint all_bytes (p : ascii -> bool) (s : string) : bool :=
  match s with
  | EmptyString => true
  | String c rest => p c && all_bytes p rest
  end.

(** The byte [sep] does not occur in [s]. *)
Definition lacks (sep : ascii) (s : string) : bool :=
  all_bytes (fun c => negb (Ascii.eqb c sep)) s.

(** [strings.ToLower] on one ASCII byte. *)
Definition lower_byte (c : ascii) : ascii :=
  if byte_in "A" "Z" c then ascii_of_N (N_of_ascii c + 32) else c.

Fixpoint ToLower (s : string) : string :=
  match s with
  | EmptyString => EmptyString
  | String c rest => String (lower_byte c) (ToLower rest)
  end.

Fixpoint HasPrefix (s prefix : string) : bool :=
  match prefix, s with
  | EmptyString, _ => true
  | String p prefix', String c s' => Ascii.eqb c p && HasPrefix s' prefix'
  | String _ _, EmptyString => false
  end.

(** [strings.Contains(s, substr)]. *)
Fixpoint Contains (s substr : string) : bool :=
  HasPrefix s substr ||
  match s with
  | EmptyString => false
  | String _ s' => Contains s' substr
  end.

(** [strings.Cut(s, sep)] for a one-byte separator: the text before the
    first [sep], the text after it, and whether [sep] was found. *)
Fixpoint Cut (s : string) (sep : ascii) : string * string * bool :=
  match s with
  | EmptyString => (EmptyString, EmptyString, false)
  | String c s' =>
      if Ascii.eqb c sep then (EmptyString, s', true)
      else let '(before, after, found) := Cut s' sep in
           (String c before, after, found)
  end.

(** [strings.TrimSuffix(s, "/")]. *)
Fixpoint TrimSuffix_slash (s : string) : string :=
  match s with
  | EmptyString => EmptyString
  | String c EmptyString => if Ascii.eqb c "/" then EmptyString else s
  | String c rest => String c (TrimSuffix_slash rest)
  end.

End gostr.

(** ** Package [shortener]: the code generator *)

Module shortener.
Import gostr.

(** [const base62Chars]: digits, upper case, lower case. *)
Definition base62Chars : string :=
  "0123456789ABCDEFGHIJKLMNOPQRSTUVWXYZabcdefghijklmnopqrstuvwxyz".

(** [type CodeGenerator struct { length int }].  The field is private:
    outside the package a generator only comes from [NewCodeGenerator]. *)
Record CodeGenerator := { length : Z }.

(** [func NewCodeGenerator(length int) *CodeGenerator]. *)
Definition NewCodeGenerator (length : Z) : CodeGenerator :=
  let length := if length <? 4 then 6 else length in
  let length := if length >? 12 then 12 else length in
  {| length := length |}.

(** The entropy behind [crypto/rand]: the outcome of the [k]-th read of
    [rand.Reader], either a failure ([None]) or raw random bits. *)
Definition entropy := nat -> option Z.

(** [rand.Int(rand.Reader, max)]: an error, or a value in [[0, max)]. *)
Definition rand_Int (src : entropy) (k : nat) (max : Z) : option Z :=
  match src k with
  | Some raw => Some (raw mod max)
  | None => None
  end.

(** The body of the loop of [Generate], for [todo] more iterations
    starting at index [i], reading the source from position [k] on. *)
Fixpoint Generate_loop (src : entropy) (k : nat) (i : Z) (todo : nat) : string :=
  match todo with
  | O => EmptyString
  | S todo' =>
      let num :=
        match rand_Int src k (len base62Chars) with
        | Some num => num
        | None => i mod len base62Chars
        end in
      String (index base62Chars num) (Generate_loop src (S k) (i + 1) todo')
  end.

(** [func (g *CodeGenerator) Generate() string], with the position
    reached in the entropy source. *)
Definition Generate (g : CodeGenerator) (src : entropy) (k : nat) : string * nat :=
  (Generate_loop src k 0 (Z.to_nat (length g)),
   (k + Z.to_nat (length g))%nat).

(** The range of [uint]. *)
Definition uint_modulus : Z := 2 ^ 64.

(** [for num > 0 { ... }] of [GenerateFromID]: prepend the digits of
    [num] to [result]. *)
Equations? GenerateFromID_digits (num : Z) (result : string) : string
  by wf (Z.to_nat num) lt :=
  GenerateFromID_digits num result with Z_lt_dec 0 num => {
    | left _ :=
        let remainder := num mod 62 in
        GenerateFromID_digits (num / 62)
          (String (index base62Chars remainder) result);
    | right _ := result }.
Proof.
  apply Z2Nat.inj_lt; try lia.
  - apply Z.div_pos; lia.
  - apply Z.div_lt; lia.
Qed.

(** [for len(result) < g.length { ... }] of [GenerateFromID]. *)
Equations? GenerateFromID_pad (length : Z) (result : string) : string
  by wf (Z.to_nat (length - len result)) lt :=
  GenerateFromID_pad length result with Z_lt_dec (len result) length => {
    | left _ := GenerateFromID_pad length (String (index base62Chars 0) result);
    | right _ := result }.
Proof. unfold len in *. simpl String.length. lia. Qed.

(** [func (g *CodeGenerator) GenerateFromID(id uint) string]. *)
Definition GenerateFromID (g : CodeGenerator) (id : Z) : string :=
  if id =? 0 then String (index base62Chars 0) EmptyString
  else
    let result := GenerateFromID_digits id EmptyString in
    GenerateFromID_pad (length g) result.

(** One iteration of the loop of [Decode]: [None] is [continue]. *)
Definition Decode_value (char : ascii) : option Z :=
  if byte_in "0" "9" char then Some (byte_val char - byte_val "0")
  else if byte_in "A" "Z" char then Some (byte_val char - byte_val "A" + 10)
  else if byte_in "a" "z" char then Some (byte_val char - byte_val "a" + 36)
  else None.

Fixpoint Decode_loop (code : string) (result : Z) : Z :=
  match code with
  | EmptyString => result
  | String char rest =>
      match Decode_value char with
      | Some value => Decode_loop rest ((result * 62 + value) mod uint_modulus)
      | None => Decode_loop rest result
      end
  end.

(** [func (g *CodeGenerator) Decode(code string) uint]. *)
Definition Decode (g : CodeGenerator) (code : string) : Z :=
  Decode_loop code 0.

(** [func (g *CodeGenerator) IsValid(code string) bool].  The source
    ranges over runes; a rune of a byte outside ASCII is never one of the
    62 symbols, and neither is that byte, so the verdict is the same byte
    by byte. *)
Definition IsValid (g : CodeGenerator) (code : string) : bool :=
  if (len code =? 0) || (len code >? length g) then false
  else all_bytes (contains_byte base62Chars) code.

End shortener.

(** ** Package [domain]: entities and errors *)

Module domain.

(** Instants are counted in nanoseconds since the Unix epoch. *)
Definition Time := Z.

(** The zero value of [time.Time] (1 January of year 1, UTC). *)
Definition zero_time : Time := -62135596800 * 10 ^ 9.

Definition day : Z := 86400 * 10 ^ 9.

(** [t.AddDate(0, 0, days)], a calendar day taken as 24 hours. *)
Definition AddDate_days (t : Time) (days : Z) : Time := t + days * day.

(** The error values of the engine: the sentinels of [errors.go], the
    [AppError] wrapper, the text errors made by [fmt.Errorf], and the
    errors that come up from gorm and the driver. *)
Inductive error : Type :=
| ErrURLNotFound
| ErrURLExpired
| ErrInvalidURL
| ErrShortCodeTaken
| ErrShortCodeInvalid
| ErrRateLimitExceeded
| ErrDatabaseConnection
| ErrCacheUnavailable
| Errorf (text : string)
| GormError (text : string)
| AppError (Err : error) (Message : string) (StatusCode : Z) (Internal : bool).

Inductive Result (T : Type) : Type :=
| Ok (v : T)
| Fail (e : error).
Arguments Ok {T} v.
Arguments Fail {T} e.

(** [func NewValidationError(message string) *AppError]. *)
Definition NewValidationError (message : string) : error :=
  AppError ErrInvalidURL message 400 false.

(** [func NewInternalError(err error) *AppError]. *)
Definition NewInternalError (err : error) : error :=
  AppError err "Internal server error occurred" 500 true.

(** Is [e] one of the plain sentinels, and which. *)
Definition same_sentinel (e target : error) : bool :=
  match e, target with
  | ErrURLNotFound, ErrURLNotFound
  | ErrURLExpired, ErrURLExpired
  | ErrInvalidURL, ErrInvalidURL
  | ErrShortCodeTaken, ErrShortCodeTaken
  | ErrShortCodeInvalid, ErrShortCodeInvalid
  | ErrRateLimitExceeded, ErrRateLimitExceeded
  | ErrDatabaseConnection, ErrDatabaseConnection
  | ErrCacheUnavailable, ErrCacheUnavailable => true
  | _, _ => false
  end.

(** [errors.Is(err, target)] for a sentinel [target]: follow [Unwrap]. *)
Fixpoint errors_Is (err target : error) : bool :=
  match err with
  | AppError inner _ _ _ => errors_Is inner target
  | _ => same_sentinel err target
  end.

(** [type URL struct]. *)
Record URL := {
  ID : Z;
  ShortCode : string;
  OriginalURL : string;
  CreatedAt : Time;
  UpdatedAt : Time;
  ExpiresAt : option Time;
  ClickCount : Z;
  LastAccessAt : option Time;
  CreatorIP : string;
  IsActive : bool;
  CustomAlias : bool
}.

(** [func (u *URL) IsExpired() bool], [now] being what [time.Now()]
    returns. *)
Definition IsExpired (u : URL) (now : Time) : bool :=
  match ExpiresAt u with
  | None => false
  | Some expiresAt => now >? expiresAt
  end.

(** [type CreateURLRequest struct]. *)
Record CreateURLRequest := {
  req_URL : string;
  req_CustomAlias : string;
  req_ExpiryDays : Z
}.

(** [type CreateURLResponse struct]. *)
Record CreateURLResponse := {
  resp_ShortCode : string;
  resp_ShortURL : string;
  resp_OriginalURL : string;
  resp_CreatedAt : Time;
  resp_ExpiresAt : option Time
}.

(** [func (u *URL) IncrementClickCount()], the in-memory counterpart of
    the repository's update; [u.ClickCount++] wraps around in [int64]. *)
Definition URL_IncrementClickCount (u : URL) (now : Time) : URL :=
  {| ID := ID u; ShortCode := ShortCode u; OriginalURL := OriginalURL u;
     CreatedAt := CreatedAt u; UpdatedAt := UpdatedAt u;
     ExpiresAt := ExpiresAt u;
     ClickCount := (ClickCount u + 1 + 2 ^ 63) mod 2 ^ 64 - 2 ^ 63;
     LastAccessAt := Some now; CreatorIP := CreatorIP u;
     IsActive := IsActive u; CustomAlias := CustomAlias u |}.

(** [type ErrorResponse struct]. *)
Record ErrorResponse := {
  err_Error : string;
  err_Message : string;
  err_Code : Z
}.

End domain.

(** ** Go's [net/url] (as of Go 1.21), as far as [validator] needs it *)

Module net_url.
Import gostr.

(** The bytes on which this model follows [net/url]: letters, digits,
    the marks [-_.~], the separators [/:?#] and the delimiters [=&+,;$].
    None of them starts a percent escape, a userinfo or an IP literal,
    so [unescape] is the identity on them and [User] stays nil. *)
Definition plain_byte (c : ascii) : bool :=
  byte_in "a" "z" c || byte_in "A" "Z" c || byte_in "0" "9" c
  || contains_byte "-_.~/:?#=&+,;$" c.

(** [type URL struct], without [User], [RawPath] and [RawFragment],
    which are empty for every input made of plain bytes (for
    [RawFragment] see [EscapedFragment]). *)
Record URL := {
  Scheme : string;
  Opaque : string;
  Host : string;
  Path : string;
  OmitHost : bool;
  ForceQuery : bool;
  RawQuery : string;
  Fragment : string
}.

(** The [encoding] modes that occur. *)
Inductive encoding := encodePath | encodeHost | encodeFragment.

(** [func shouldEscape(c byte, mode encoding) bool], for those modes. *)
Definition shouldEscape (c : ascii) (mode : encoding) : bool :=
  if byte_in "a" "z" c || byte_in "A" "Z" c || byte_in "0" "9" c then false
  else if match mode with
          | encodeHost =>
              contains_byte "!$&'()*+,;=:[]<>" c || Ascii.eqb c (ascii_of_N 34)
          | _ => false
          end then false
  else if contains_byte "-_.~" c then false
  else if contains_byte "$&+,/:;=?@" c then
    match mode with
    | encodePath => Ascii.eqb c "?"
    | encodeFragment => false
    | encodeHost => true
    end
  else if match mode with
          | encodeFragment => contains_byte "!()*" c
          | _ => false
          end then false
  else true.

(** ["0123456789ABCDEF"[n]]. *)
Definition upperhex (n : N) : ascii := index "0123456789ABCDEF" (Z.of_N n).

(** [func escape(s string, mode encoding) string], for those modes. *)
Fixpoint escape (s : string) (mode : encoding) : string :=
  match s with
  | EmptyString => EmptyString
  | String c rest =>
      if shouldEscape c mode then
        String "%" (String (upperhex (N_of_ascii c / 16))
                      (String (upperhex (N_of_ascii c mod 16)) (escape rest mode)))
      else String c (escape rest mode)
  end.

(** What the scan of [getScheme] finds. *)
Inductive scheme_scan :=
| SchemeFound (scheme path : string)
| SchemeNone
| SchemeMissing.

(** The loop of [getScheme] from index [i] on, [first] telling whether
    [i == 0]. *)
Fixpoint getScheme_loop (first : bool) (s : string) : scheme_scan :=
  match s with
  | EmptyString => SchemeNone
  | String c rest =>
      let continue :=
        match getScheme_loop false rest with
        | SchemeFound scheme path => SchemeFound (String c scheme) path
        | other => other
        end in
      if byte_in "a" "z" c || byte_in "A" "Z" c then continue
      else if byte_in "0" "9" c || contains_byte "+-." c then
        if first then SchemeNone else continue
      else if Ascii.eqb c ":" then
        if first then SchemeMissing else SchemeFound EmptyString rest
      else SchemeNone
  end.

(** [func getScheme(rawURL string) (scheme, path string, err error)]. *)
Definition getScheme (rawURL : string) : option (string * string) :=
  match getScheme_loop true rawURL with
  | SchemeFound scheme path => Some (scheme, path)
  | SchemeNone => Some (EmptyString, rawURL)
  | SchemeMissing => None
  end.

(** [strings.HasSuffix(s, "?")]. *)
Fixpoint HasSuffix_byte (s : string) (c : ascii) : bool :=
  match s with
  | EmptyString => false
  | String d EmptyString => Ascii.eqb d c
  | String _ rest => HasSuffix_byte rest c
  end.

(** [s[:len(s)-1]]. *)
Fixpoint drop_last (s : string) : string :=
  match s with
  | EmptyString => EmptyString
  | String _ EmptyString => EmptyString
  | String c rest => String c (drop_last rest)
  end.

(** [strings.Count(s, "?")]. *)
Fixpoint Count_byte (s : string) (c : ascii) : Z :=
  match s with
  | EmptyString => 0
  | String d rest => (if Ascii.eqb d c then 1 else 0) + Count_byte rest c
  end.

(** [s[:i], s[i:]] for [i := strings.Index(s, "/")], the whole of [s]
    and nothing when there is no slash. *)
Fixpoint split_at_slash (s : string) : string * string :=
  match s with
  | EmptyString => (EmptyString, EmptyString)
  | String c rest =>
      if Ascii.eqb c "/" then (EmptyString, s)
      else let '(before, after) := split_at_slash rest in
           (String c before, after)
  end.

(** [host[i:]] for [i := strings.LastIndex(host, ":")], if any. *)
Fixpoint from_last_colon (host : string) : option string :=
  match host with
  | EmptyString => None
  | String c rest =>
      match from_last_colon rest with
      | Some colonPort => Some colonPort
      | None => if Ascii.eqb c ":" then Some host else None
      end
  end.

(** [func validOptionalPort(port string) bool]. *)
Definition validOptionalPort (port : string) : bool :=
  match port with
  | EmptyString => true
  | String c digits => Ascii.eqb c ":" && all_bytes (byte_in "0" "9") digits
  end.

(** [func parseHost(host string) (string, error)] on plain bytes: the
    port, when there is one, must be digits; no plain byte is refused in
    a host name ([shouldEscape] in [encodeHost] mode). *)
Definition parseHost (host : string) : option string :=
  match from_last_colon host with
  | Some colonPort =>
      if validOptionalPort colonPort then Some host else None
  | None => Some host
  end.

(** [func parse(rawURL string, viaRequest bool)] with [viaRequest]
    false, on plain bytes. *)
Definition parse (rawURL : string) : option URL :=
  match getScheme rawURL with
  | None => None
  | Some (scheme, rest) =>
      let scheme := ToLower scheme in
      let '(rest, forceQuery, rawQuery) :=
        if HasSuffix_byte rest "?" && (Count_byte rest "?" =? 1)
        then (drop_last rest, true, EmptyString)
        else let '(before, after, _) := Cut rest "?" in (before, false, after) in
      if negb (HasPrefix rest "/") && negb (String.eqb scheme "")
      then Some {| Scheme := scheme; Opaque := rest; Host := ""; Path := "";
                   OmitHost := false; ForceQuery := forceQuery;
                   RawQuery := rawQuery; Fragment := "" |}
      else if negb (HasPrefix rest "/")
              && contains_byte (fst (split_at_slash rest)) ":"
      then None
      else if (negb (String.eqb scheme "") || negb (HasPrefix rest "///"))
              && HasPrefix rest "//"
      then
        let '(authority, rest) :=
          split_at_slash (substring 2 (String.length rest - 2) rest) in
        match parseHost authority with
        | None => None
        | Some host =>
            Some {| Scheme := scheme; Opaque := ""; Host := host; Path := rest;
                    OmitHost := false; ForceQuery := forceQuery;
                    RawQuery := rawQuery; Fragment := "" |}
        end
      else
        Some {| Scheme := scheme; Opaque := ""; Host := ""; Path := rest;
                OmitHost := negb (String.eqb scheme "") && HasPrefix rest "/";
                ForceQuery := forceQuery; RawQuery := rawQuery;
                Fragment := "" |}
  end.

(** [func Parse(rawURL string)], with a nil error as [Some].  [None] is an error, and
    also the answer to every input with a byte outside [plain_byte],
    where this model does not follow [net/url]. *)
Definition Parse (rawURL : string) : option URL :=
  if negb (all_bytes plain_byte rawURL) then None
  else
    let '(u, frag, _) := Cut rawURL "#" in
    match parse u with
    | None => None
    | Some url =>
        Some {| Scheme := Scheme url; Opaque := Opaque url; Host := Host url;
                Path := Path url; OmitHost := OmitHost url;
                ForceQuery := ForceQuery url; RawQuery := RawQuery url;
                Fragment := frag |}
    end.

(** [func (u *URL) EscapedPath() string], [RawPath] being empty. *)
Definition EscapedPath (u : URL) : string := escape (Path u) encodePath.

(** [func (u *URL) EscapedFragment() string]: [RawFragment] is only set
    when the fragment holds a byte that must be escaped, and is not a
    valid encoding then, so the answer is the escaped [Fragment]. *)
Definition EscapedFragment (u : URL) : string := escape (Fragment u) encodeFragment.

(** [func (u *URL) String() string], [User] being nil. *)
Definition String_ (u : URL) : string :=
  let buf := if negb (String.eqb (Scheme u) "") then Scheme u ++ ":" else "" in
  let buf :=
    if negb (String.eqb (Opaque u) "") then buf ++ Opaque u
    else
      let buf :=
        if negb (String.eqb (Scheme u) "") || negb (String.eqb (Host u) "") then
          if OmitHost u && String.eqb (Host u) "" then buf
          else
            let buf :=
              if negb (String.eqb (Host u) "") || negb (String.eqb (Path u) "")
              then buf ++ "//" else buf in
            if negb (String.eqb (Host u) "")
            then buf ++ escape (Host u) encodeHost else buf
        else buf in
      let path := EscapedPath u in
      let buf :=
        if negb (String.eqb path "") && negb (HasPrefix path "/")
           && negb (String.eqb (Host u) "")
        then buf ++ "/" else buf in
      let buf :=
        if String.eqb buf "" && contains_byte (fst (split_at_slash path)) ":"
        then buf ++ "./" else buf in
      buf ++ path in
  let buf :=
    if ForceQuery u || negb (String.eqb (RawQuery u) "")
    then buf ++ "?" ++ RawQuery u else buf in
  if negb (String.eqb (Fragment u) "")
  then buf ++ "#" ++ EscapedFragment u else buf.

End net_url.

(** ** Package [validator] *)

Module validator.
Import gostr.

(** One byte of the class [[a-zA-Z0-9_-]] of [shortCodeRegex]. *)
Definition shortCode_byte (c : ascii) : bool :=
  byte_in "a" "z" c || byte_in "A" "Z" c || byte_in "0" "9" c
  || Ascii.eqb c "_" || Ascii.eqb c "-".

(** [shortCodeRegex.MatchString(code)] for [^[a-zA-Z0-9_-]+$]: one or
    more bytes, each of the class, up to the end of the text. *)
Definition shortCodeRegex_MatchString (code : string) : bool :=
  negb (len code =? 0) && all_bytes shortCode_byte code.

(** [func ValidateShortCode(code string) bool]. *)
Definition ValidateShortCode (code : string) : bool :=
  if (len code <? 2) || (len code >? 50) then false
  else shortCodeRegex_MatchString code.

(** [type ValidationError struct]. *)
Record ValidationError := { Field : string; Message : string }.

(** [\s] of Go's [regexp]. *)
Definition space_byte (c : ascii) : bool :=
  Ascii.eqb c " " || byte_in "009" "010" c || byte_in "012" "013" c.

(** [urlRegex.MatchString(rawURL)] for
    [^(https?|ftp)://[^\s/$.?#].[^\s]*$], on single-byte characters. *)
Definition urlRegex_MatchString (rawURL : string) : bool :=
  let after (prefix : string) : option string :=
    if HasPrefix rawURL prefix
    then Some (substring (String.length prefix)
                 (String.length rawURL - String.length prefix) rawURL)
    else None in
  let tail (rest : string) : bool :=
    match rest with
    | String c1 (String c2 more) =>
        negb (space_byte c1 || contains_byte "/$.?#" c1)
        && negb (Ascii.eqb c2 "010")
        && all_bytes (fun c => negb (space_byte c)) more
    | _ => false
    end in
  match after "https://", after "http://", after "ftp://" with
  | Some rest, _, _ => tail rest
  | None, Some rest, _ => tail rest
  | None, None, Some rest => tail rest
  | None, None, None => false
  end.

(** [allowedSchemes[scheme]]. *)
Definition allowedSchemes (scheme : string) : bool :=
  String.eqb scheme "http" || String.eqb scheme "https" || String.eqb scheme "ftp".

(** [func ValidateURL(rawURL string) error], nil being [None]. *)
Definition ValidateURL (rawURL : string) : option ValidationError :=
  if String.eqb rawURL "" then
    Some {| Field := "url"; Message := "URL cannot be empty" |}
  else if negb (urlRegex_MatchString rawURL) then
    Some {| Field := "url"; Message := "Invalid URL format" |}
  else
    match net_url.Parse rawURL with
    | None => Some {| Field := "url"; Message := "Invalid URL structure" |}
    | Some parsed =>
        if negb (allowedSchemes (ToLower (net_url.Scheme parsed))) then
          Some {| Field := "url"; Message := "Unsupported URL scheme" |}
        else if String.eqb (net_url.Host parsed) "" then
          Some {| Field := "url"; Message := "URL must contain a host" |}
        else if len rawURL >? 2048 then
          Some {| Field := "url"; Message := "URL too long (max 2048 characters)" |}
        else None
    end.

(** [func NormalizeURL(rawURL string) string]. *)
Definition NormalizeURL (rawURL : string) : string :=
  let rawURL :=
    if negb (Contains rawURL "://") then "https://" ++ rawURL else rawURL in
  match net_url.Parse rawURL with
  | None => rawURL
  | Some parsed =>
      net_url.String_
        {| net_url.Scheme := ToLower (net_url.Scheme parsed);
           net_url.Opaque := net_url.Opaque parsed;
           net_url.Host := ToLower (net_url.Host parsed);
           net_url.Path := TrimSuffix_slash (net_url.Path parsed);
           net_url.OmitHost := net_url.OmitHost parsed;
           net_url.ForceQuery := net_url.ForceQuery parsed;
           net_url.RawQuery := net_url.RawQuery parsed;
           net_url.Fragment := net_url.Fragment parsed |}
  end.

(** [dangerousSchemes[scheme]] of [IsSafeURL]. *)
Definition dangerousSchemes (scheme : string) : bool :=
  String.eqb scheme "javascript" || String.eqb scheme "data"
  || String.eqb scheme "vbscript".

(** [func IsSafeURL(rawURL string) bool]. *)
Definition IsSafeURL (rawURL : string) : bool :=
  match net_url.Parse rawURL with
  | None => false
  | Some parsed => negb (dangerousSchemes (ToLower (net_url.Scheme parsed)))
  end.

End validator.

(** ** Package [repository/postgres]: the table [urls] behind gorm *)

Module postgres.
Import gostr domain.

(** The database as the repository sees it: the rows of [urls] in
    primary-key order (the order of [First]), the [BIGSERIAL] sequence of
    [id], the [TranslateError] switch of [gorm.Config] (which
    [cmd/server] leaves off), and whether statements reach the server
    while a call lasts.  Only the constraints declared by the migration
    are modelled ([VARCHAR] sizes and the [UNIQUE] on [short_code]); the
    server's checks of text encoding are not.  [Update] and [GetStats],
    which the engine does not call, are left out. *)
Record DB := {
  rows : list URL;
  next_id : Z;
  TranslateError : bool;
  reachable : bool
}.

Definition with_rows (db : DB) (rows' : list URL) : DB :=
  {| rows := rows'; next_id := next_id db;
     TranslateError := TranslateError db; reachable := reachable db |}.

(** What [result.Error] can be. *)
Inductive gorm_error : Type :=
| ErrRecordNotFound
| ErrDuplicatedKey
| DriverError (sqlstate : string).

(** [errors.Is(result.Error, gorm.ErrDuplicatedKey)]. *)
Definition is_ErrDuplicatedKey (e : gorm_error) : bool :=
  match e with ErrDuplicatedKey => true | _ => false end.

(** [errors.Is(result.Error, gorm.ErrRecordNotFound)]. *)
Definition is_ErrRecordNotFound (e : gorm_error) : bool :=
  match e with ErrRecordNotFound => true | _ => false end.

(** A gorm or driver error as a Go [error] value. *)
Definition as_error (e : gorm_error) : error :=
  match e with
  | ErrRecordNotFound => GormError "record not found"
  | ErrDuplicatedKey => GormError "duplicated key not allowed"
  | DriverError sqlstate => GormError sqlstate
  end.

Definition connection_failure : gorm_error := DriverError "08006".
Definition string_data_right_truncation : gorm_error := DriverError "22001".
Definition numeric_value_out_of_range : gorm_error := DriverError "22003".
Definition unique_violation : gorm_error := DriverError "23505".

(** [short_code = ?]. *)
Definition has_code (shortCode : string) (u : URL) : bool :=
  String.eqb (ShortCode u) shortCode.

(** [short_code = ? AND is_active = true]. *)
Definition active_code (shortCode : string) (u : URL) : bool :=
  has_code shortCode u && IsActive u.

(** [original_url = ? AND is_active = true]. *)
Definition active_target (originalURL : string) (u : URL) : bool :=
  String.eqb (OriginalURL u) originalURL && IsActive u.

(** The entity as gorm fills it in before the [INSERT]: the timestamps
    of [autoCreateTime] and [autoUpdateTime] where they are zero. *)
Definition stamp_created (now : Time) (u : URL) : URL :=
  {| ID := ID u; ShortCode := ShortCode u; OriginalURL := OriginalURL u;
     CreatedAt := if CreatedAt u =? zero_time then now else CreatedAt u;
     UpdatedAt := if UpdatedAt u =? zero_time then now else UpdatedAt u;
     ExpiresAt := ExpiresAt u; ClickCount := ClickCount u;
     LastAccessAt := LastAccessAt u; CreatorIP := CreatorIP u;
     IsActive := IsActive u; CustomAlias := CustomAlias u |}.

(** The row that the [INSERT] stores and returns: [id] from the
    sequence (every caller leaves [ID] zero), and [is_active] true: gorm
    leaves a false [IsActive] out of the statement, since the field has
    a default, and the column default is [TRUE]. *)
Definition inserted_row (id : Z) (u : URL) : URL :=
  {| ID := id; ShortCode := ShortCode u; OriginalURL := OriginalURL u;
     CreatedAt := CreatedAt u; UpdatedAt := UpdatedAt u;
     ExpiresAt := ExpiresAt u; ClickCount := ClickCount u;
     LastAccessAt := LastAccessAt u; CreatorIP := CreatorIP u;
     IsActive := true; CustomAlias := CustomAlias u |}.

(** [r.db.WithContext(ctx).Create(url)]: [result.Error], the database
    afterwards and the entity as gorm leaves it.  [short_code] is
    [VARCHAR(12) NOT NULL UNIQUE], over every row, active or not;
    [creator_ip] is [VARCHAR(45)]. *)
Definition gorm_Create (db : DB) (now : Time) (url : URL)
  : option gorm_error * DB * URL :=
  let url := stamp_created now url in
  if negb (reachable db) then (Some connection_failure, db, url)
  else if (len (ShortCode url) >? 12) || (len (CreatorIP url) >? 45)
  then (Some string_data_right_truncation, db, url)
  else if existsb (has_code (ShortCode url)) (rows db)
  then (Some (if TranslateError db then ErrDuplicatedKey else unique_violation),
        db, url)
  else
    let row := inserted_row (next_id db) url in
    (None,
     {| rows := rows db ++ [row]; next_id := next_id db + 1;
        TranslateError := TranslateError db; reachable := reachable db |},
     row).

(** [func (r *urlRepository) Create(ctx, url) error]; the entity comes
    back as the call leaves the struct it was given. *)
Definition Create (db : DB) (now : Time) (url : URL) : Result URL * DB :=
  let '(result_Error, db', url') := gorm_Create db now url in
  match result_Error with
  | Some e =>
      if is_ErrDuplicatedKey e then (Fail ErrShortCodeTaken, db')
      else (Fail (NewInternalError (as_error e)), db')
  | None => (Ok url', db')
  end.

(** [Where(cond).First(&url)]: the first matching row in primary-key
    order, or [ErrRecordNotFound]. *)
Definition gorm_First (db : DB) (cond : URL -> bool) : gorm_error + URL :=
  if negb (reachable db) then inl connection_failure
  else match List.find cond (rows db) with
       | Some u => inr u
       | None => inl ErrRecordNotFound
       end.

(** [func (r *urlRepository) FindByShortCode(ctx, shortCode)]. *)
Definition FindByShortCode (db : DB) (shortCode : string) : Result URL :=
  match gorm_First db (active_code shortCode) with
  | inl e =>
      if is_ErrRecordNotFound e then Fail ErrURLNotFound
      else Fail (NewInternalError (as_error e))
  | inr url => Ok url
  end.

(** [func (r *urlRepository) FindByOriginalURL(ctx, originalURL)]. *)
Definition FindByOriginalURL (db : DB) (originalURL : string) : Result URL :=
  match gorm_First db (active_target originalURL) with
  | inl e =>
      if is_ErrRecordNotFound e then Fail ErrURLNotFound
      else Fail (NewInternalError (as_error e))
  | inr url => Ok url
  end.

(** An [UPDATE ... WHERE cond] that applies [change] to every matching
    row: the table afterwards and [RowsAffected]. *)
Definition update_where (cond : URL -> bool) (change : URL -> URL)
    (table : list URL) : list URL * Z :=
  (map (fun u => if cond u then change u else u) table,
   Z.of_nat (List.length (List.filter cond table))).

Definition deactivated (now : Time) (u : URL) : URL :=
  {| ID := ID u; ShortCode := ShortCode u; OriginalURL := OriginalURL u;
     CreatedAt := CreatedAt u; UpdatedAt := now;
     ExpiresAt := ExpiresAt u; ClickCount := ClickCount u;
     LastAccessAt := LastAccessAt u; CreatorIP := CreatorIP u;
     IsActive := false; CustomAlias := CustomAlias u |}.

Definition clicked (now : Time) (u : URL) : URL :=
  {| ID := ID u; ShortCode := ShortCode u; OriginalURL := OriginalURL u;
     CreatedAt := CreatedAt u; UpdatedAt := now;
     ExpiresAt := ExpiresAt u; ClickCount := ClickCount u + 1;
     LastAccessAt := Some now; CreatorIP := CreatorIP u;
     IsActive := IsActive u; CustomAlias := CustomAlias u |}.

(** [func (r *urlRepository) Delete(ctx, shortCode) error]: the soft
    delete, [nil] being [None]. *)
Definition Delete (db : DB) (now : Time) (shortCode : string)
  : option error * DB :=
  if negb (reachable db)
  then (Some (NewInternalError (as_error connection_failure)), db)
  else
    let '(table, RowsAffected) :=
      update_where (has_code shortCode) (deactivated now) (rows db) in
    if RowsAffected =? 0 then (Some ErrURLNotFound, with_rows db table)
    else (None, with_rows db table).

(** The largest [BIGINT]. *)
Definition max_int64 : Z := 2 ^ 63 - 1.

(** [func (r *urlRepository) IncrementClickCount(ctx, shortCode) error]:
    one [UPDATE] of [click_count] and [last_access_at] on the active rows
    of the code.  The statement fails as a whole when [click_count + 1]
    leaves [BIGINT]. *)
Definition IncrementClickCount (db : DB) (now : Time) (shortCode : string)
  : option error * DB :=
  if negb (reachable db)
  then (Some (NewInternalError (as_error connection_failure)), db)
  else if existsb (fun u => active_code shortCode u && (ClickCount u >=? max_int64))
            (rows db)
  then (Some (NewInternalError (as_error numeric_value_out_of_range)), db)
  else
    let '(table, RowsAffected) :=
      update_where (active_code shortCode) (clicked now) (rows db) in
    if RowsAffected =? 0 then (Some ErrURLNotFound, with_rows db table)
    else (None, with_rows db table).

(** [expires_at IS NOT NULL AND expires_at < now]. *)
Definition past_expiry (now : Time) (u : URL) : bool :=
  match ExpiresAt u with
  | Some expiresAt => expiresAt <? now
  | None => false
  end.

(** [func (r *urlRepository) DeleteExpired(ctx) (int64, error)], the
    sweep of the cleanup job. *)
Definition DeleteExpired (db : DB) (now : Time) : Result Z * DB :=
  if negb (reachable db)
  then (Fail (NewInternalError (as_error connection_failure)), db)
  else
    let '(table, RowsAffected) :=
      update_where (past_expiry now) (deactivated now) (rows db) in
    (Ok RowsAffected, with_rows db table).

(** [func (r *urlRepository) ExistsByShortCode(ctx, shortCode)]. *)
Definition ExistsByShortCode (db : DB) (shortCode : string) : Result bool :=
  if negb (reachable db)
  then Fail (NewInternalError (as_error connection_failure))
  else
    let count := Z.of_nat (List.length (List.filter (active_code shortCode) (rows db))) in
    Ok (count >? 0).

End postgres.

(** ** Package [cache]: the redis client *)

Module cache.
Import domain.

(** The redis keyspace: value and time-to-live per key, and whether a
    command reaches the server.  Eviction at the end of a time-to-live is
    the server's business and is not modelled; the counter, which the
    engine does not call, is left out. *)
Record Redis := {
  keyspace : gmap string (string * Z);
  reachable : bool
}.

(** [func (c *redisCache) prefixKey(key string) string]. *)
Definition prefixKey (key : string) : string := "urlshortener:" ++ key.

(** [func (c *redisCache) Set(ctx, key, value, ttl) error] ([Set] is
    reserved here, hence the underscore). *)
Definition Set_ (c : Redis) (key value : string) (ttl : Z)
  : option error * Redis :=
  let prefixedKey := prefixKey key in
  if negb (reachable c) then (Some (Errorf "redis set failed"), c)
  else (None,
        {| keyspace := <[prefixedKey := (value, ttl)]> (keyspace c);
           reachable := reachable c |}).

(** [func (c *redisCache) Get(ctx, key) (string, error)]: the empty
    string for a key that does not exist. *)
Definition Get (c : Redis) (key : string) : Result string :=
  let prefixedKey := prefixKey key in
  if negb (reachable c) then Fail (Errorf "redis get failed")
  else match keyspace c !! prefixedKey with
       | Some (val, _) => Ok val
       | None => Ok ""
       end.

(** [func (c *redisCache) Delete(ctx, key) error]. *)
Definition Delete (c : Redis) (key : string) : option error * Redis :=
  let prefixedKey := prefixKey key in
  if negb (reachable c) then (Some (Errorf "redis delete failed"), c)
  else (None,
        {| keyspace := delete prefixedKey (keyspace c);
           reachable := reachable c |}).

(** [func (c *redisCache) Exists(ctx, key) (bool, error)]. *)
Definition Exists (c : Redis) (key : string) : Result bool :=
  let prefixedKey := prefixKey key in
  if negb (reachable c) then Fail (Errorf "redis exists check failed")
  else Ok (bool_decide (is_Some (keyspace c !! prefixedKey))).

(** [func (c *redisCache) SetMultiple(ctx, items, ttl) error]: one
    pipeline of [SET]s, one per entry of the map; a pipeline without
    commands is not sent. *)
Definition SetMultiple (c : Redis) (items : gmap string string) (ttl : Z)
  : option error * Redis :=
  if bool_decide (items = ∅) then (None, c)
  else if negb (reachable c) then (Some (Errorf "redis pipeline failed"), c)
  else (None,
        {| keyspace :=
             map_fold (fun key value ks => <[prefixKey key := (value, ttl)]> ks)
               (keyspace c) items;
           reachable := reachable c |}).

(** [func (c *redisCache) GetMultiple(ctx, keys)]: one pipeline of
    [GET]s; the keys that do not exist are skipped. *)
Definition GetMultiple (c : Redis) (keys : list string)
  : Result (gmap string string) :=
  if (Z.of_nat (List.length keys) =? 0) then Ok ∅
  else if negb (reachable c) then Fail (Errorf "redis pipeline failed")
  else Ok (foldr (fun key results =>
                    match keyspace c !! prefixKey key with
                    | Some (val, _) => <[key := val]> results
                    | None => results
                    end) ∅ keys).

End cache.

(** ** Package [service]: shorten and resolve *)

Module service.
Import gostr domain.

(** The fields of [config.Config] that the service reads. *)
Record Config := {
  BaseURL : string;
  ShortCodeLength : Z;
  CacheTTL : Z;
  URLExpirationDays : Z
}.

(** [type urlService struct]: the immutable part.  The repository and
    the cache it points to are the state, in [World]; the logger has no
    effect on any result. *)
Record urlService := {
  cfg : Config;
  generator : shortener.CodeGenerator
}.

(** [func NewURLService(repo, cache, cfg, logger) URLService]. *)
Definition NewURLService (cfg : Config) : urlService :=
  {| cfg := cfg;
     generator := shortener.NewCodeGenerator (ShortCodeLength cfg) |}.

(** What a call can read and change: the database behind [s.repo], the
    redis behind [s.cache] ([None] when [s.cache] is nil), how far
    [rand.Reader] has been read, and the codes whose click accounting
    was handed to a goroutine and has not run yet. *)
Record World := {
  repo : postgres.DB;
  cache : option cache.Redis;
  entropy_pos : nat;
  spawned : list string
}.

Definition with_repo (w : World) (db : postgres.DB) : World :=
  {| repo := db; cache := cache w; entropy_pos := entropy_pos w;
     spawned := spawned w |}.

Definition with_cache (w : World) (c : option cache.Redis) : World :=
  {| repo := repo w; cache := c; entropy_pos := entropy_pos w;
     spawned := spawned w |}.

Definition with_entropy_pos (w : World) (k : nat) : World :=
  {| repo := repo w; cache := cache w; entropy_pos := k;
     spawned := spawned w |}.

(** [go func() { ... }()]. *)
Definition spawn (w : World) (shortCode : string) : World :=
  {| repo := repo w; cache := cache w; entropy_pos := entropy_pos w;
     spawned := spawned w ++ [shortCode] |}.

Section Service.

(** [validator.ValidateURL] and [validator.NormalizeURL] rest on Go's
    [regexp] and [net/url]; the service is written over whatever they
    compute ([None] is a nil error), and [rand_Reader] is the entropy
    that [crypto/rand] delivers. *)
Context (ValidateURL : string -> option validator.ValidationError)
        (NormalizeURL : string -> string)
        (rand_Reader : shortener.entropy).

(** [const maxRetries = 5]. *)
Definition maxRetries : nat := 5.

(** The loop of [generateUniqueShortCode], with [todo] attempts left. *)
Fixpoint generateUniqueShortCode_loop (s : urlService) (todo : nat) (w : World)
  : Result string * World :=
  match todo with
  | O =>
      (Fail (Errorf "failed to generate unique short code after 5 attempts"), w)
  | S todo' =>
      let '(shortCode, k) :=
        shortener.Generate (generator s) rand_Reader (entropy_pos w) in
      let w := with_entropy_pos w k in
      match postgres.ExistsByShortCode (repo w) shortCode with
      | Fail err => (Fail err, w)
      | Ok exists_ =>
          if negb exists_ then (Ok shortCode, w)
          else generateUniqueShortCode_loop s todo' w
      end
  end.

(** [func (s *urlService) generateUniqueShortCode(ctx) (string, error)]. *)
Definition generateUniqueShortCode (s : urlService) (w : World)
  : Result string * World :=
  generateUniqueShortCode_loop s maxRetries w.

(** [func (s *urlService) buildResponse(url *domain.URL)]. *)
Definition buildResponse (s : urlService) (url : URL) : CreateURLResponse :=
  {| resp_ShortCode := ShortCode url;
     resp_ShortURL := BaseURL (cfg s) ++ "/" ++ ShortCode url;
     resp_OriginalURL := OriginalURL url;
     resp_CreatedAt := CreatedAt url;
     resp_ExpiresAt := ExpiresAt url |}.

(** Step 8 of [ShortenURL] and step 5 of [GetOriginalURL]: seed the
    cache when there is one; its error is logged and dropped. *)
Definition cache_seed (s : urlService) (w : World) (key value : string) : World :=
  match cache w with
  | Some c => with_cache w (Some (snd (cache.Set_ c key value (CacheTTL (cfg s)))))
  | None => w
  end.

(** Steps 4 to 8 of [ShortenURL]: what follows the deduplication. *)
Definition ShortenURL_create (s : urlService) (now : Time)
    (req : CreateURLRequest) (clientIP : string) (normalizedURL : string)
    (w : World) : Result CreateURLResponse * World :=
  let '(chosen, w) :=
    if negb (String.eqb (req_CustomAlias req) "") then
      if negb (validator.ValidateShortCode (req_CustomAlias req)) then
        (Fail (NewValidationError "Custom alias contains invalid characters"), w)
      else
        match postgres.ExistsByShortCode (repo w) (req_CustomAlias req) with
        | Fail err => (Fail (NewInternalError err), w)
        | Ok exists_ =>
            if exists_ then (Fail ErrShortCodeTaken, w)
            else (Ok (req_CustomAlias req), w)
        end
    else
      match generateUniqueShortCode s w with
      | (Fail err, w) => (Fail (NewInternalError err), w)
      | (Ok shortCode, w) => (Ok shortCode, w)
      end in
  match chosen with
  | Fail err => (Fail err, w)
  | Ok shortCode =>
      let expiresAt :=
        if req_ExpiryDays req >? 0
        then Some (AddDate_days now (req_ExpiryDays req))
        else if URLExpirationDays (cfg s) >? 0
        then Some (AddDate_days now (URLExpirationDays (cfg s)))
        else None in
      let url :=
        {| ID := 0; ShortCode := shortCode; OriginalURL := normalizedURL;
           CreatedAt := zero_time; UpdatedAt := zero_time;
           ExpiresAt := expiresAt; ClickCount := 0; LastAccessAt := None;
           CreatorIP := clientIP; IsActive := true;
           CustomAlias := negb (String.eqb (req_CustomAlias req) "") |} in
      match postgres.Create (repo w) now url with
      | (Fail err, db) => (Fail err, with_repo w db)
      | (Ok url, db) =>
          let w := with_repo w db in
          let w := cache_seed s w shortCode normalizedURL in
          (Ok (buildResponse s url), w)
      end
  end.

(** [func (s *urlService) ShortenURL(ctx, req, clientIP)], [now] being
    what [time.Now()] returns during the call. *)
Definition ShortenURL (s : urlService) (now : Time)
    (req : CreateURLRequest) (clientIP : string) (w : World)
  : Result CreateURLResponse * World :=
  match ValidateURL (req_URL req) with
  | Some _ => (Fail (NewValidationError "Invalid URL format"), w)
  | None =>
      let normalizedURL := NormalizeURL (req_URL req) in
      match postgres.FindByOriginalURL (repo w) normalizedURL with
      | Ok existingURL =>
          if negb (IsExpired existingURL now)
          then (Ok (buildResponse s existingURL), w)
          else ShortenURL_create s now req clientIP normalizedURL w
      | Fail _ => ShortenURL_create s now req clientIP normalizedURL w
      end
  end.

(** Step 1 of [GetOriginalURL]: the cached target, when the cache is
    there, answers without error, and the answer is not empty. *)
Definition cache_hit (w : World) (shortCode : string) : option string :=
  match cache w with
  | Some c =>
      match cache.Get c shortCode with
      | Ok cachedURL =>
          if negb (String.eqb cachedURL "") then Some cachedURL else None
      | Fail _ => None
      end
  | None => None
  end.

(** [func (s *urlService) GetOriginalURL(ctx, shortCode)]. *)
Definition GetOriginalURL (s : urlService) (now : Time) (shortCode : string)
    (w : World) : Result string * World :=
  match cache_hit w shortCode with
  | Some cachedURL => (Ok cachedURL, spawn w shortCode)
  | None =>
      match postgres.FindByShortCode (repo w) shortCode with
      | Fail err => (Fail err, w)
      | Ok url =>
          if IsExpired url now then (Fail ErrURLExpired, w)
          else
            let '(_, db) := postgres.IncrementClickCount (repo w) now shortCode in
            let w := with_repo w db in
            let w := cache_seed s w shortCode (OriginalURL url) in
            (Ok (OriginalURL url), w)
      end
  end.

(** [func (s *urlService) GetURLInfo(ctx, shortCode)]. *)
Definition GetURLInfo (s : urlService) (shortCode : string) (w : World)
  : Result URL :=
  postgres.FindByShortCode (repo w) shortCode.

(** The goroutine spawned on a cache hit, when it gets to run: the
    oldest pending click is accounted; its error is logged and dropped. *)
Definition run_spawned (now : Time) (w : World) : World :=
  match spawned w with
  | [] => w
  | shortCode :: pending =>
      let '(_, db) := postgres.IncrementClickCount (repo w) now shortCode in
      {| repo := db; cache := cache w; entropy_pos := entropy_pos w;
         spawned := pending |}
  end.

(** [func (s *urlService) DeleteURL(ctx, shortCode) error]. *)
Definition DeleteURL (s : urlService) (now : Time) (shortCode : string)
    (w : World) : option error * World :=
  match postgres.Delete (repo w) now shortCode with
  | (Some err, db) => (Some err, with_repo w db)
  | (None, db) =>
      let w := with_repo w db in
      match cache w with
      | Some c => (None, with_cache w (Some (snd (cache.Delete c shortCode))))
      | None => (None, w)
      end
  end.

End Service.

End service.

(** ** Package [config] *)

Module config.
Import gostr domain.

(** [type Config struct]. *)
Record Config := {
  Environment : string;
  ServerPort : string;
  DBHost : string;
  DBPort : string;
  DBUser : string;
  DBPassword : string;
  DBName : string;
  DBSSLMode : string;
  RedisAddr : string;
  RedisPassword : string;
  RedisDB : Z;
  CacheTTL : Z;
  BaseURL : string;
  ShortCodeLength : Z;
  RateLimitPerMinute : Z;
  URLExpirationDays : Z;
  EnableAuthentication : bool;
  APIKey : string
}.

(** [func (c *Config) Validate() error], nil being [None] and an error
    its text. *)
Definition Validate (c : Config) : option string :=
  if String.eqb (Environment c) "production" && String.eqb (DBPassword c) ""
  then Some "DB_PASSWORD is required in production"
  else if (ShortCodeLength c <? 4) || (ShortCodeLength c >? 12)
  then Some ("SHORT_CODE_LENGTH must be between 4 and 12, got "
             ++ pretty (ShortCodeLength c))
  else if String.eqb (BaseURL c) ""
  then Some "BASE_URL is required"
  else if EnableAuthentication c && String.eqb (APIKey c) ""
  then Some "API_KEY is required when ENABLE_AUTHENTICATION is true"
  else None.

(** [func (c *Config) IsDevelopment() bool]. *)
Definition IsDevelopment (c : Config) : bool :=
  String.eqb (Environment c) "development".

(** [func (c *Config) IsProduction() bool]. *)
Definition IsProduction (c : Config) : bool :=
  String.eqb (Environment c) "production".

(** The process environment: [os.Getenv] answers the empty string for a
    variable that is not set. *)
Definition os_Getenv (env : gmap string string) (key : string) : string :=
  match env !! key with
  | Some value => value
  | None => EmptyString
  end.

(** The decimal value of a string of digits, [None] if another byte
    occurs. *)
Fixpoint digits_value (acc : Z) (s : string) : option Z :=
  match s with
  | EmptyString => Some acc
  | String ch rest =>
      if byte_in "0" "9" ch
      then digits_value (acc * 10 + (byte_val ch - byte_val "0")) rest
      else None
  end.

(** [strconv.Atoi]: an optional sign and at least one decimal digit,
    the value within [int]; everything else is an error ([None]). *)
Definition strconv_Atoi (s : string) : option Z :=
  let '(negative, digits) :=
    match s with
    | String sign rest =>
        if Ascii.eqb sign "-" then (true, rest)
        else if Ascii.eqb sign "+" then (false, rest)
        else (false, s)
    | EmptyString => (false, s)
    end in
  match digits with
  | EmptyString => None
  | _ =>
      match digits_value 0 digits with
      | None => None
      | Some n =>
          let value := if negative then - n else n in
          if (- 2 ^ 63 <=? value) && (value <=? 2 ^ 63 - 1)
          then Some value else None
      end
  end.

(** [strconv.ParseBool]. *)
Definition strconv_ParseBool (str : string) : option bool :=
  if existsb (String.eqb str) ["1"; "t"; "T"; "true"; "TRUE"; "True"]
  then Some true
  else if existsb (String.eqb str) ["0"; "f"; "F"; "false"; "FALSE"; "False"]
  then Some false
  else None.

(** [func getEnv(key, defaultValue string) string]. *)
Definition getEnv (env : gmap string string) (key defaultValue : string) : string :=
  let value := os_Getenv env key in
  if negb (String.eqb value "") then value else defaultValue.

(** [func getEnvAsInt(key string, defaultValue int) int]. *)
Definition getEnvAsInt (env : gmap string string) (key : string)
    (defaultValue : Z) : Z :=
  let valueStr := os_Getenv env key in
  if String.eqb valueStr "" then defaultValue
  else match strconv_Atoi valueStr with
       | Some value => value
       | None => defaultValue
       end.

(** [func getEnvAsBool(key string, defaultValue bool) bool]. *)
Definition getEnvAsBool (env : gmap string string) (key : string)
    (defaultValue : bool) : bool :=
  let valueStr := os_Getenv env key in
  if String.eqb valueStr "" then defaultValue
  else match strconv_ParseBool valueStr with
       | Some value => value
       | None => defaultValue
       end.

(** A product of [time.Duration]s, which wraps around in [int64]. *)
Definition Duration_mul (a b : Z) : Z := (a * b + 2 ^ 63) mod 2 ^ 64 - 2 ^ 63.

(** [time.Second]. *)
Definition Second : Z := 10 ^ 9.

(** [func LoadConfig() ( *Config, error)], the error being its text. *)
Definition LoadConfig (env : gmap string string) : Config + string :=
  let cfg :=
    {| Environment := getEnv env "ENVIRONMENT" "development";
       ServerPort := getEnv env "SERVER_PORT" "8081";
       DBHost := getEnv env "DB_HOST" "localhost";
       DBPort := getEnv env "DB_PORT" "5432";
       DBUser := getEnv env "DB_USER" "postgres";
       DBPassword := getEnv env "DB_PASSWORD" "";
       DBName := getEnv env "DB_NAME" "urlshortener";
       DBSSLMode := getEnv env "DB_SSL_MODE" "disable";
       RedisAddr := getEnv env "REDIS_ADDR" "localhost:6379";
       RedisPassword := getEnv env "REDIS_PASSWORD" "";
       RedisDB := getEnvAsInt env "REDIS_DB" 0;
       CacheTTL := Duration_mul (getEnvAsInt env "CACHE_TTL_SECONDS" 3600) Second;
       BaseURL := getEnv env "BASE_URL" "http://localhost:8081";
       ShortCodeLength := getEnvAsInt env "SHORT_CODE_LENGTH" 7;
       RateLimitPerMinute := getEnvAsInt env "RATE_LIMIT_PER_MINUTE" 60;
       URLExpirationDays := getEnvAsInt env "URL_EXPIRATION_DAYS" 0;
       EnableAuthentication := getEnvAsBool env "ENABLE_AUTHENTICATION" false;
       APIKey := getEnv env "API_KEY" "" |} in
  match Validate cfg with
  | Some err => inr ("configuration validation failed: " ++ err)
  | None => inl cfg
  end.

(** What [NewURLService] reads of a configuration. *)
Definition for_service (c : Config) : service.Config :=
  {| service.BaseURL := BaseURL c;
     service.ShortCodeLength := ShortCodeLength c;
     service.CacheTTL := CacheTTL c;
     service.URLExpirationDays := URLExpirationDays c |}.

End config.

(** ** Package [handler]: the HTTP face of the service *)

Module handler.
Import gostr domain service.

(** What a handler writes with [c.JSON]. *)
Inductive Body : Type :=
| ErrorBody (e : ErrorResponse)
| CreatedBody (response : CreateURLResponse)
| URLBody (url : URL)
| DeletedBody (code : string).

(** What becomes of a request: a JSON answer, a redirect, or, in a
    middleware, the call of the next handler. *)
Inductive Outcome : Type :=
| JSON (status : Z) (body : Body)
| Redirect (status : Z) (location : string)
| Next.

(** The status that the client sees; a request handed on has none yet. *)
Definition status_of (o : Outcome) : option Z :=
  match o with
  | JSON status _ => Some status
  | Redirect status _ => Some status
  | Next => None
  end.

(** [func (h *URLHandler) handleError(c, err)].  [errors.As] finds an
    [*AppError] exactly when [err] is one: nothing else wraps. *)
Definition handleError (err : error) : Outcome :=
  match err with
  | AppError inner message statusCode internal =>
      if internal then
        JSON statusCode
          (ErrorBody {| err_Error := "internal_error";
                        err_Message := "An internal error occurred";
                        err_Code := statusCode |})
      else
        JSON statusCode
          (ErrorBody {| err_Error := "client_error";
                        err_Message := message;
                        err_Code := statusCode |})
  | _ =>
      if errors_Is err ErrURLNotFound then
        JSON 404 (ErrorBody {| err_Error := "not_found";
                               err_Message := "The requested URL was not found";
                               err_Code := 404 |})
      else if errors_Is err ErrURLExpired then
        JSON 410 (ErrorBody {| err_Error := "url_expired";
                               err_Message :=
                                 "This URL has expired and is no longer available";
                               err_Code := 410 |})
      else if errors_Is err ErrShortCodeTaken then
        JSON 409 (ErrorBody {| err_Error := "short_code_taken";
                               err_Message := "This short code is already in use";
                               err_Code := 409 |})
      else if errors_Is err ErrInvalidURL then
        JSON 400 (ErrorBody {| err_Error := "invalid_url";
                               err_Message := "The provided URL is invalid";
                               err_Code := 400 |})
      else if errors_Is err ErrRateLimitExceeded then
        JSON 429 (ErrorBody {| err_Error := "rate_limit_exceeded";
                               err_Message :=
                                 "Too many requests, please try again later";
                               err_Code := 429 |})
      else
        JSON 500 (ErrorBody {| err_Error := "internal_error";
                               err_Message := "An unexpected error occurred";
                               err_Code := 500 |})
  end.

(** The answer to a request without a short code. *)
Definition short_code_required : Outcome :=
  JSON 400 (ErrorBody {| err_Error := "invalid_short_code";
                         err_Message := "Short code is required";
                         err_Code := 400 |}).

(** What [c.ShouldBindJSON(&req)] makes of the request body: the
    request, or the text of gin's error. *)
Inductive Binding : Type :=
| Bound (req : CreateURLRequest)
| BindError (text : string).

Section Handler.

Context (ValidateURL : string -> option validator.ValidationError)
        (NormalizeURL : string -> string)
        (rand_Reader : shortener.entropy).

(** [func (h *URLHandler) ShortenURL(c *gin.Context)]. *)
Definition ShortenURL (s : urlService) (now : Time) (body : Binding)
    (clientIP : string) (w : World) : Outcome * World :=
  match body with
  | BindError text =>
      (JSON 400 (ErrorBody {| err_Error := "invalid_request";
                              err_Message := "Invalid request body: " ++ text;
                              err_Code := 400 |}), w)
  | Bound req =>
      match service.ShortenURL ValidateURL NormalizeURL rand_Reader
              s now req clientIP w with
      | (Fail err, w) => (handleError err, w)
      | (Ok response, w) => (JSON 201 (CreatedBody response), w)
      end
  end.

(** [func (h *URLHandler) RedirectURL(c *gin.Context)]. *)
Definition RedirectURL (s : urlService) (now : Time) (shortCode : string)
    (w : World) : Outcome * World :=
  if String.eqb shortCode "" then (short_code_required, w)
  else match service.GetOriginalURL s now shortCode w with
       | (Fail err, w) => (handleError err, w)
       | (Ok originalURL, w) => (Redirect 301 originalURL, w)
       end.

(** [func (h *URLHandler) GetURLInfo(c *gin.Context)]. *)
Definition GetURLInfo (s : urlService) (shortCode : string) (w : World)
  : Outcome :=
  if String.eqb shortCode "" then short_code_required
  else match service.GetURLInfo s shortCode w with
       | Fail err => handleError err
       | Ok url => JSON 200 (URLBody url)
       end.

(** [func (h *URLHandler) DeleteURL(c *gin.Context)]. *)
Definition DeleteURL (s : urlService) (now : Time) (shortCode : string)
    (w : World) : Outcome * World :=
  if String.eqb shortCode "" then (short_code_required, w)
  else match service.DeleteURL s now shortCode w with
       | (Some err, w) => (handleError err, w)
       | (None, w) => (JSON 200 (DeletedBody shortCode), w)
       end.

End Handler.

(** [func AuthMiddleware(cfg *config.Config) gin.HandlerFunc], given the
    header [X-API-Key] and the query parameter [api_key], each empty when
    absent. *)
Definition AuthMiddleware (cfg : config.Config) (header query : string)
  : Outcome :=
  if negb (config.EnableAuthentication cfg) then Next
  else
    let apiKey := if String.eqb header "" then query else header in
    if negb (String.eqb apiKey (config.APIKey cfg)) then
      JSON 401 (ErrorBody {| err_Error := "unauthorized";
                             err_Message := "Valid API key required";
                             err_Code := 401 |})
    else Next.

End handler.

(** ** The engine as a whole: calls and background work in any order *)

Module engine.
Import gostr domain service.

(** What can happen to the world: the three operations that change it,
    a spawned click accounting getting to run, the cleanup job's sweep,
    and the database or the cache becoming reachable or unreachable. *)
Inductive event : Type :=
| Shorten (now : Time) (req : CreateURLRequest) (clientIP : string)
| Resolve (now : Time) (shortCode : string)
| Remove (now : Time) (shortCode : string)
| Account (now : Time)
| Sweep (now : Time)
| Connectivity (database cache : bool).

(** The database, reachable or not. *)
Definition db_connectivity (db : postgres.DB) (up : bool) : postgres.DB :=
  {| postgres.rows := postgres.rows db; postgres.next_id := postgres.next_id db;
     postgres.TranslateError := postgres.TranslateError db;
     postgres.reachable := up |}.

(** The cache, reachable or not. *)
Definition cache_connectivity (c : cache.Redis) (up : bool) : cache.Redis :=
  {| cache.keyspace := cache.keyspace c; cache.reachable := up |}.

Section Engine.

Context (ValidateURL : string -> option validator.ValidationError)
        (NormalizeURL : string -> string)
        (rand_Reader : shortener.entropy).

(** The world after one event. *)
Definition step (s : urlService) (w : World) (e : event) : World :=
  match e with
  | Shorten now req clientIP =>
      snd (ShortenURL ValidateURL NormalizeURL rand_Reader s now req clientIP w)
  | Resolve now shortCode => snd (GetOriginalURL s now shortCode w)
  | Remove now shortCode => snd (DeleteURL s now shortCode w)
  | Account now => run_spawned now w
  | Sweep now => with_repo w (snd (postgres.DeleteExpired (repo w) now))
  | Connectivity database cache_up =>
      {| repo := db_connectivity (repo w) database;
         cache := option_map (fun c => cache_connectivity c cache_up) (cache w);
         entropy_pos := entropy_pos w; spawned := spawned w |}
  end.

(** The world after a sequence of events. *)
Definition run (s : urlService) (w : World) (events : list event) : World :=
  fold_left (step s) events w.

End Engine.

(** The table keeps what the schema declares: [short_code] is unique
    over all rows and fits [VARCHAR(12)], the ids ascend in the order of
    the rows and lie below the sequence. *)
Definition well_kept (db : postgres.DB) : Prop :=
  NoDup (map ShortCode (postgres.rows db)) /\
  Forall (fun u => len (ShortCode u) <= 12 /\ ID u < postgres.next_id db)
    (postgres.rows db) /\
  (forall (i j : nat) (u v : URL),
     postgres.rows db !! i = Some u -> postgres.rows db !! j = Some v ->
     (i < j)%nat -> ID u < ID v).

(** A row and what has become of it later: what identifies it is
    fixed, the clicks have not gone down, and it has not come back to
    life. *)
Definition evolves (u u' : URL) : Prop :=
  ID u' = ID u /\ ShortCode u' = ShortCode u /\
  OriginalURL u' = OriginalURL u /\ CreatedAt u' = CreatedAt u /\
  ExpiresAt u' = ExpiresAt u /\ CreatorIP u' = CreatorIP u /\
  CustomAlias u' = CustomAlias u /\
  ClickCount u <= ClickCount u' /\
  (IsActive u = false -> IsActive u' = false).

(** The table [later] continues the table [earlier]: every row of
    [earlier] is still there, in place and evolved, and new rows only
    come behind. *)
Definition continues (earlier later : list URL) : Prop :=
  exists kept added,
    later = (kept ++ added)%list /\ Forall2 evolves earlier kept.

(** The clicks that the table counts for a code: those of its first
    active row. *)
Definition counted (db : postgres.DB) (shortCode : string) : Z :=
  match List.find (postgres.active_code shortCode) (postgres.rows db) with
  | Some u => ClickCount u
  | None => 0
  end.

(** The clicks of a code that wait in spawned goroutines. *)
Definition pending (w : World) (shortCode : string) : Z :=
  Z.of_nat (List.length (List.filter (String.eqb shortCode) (spawned w))).

(** What one statement of the repository can do to the table: update
    rows in place, each one evolving, or append one row under a code that
    fits the column and that no row holds, with the next id of the
    sequence. *)
Definition advances (db db' : postgres.DB) : Prop :=
  (exists change : URL -> URL,
     postgres.rows db' = map change (postgres.rows db) /\
     postgres.next_id db' = postgres.next_id db /\
     forall u, evolves u (change u))
  \/ (exists row : URL,
        postgres.rows db' = (postgres.rows db ++ [row])%list /\
        postgres.next_id db' = postgres.next_id db + 1 /\
        ID row = postgres.next_id db /\
        len (ShortCode row) <= 12 /\
        forall u, In u (postgres.rows db) -> ShortCode u <> ShortCode row).

End engine.

(** ** The vocabulary of the statements *)

Module spec.
Import gostr domain postgres service.

(** The spec's words for the length of a generated code: the configured
    length clamped into [[4, 12]]. *)
Definition clamped_length (n : Z) : Z := Z.max 4 (Z.min 12 n).

(** The target has no live mapping: every active row that points to it
    has expired.  Deduplication then finds nothing to return. *)
Definition no_live_mapping (db : DB) (now : Time) (target : string) : Prop :=
  forall u, In u (rows db) -> active_target target u = true ->
            IsExpired u now = true.

(** The [i]-th candidate (from 0) that [generateUniqueShortCode] draws
    when the entropy source stands at position [k]. *)
Definition candidate (s : urlService) (rand_Reader : shortener.entropy)
    (k i : nat) : string :=
  fst (shortener.Generate (generator s) rand_Reader
         (k + i * Z.to_nat (shortener.length (generator s)))).

(** The error of [generateUniqueShortCode] after its last attempt, as
    [ShortenURL] returns it. *)
Definition generation_exhausted : error :=
  NewInternalError
    (Errorf "failed to generate unique short code after 5 attempts").

(** The error of [ShortenURL] for a custom alias that fails
    [ValidateShortCode]. *)
Definition alias_rejected : error :=
  NewValidationError "Custom alias contains invalid characters".

End spec.

(** ** URLs with a scheme and a host *)

Module url_form.
Import gostr.

(** The components of [scheme://host/path?query#fragment]. *)
Record parts := {
  scheme : string;
  host : string;
  path : string;
  query : option string;
  fragment : option string
}.

Definition query_text (query : option string) : string :=
  match query with
  | Some q => "?" ++ q
  | None => EmptyString
  end.

Definition fragment_text (fragment : option string) : string :=
  match fragment with
  | Some f => "#" ++ f
  | None => EmptyString
  end.

(** The text of an optional component, empty when there is none. *)
Definition text_of (o : option string) : string :=
  match o with Some s => s | None => EmptyString end.

(** A query that is there and empty: the URL ends in a bare [?]. *)
Definition is_empty_query (o : option string) : bool :=
  match o with Some EmptyString => true | _ => false end.

(** The URL as text. *)
Definition render (p : parts) : string :=
  scheme p ++ "://" ++ host p ++ path p
  ++ query_text (query p) ++ fragment_text (fragment p).

Definition letter (c : ascii) : bool := byte_in "a" "z" c || byte_in "A" "Z" c.

Definition scheme_byte (c : ascii) : bool :=
  letter c || byte_in "0" "9" c || contains_byte "+-." c.

Definition host_byte (c : ascii) : bool :=
  net_url.plain_byte c && negb (contains_byte "/?#" c).

Definition path_byte (c : ascii) : bool :=
  net_url.plain_byte c && negb (contains_byte "?#" c).

Definition query_byte (c : ascii) : bool :=
  net_url.plain_byte c && negb (Ascii.eqb c "#").

Definition all_bytes_of (p : ascii -> bool) (o : option string) : bool :=
  match o with
  | Some s => all_bytes p s
  | None => true
  end.

(** The components are those of a URL made of plain bytes: a scheme
    that starts with a letter, a host that is not empty and whose port,
    if any, is decimal, a path that is empty or starts with a slash. *)
Definition well_formed (p : parts) : bool :=
  match scheme p with
  | String c rest => letter c && all_bytes scheme_byte rest
  | EmptyString => false
  end
  && negb (String.eqb (host p) EmptyString)
  && all_bytes host_byte (host p)
  && match net_url.parseHost (host p) with Some _ => true | None => false end
  && (String.eqb (path p) EmptyString || HasPrefix (path p) "/")
  && all_bytes path_byte (path p)
  && all_bytes_of query_byte (query p)
  && all_bytes_of query_byte (fragment p).

(** Does the path end in two slashes. *)
Fixpoint ends_in_two_slashes (path : string) : bool :=
  match path with
  | String a ((String b rest) as tail) =>
      match rest with
      | EmptyString => Ascii.eqb a "/" && Ascii.eqb b "/"
      | _ => ends_in_two_slashes tail
      end
  | _ => false
  end.

(** The components after normalization: scheme and host in lower case,
    one trailing slash of the path removed, an empty fragment dropped. *)
Definition normal (p : parts) : parts :=
  {| scheme := ToLower (scheme p);
     host := ToLower (host p);
     path := TrimSuffix_slash (path p);
     query := query p;
     fragment := match fragment p with
                 | Some EmptyString => None
                 | other => other
                 end |}.

End url_form.

(** ** Sample data *)

Module sample.
Import gostr domain postgres service.

(** A configuration like that of the unit tests, without a default
    expiry. *)
Definition config : Config :=
  {| BaseURL := "https://short.url"; ShortCodeLength := 6;
     CacheTTL := 3600 * 10 ^ 9; URLExpirationDays := 0 |}.

Definition svc : urlService := NewURLService config.

(** An entropy source that never fails: its [k]-th read yields [k], so
    the codes drawn are ["012345"], ["6789AB"], ["CDEFGH"], ... *)
Definition counting : shortener.entropy := fun k => Some (Z.of_nat k).

(** An inactive row that holds the code ["promo"]. *)
Definition retired_row : URL :=
  {| ID := 1; ShortCode := "promo"; OriginalURL := "https://example.com/old";
     CreatedAt := 1000; UpdatedAt := 2000; ExpiresAt := None;
     ClickCount := 7; LastAccessAt := Some 1500; CreatorIP := "203.0.113.9";
     IsActive := false; CustomAlias := true |}.

Definition retired_db (translate : bool) : DB :=
  {| rows := [retired_row]; next_id := 2;
     TranslateError := translate; reachable := true |}.

Definition world_of (db : DB) : World :=
  {| repo := db; cache := None; entropy_pos := 0; spawned := [] |}.

(** [ShortenURL] over the model of [validator] and that entropy. *)
Definition shorten : urlService -> Time -> CreateURLRequest -> string ->
                     World -> Result CreateURLResponse * World :=
  ShortenURL validator.ValidateURL validator.NormalizeURL counting.

(** A request for the code ["promo"]. *)
Definition promo_request : CreateURLRequest :=
  {| req_URL := "https://example.com/new"; req_CustomAlias := "promo";
     req_ExpiryDays := 0 |}.

(** An empty table, configured as [cmd/server] configures gorm. *)
Definition empty_db : DB :=
  {| rows := []; next_id := 1; TranslateError := false; reachable := true |}.

Definition client : string := "198.51.100.7".

(** A request to shorten a page, without a custom code. *)
Definition page_request (days : Z) : CreateURLRequest :=
  {| req_URL := "https://example.com/page"; req_CustomAlias := EmptyString;
     req_ExpiryDays := days |}.

(** A request for the custom code ["my-link"]. *)
Definition link_request : CreateURLRequest :=
  {| req_URL := "https://example.com/custom"; req_CustomAlias := "my-link";
     req_ExpiryDays := 0 |}.

(** An active row that holds [code] and points elsewhere. *)
Definition taken_row (id : Z) (code : string) : URL :=
  {| ID := id; ShortCode := code; OriginalURL := "https://example.com/other";
     CreatedAt := 1000; UpdatedAt := 1000; ExpiresAt := None;
     ClickCount := 0; LastAccessAt := None; CreatorIP := "203.0.113.9";
     IsActive := true; CustomAlias := false |}.

(** The first candidate of [counting] is taken. *)
Definition one_taken_db : DB :=
  {| rows := [taken_row 1 "012345"]; next_id := 2;
     TranslateError := false; reachable := true |}.

(** The first five candidates of [counting] are taken. *)
Definition five_taken_db : DB :=
  {| rows := [taken_row 1 "012345"; taken_row 2 "6789AB"; taken_row 3 "CDEFGH";
              taken_row 4 "IJKLMN"; taken_row 5 "OPQRST"];
     next_id := 6; TranslateError := false; reachable := true |}.

(** An active row whose expiry, at instant 1000, has passed by 2000. *)
Definition expired_row : URL :=
  {| ID := 1; ShortCode := "sale24"; OriginalURL := "https://example.com/sale";
     CreatedAt := 100; UpdatedAt := 100; ExpiresAt := Some 1000;
     ClickCount := 3; LastAccessAt := Some 900; CreatorIP := "203.0.113.9";
     IsActive := true; CustomAlias := true |}.

(** That row behind a reachable, empty cache. *)
Definition expired_world : World :=
  {| repo := {| rows := [expired_row]; next_id := 2;
                TranslateError := false; reachable := true |};
     cache := Some {| cache.keyspace := ∅; cache.reachable := true |};
     entropy_pos := 0; spawned := [] |}.

(** A URL in upper case with a trailing slash and a query. *)
Definition shop_url : url_form.parts :=
  {| url_form.scheme := "HTTP"; url_form.host := "Shop.Example.com:8080";
     url_form.path := "/Sale/"; url_form.query := Some "item=42";
     url_form.fragment := None |}.

(** Two days after instant 1000. *)
Definition two_days_later : Time := 1000 + 2 * day.

(** A page shortened at instant 1000 for one day ... *)
Definition stale_row : URL :=
  {| ID := 1; ShortCode := "012345"; OriginalURL := "https://example.com/page";
     CreatedAt := 1000; UpdatedAt := 1000; ExpiresAt := Some (1000 + day);
     ClickCount := 0; LastAccessAt := None; CreatorIP := client;
     IsActive := true; CustomAlias := false |}.

(** ... and shortened again two days later, for good. *)
Definition live_row : URL :=
  {| ID := 2; ShortCode := "6789AB"; OriginalURL := "https://example.com/page";
     CreatedAt := two_days_later; UpdatedAt := two_days_later; ExpiresAt := None;
     ClickCount := 0; LastAccessAt := None; CreatorIP := client;
     IsActive := true; CustomAlias := false |}.

(** The world after those two requests: the expired row has not been
    swept yet and comes first. *)
Definition shadowed_world : World :=
  {| repo := {| rows := [stale_row; live_row]; next_id := 3;
                TranslateError := false; reachable := true |};
     cache := None; entropy_pos := 12; spawned := [] |}.

(** The answer to the first request for that page, made at instant
    1000 under [counting]. *)
Definition page_response : CreateURLResponse :=
  {| resp_ShortCode := "012345";
     resp_ShortURL := "https://short.url/012345";
     resp_OriginalURL := "https://example.com/page";
     resp_CreatedAt := 1000; resp_ExpiresAt := None |}.

(** A world in which one click of ["012345"] waits for its goroutine. *)
Definition pending_world : World :=
  {| repo := one_taken_db; cache := None; entropy_pos := 0;
     spawned := ["012345"] |}.

(** A reachable, empty cache. *)
Definition empty_cache : cache.Redis :=
  {| cache.keyspace := ∅; cache.reachable := true |}.

(** What [LoadConfig] makes of an environment in which nothing is set. *)
Definition default_config : config.Config :=
  {| config.Environment := "development"; config.ServerPort := "8081";
     config.DBHost := "localhost"; config.DBPort := "5432";
     config.DBUser := "postgres"; config.DBPassword := EmptyString;
     config.DBName := "urlshortener"; config.DBSSLMode := "disable";
     config.RedisAddr := "localhost:6379"; config.RedisPassword := EmptyString;
     config.RedisDB := 0; config.CacheTTL := 3600 * 10 ^ 9;
     config.BaseURL := "http://localhost:8081"; config.ShortCodeLength := 7;
     config.RateLimitPerMinute := 60; config.URLExpirationDays := 0;
     config.EnableAuthentication := false; config.APIKey := EmptyString |}.

(** The same with the API key check switched on. *)
Definition guarded_config : config.Config :=
  {| config.Environment := "development"; config.ServerPort := "8081";
     config.DBHost := "localhost"; config.DBPort := "5432";
     config.DBUser := "postgres"; config.DBPassword := EmptyString;
     config.DBName := "urlshortener"; config.DBSSLMode := "disable";
     config.RedisAddr := "localhost:6379"; config.RedisPassword := EmptyString;
     config.RedisDB := 0; config.CacheTTL := 3600 * 10 ^ 9;
     config.BaseURL := "http://localhost:8081"; config.ShortCodeLength := 7;
     config.RateLimitPerMinute := 60; config.URLExpirationDays := 0;
     config.EnableAuthentication := true; config.APIKey := "s3cret" |}.

End sample.

(** * Properties *)

(** ** Strings *)

Section StringFacts.
Import gostr.

Lemma append_String (x : ascii) (a b : string) :
  String x a ++ b = String x (a ++ b).
Proof. reflexivity. Qed.

Lemma append_assoc (a b c : string) : (a ++ b) ++ c = a ++ (b ++ c).
Proof.
  induction a as [|x a IH]; [reflexivity|].
  rewrite !append_String. now rewrite IH.
Qed.

Lemma append_empty_r (a : string) : a ++ "" = a.
Proof.
  induction a as [|x a IH]; [reflexivity|].
  rewrite append_String. now rewrite IH.
Qed.

Lemma all_bytes_app (p : ascii -> bool) (a b : string) :
  all_bytes p (a ++ b) = all_bytes p a && all_bytes p b.
Proof.
  induction a as [|x a IH]; [reflexivity|].
  rewrite append_String. cbn [all_bytes]. now rewrite IH, andb_assoc.
Qed.

Lemma len_append (a b : string) : len (a ++ b) = len a + len b.
Proof.
  unfold len. induction a as [|x a IH]; [change ("" ++ b) with b; cbn; lia|].
  rewrite append_String. cbn [String.length]. lia.
Qed.

Lemma len_nonneg (a : string) : 0 <= len a.
Proof. unfold len. lia. Qed.

End StringFacts.

(** ** The code generator *)

Section GeneratorFacts.
Import gostr shortener spec.

Lemma len_base62Chars : len base62Chars = 62.
Proof. reflexivity. Qed.

(** Every index below 62 is in range, reads a symbol of the alphabet,
    and [Decode] maps that symbol back to the index. *)
Lemma base62_table (r : Z) :
  0 <= r < 62 ->
  String.get (Z.to_nat r) base62Chars = Some (index base62Chars r) /\
  contains_byte base62Chars (index base62Chars r) = true /\
  Decode_value (index base62Chars r) = Some r.
Proof.
  intros Hr.
  assert (Hall : forallb (fun n =>
            let r := Z.of_nat n in
            match String.get n base62Chars with
            | Some c => Ascii.eqb c (index base62Chars r)
            | None => false
            end
            && contains_byte base62Chars (index base62Chars r)
            && match Decode_value (index base62Chars r) with
               | Some v => v =? r
               | None => false
               end) (seq 0 62) = true) by (vm_compute; reflexivity).
  rewrite forallb_forall in Hall.
  specialize (Hall (Z.to_nat r)).
  rewrite in_seq, Z2Nat.id in Hall by lia.
  assert (Hin : (0 <= Z.to_nat r < 0 + 62)%nat) by lia.
  apply Hall in Hin. clear Hall.
  apply andb_prop in Hin as [Hin Hdec]. apply andb_prop in Hin as [Hget Hmem].
  repeat split.
  - destruct (String.get (Z.to_nat r) base62Chars) as [c|]; [|discriminate].
    apply Ascii.eqb_eq in Hget. now subst.
  - exact Hmem.
  - destruct (Decode_value (index base62Chars r)) as [v|]; [|discriminate].
    apply Z.eqb_eq in Hdec. now subst.
Qed.

Lemma index_in_range (r : Z) :
  0 <= r < len base62Chars ->
  String.get (Z.to_nat r) base62Chars = Some (index base62Chars r).
Proof. rewrite len_base62Chars. intros Hr. now apply base62_table. Qed.

(** *** [Generate] *)

Lemma Generate_loop_length src k i todo :
  String.length (Generate_loop src k i todo) = todo.
Proof.
  revert k i. induction todo as [|todo IH]; intros k i; simpl; [reflexivity|].
  now rewrite IH.
Qed.

Lemma Generate_loop_alphabet src k i todo :
  all_bytes (contains_byte base62Chars) (Generate_loop src k i todo) = true.
Proof.
  revert k i. induction todo as [|todo IH]; intros k i; [reflexivity|].
  cbn [Generate_loop all_bytes]. rewrite IH, andb_true_r.
  apply base62_table. rewrite len_base62Chars. unfold rand_Int.
  destruct (src k); apply Z.mod_pos_bound; lia.
Qed.

(** What [NewCodeGenerator] makes of a requested length. *)
Lemma NewCodeGenerator_length (n : Z) :
  length (NewCodeGenerator n) = if n <? 4 then 6 else if n >? 12 then 12 else n.
Proof.
  unfold NewCodeGenerator. cbn [length].
  destruct (n <? 4) eqn:H4; [reflexivity|].
  reflexivity.
Qed.

Lemma NewCodeGenerator_bounds (n : Z) : 4 <= length (NewCodeGenerator n) <= 12.
Proof.
  rewrite NewCodeGenerator_length.
  destruct (n <? 4) eqn:H4; [lia|].
  destruct (n >? 12) eqn:H12; lia.
Qed.

Lemma Generate_len (n : Z) (src : entropy) (k : nat) :
  len (fst (Generate (NewCodeGenerator n) src k)) = length (NewCodeGenerator n).
Proof.
  unfold Generate, len. cbn [fst]. rewrite Generate_loop_length.
  apply Z2Nat.id. pose proof (NewCodeGenerator_bounds n). lia.
Qed.

(** C5, as stated, fails: a configured length of 3 clamps to 4, and the
    generator built for it produces codes of length 6. *)
Lemma Generate_length_not_clamped :
  clamped_length 3 = 4 /\
  fst (Generate (NewCodeGenerator 3) (fun _ => None) 0) = "012345" /\
  len (fst (Generate (NewCodeGenerator 3) (fun _ => None) 0)) <> clamped_length 3.
Proof.
  split; [reflexivity|]. split; [reflexivity|]. vm_compute. discriminate.
Qed.

(** C5 (amended): for every configured length [n], every string that
    [Generate] returns is made of symbols of the 62-symbol alphabet only
    and has length [n] when [4 <= n <= 12], length 12 when [n > 12], and
    length 6 (not 4) when [n < 4]. *)
Theorem Generate_length_alphabet (n : Z) (src : entropy) (k : nat) :
  let code := fst (Generate (NewCodeGenerator n) src k) in
  len code = (if n <? 4 then 6 else if n >? 12 then 12 else n) /\
  all_bytes (contains_byte base62Chars) code = true.
Proof.
  cbn zeta. split.
  - rewrite Generate_len. apply NewCodeGenerator_length.
  - apply Generate_loop_alphabet.
Qed.

(** *** [GenerateFromID] and [Decode] *)

(** The digit loop followed by [Decode]: decoding the digits of [num]
    in front of [rest], from 0, is decoding [rest] from [num]. *)
Lemma Decode_loop_digits (num : Z) (rest : string) :
  0 <= num < uint_modulus ->
  Decode_loop (GenerateFromID_digits num rest) 0 = Decode_loop rest num.
Proof.
  funelim (GenerateFromID_digits num rest); intros Hnum.
  - match goal with IH : _ -> Decode_loop _ 0 = _ |- _ => rewrite IH end.
    + cbn [Decode_loop].
      destruct (base62_table (num mod 62)) as (_ & _ & ->);
        [apply Z.mod_pos_bound; lia|].
      f_equal. rewrite (Z.mul_comm _ 62), <- Z.div_mod by lia.
      apply Z.mod_small. exact Hnum.
    + split; [apply Z.div_pos; lia|].
      apply Z.le_lt_trans with num; [|lia].
      apply Z.div_le_upper_bound; lia.
  - f_equal. lia.
Qed.

Lemma Decode_loop_pad (n : Z) (s : string) :
  Decode_loop (GenerateFromID_pad n s) 0 = Decode_loop s 0.
Proof.
  funelim (GenerateFromID_pad n s).
  - match goal with IH : Decode_loop _ 0 = _ |- _ => rewrite IH end.
    reflexivity.
  - reflexivity.
Qed.

Lemma Decode_GenerateFromID_id (g : CodeGenerator) (id : Z) :
  0 <= id < uint_modulus -> Decode g (GenerateFromID g id) = id.
Proof.
  intros Hid. unfold Decode, GenerateFromID.
  destruct (id =? 0) eqn:H0.
  - apply Z.eqb_eq in H0. subst. reflexivity.
  - cbn zeta. now rewrite Decode_loop_pad, Decode_loop_digits.
Qed.

(** C8: for every [id] of type [uint], [Decode (GenerateFromID id) = id];
    hence two ids with the same code are equal. *)
Theorem Decode_inverts_GenerateFromID (g : CodeGenerator) (id id' : Z) :
  0 <= id < uint_modulus ->
  0 <= id' < uint_modulus ->
  Decode g (GenerateFromID g id) = id /\
  (GenerateFromID g id = GenerateFromID g id' -> id = id').
Proof.
  intros Hid Hid'. split.
  - now apply Decode_GenerateFromID_id.
  - intros Heq.
    rewrite <- (Decode_GenerateFromID_id g id Hid).
    rewrite <- (Decode_GenerateFromID_id g id' Hid').
    now rewrite Heq.
Qed.

Lemma Decode_inverts_GenerateFromID_witness :
  Decode (NewCodeGenerator 6) (GenerateFromID (NewCodeGenerator 6) 3844) = 3844 /\
  (GenerateFromID (NewCodeGenerator 6) 3844 = GenerateFromID (NewCodeGenerator 6) 61 ->
   3844 = 61).
Proof.
  apply (Decode_inverts_GenerateFromID (NewCodeGenerator 6) 3844 61);
    unfold uint_modulus; lia.
Defined.

(** Padding: a result no longer than [n] is brought to length [n] by
    zero symbols put in front of it. *)
Lemma GenerateFromID_pad_spec (n : Z) (s : string) :
  len s <= n ->
  len (GenerateFromID_pad n s) = n /\
  exists zeros, all_bytes (Ascii.eqb "0") zeros = true /\
                GenerateFromID_pad n s = zeros ++ s.
Proof.
  funelim (GenerateFromID_pad n s); intros Hlen.
  - match goal with IH : ?P -> _ |- _ =>
      assert (HP : P) by (unfold len in *; cbn [String.length]; lia);
      destruct (IH HP) as (Hn & zeros & Hz & Hpad) end.
    + split; [exact Hn|].
      exists (zeros ++ "0"). split.
      * rewrite all_bytes_app, Hz. reflexivity.
      * rewrite Hpad, append_assoc. reflexivity.
  - split; [lia|]. exists "". split; reflexivity.
Qed.

(** For a positive id whose digits fit, the code is the digits padded
    with zero symbols to the configured length. *)
Lemma GenerateFromID_positive_padded (g : CodeGenerator) (id : Z) :
  0 < id ->
  len (GenerateFromID_digits id "") <= length g ->
  len (GenerateFromID g id) = length g /\
  exists zeros, all_bytes (Ascii.eqb "0") zeros = true /\
                GenerateFromID g id = zeros ++ GenerateFromID_digits id "".
Proof.
  intros Hid Hfit. unfold GenerateFromID.
  destruct (id =? 0) eqn:H0; [apply Z.eqb_eq in H0; lia|].
  cbn zeta. now apply GenerateFromID_pad_spec.
Qed.

(** The padding at work: id 1 at length 6. *)
Example GenerateFromID_one :
  GenerateFromID (NewCodeGenerator 6) 1 = "000001" /\
  GenerateFromID (NewCodeGenerator 6) 3844 = "000100".
Proof. split; reflexivity. Qed.

(** C9, at the id the code gets wrong: for every configured length,
    [GenerateFromID 0] is the one-symbol string ["0"], shorter than the
    configured length and not padded, because of the early return. *)
Theorem GenerateFromID_zero_not_padded (n : Z) :
  let g := NewCodeGenerator n in
  GenerateFromID g 0 = "0" /\
  len (GenerateFromID g 0) = 1 /\
  len (GenerateFromID g 0) < length g.
Proof.
  cbn zeta. pose proof (NewCodeGenerator_bounds n) as Hb.
  unfold GenerateFromID. cbn [Z.eqb].
  repeat split. change (len _) with 1. lia.
Qed.

End GeneratorFacts.

(** ** The repository *)

Section RepositoryFacts.
Import gostr domain postgres sample.

Lemma with_rows_same (db : DB) : with_rows db (rows db) = db.
Proof. now destruct db. Qed.

(** An [UPDATE] whose condition matches no row changes nothing and
    affects zero rows. *)
Lemma update_where_no_match (cond : URL -> bool) (change : URL -> URL)
    (table : list URL) :
  (forall u, In u table -> cond u = false) ->
  update_where cond change table = (table, 0).
Proof.
  intros Hnone. unfold update_where. f_equal.
  - induction table as [|u table IH]; [reflexivity|].
    cbn [map]. rewrite Hnone by now left.
    f_equal. apply IH. intros v Hv. apply Hnone. now right.
  - induction table as [|u table IH]; [reflexivity|].
    cbn [List.filter]. rewrite Hnone by now left.
    apply IH. intros v Hv. apply Hnone. now right.
Qed.

Lemma existsb_no_match {A} (cond : A -> bool) (l : list A) :
  (forall u, In u l -> cond u = false) -> existsb cond l = false.
Proof.
  intros Hnone. induction l as [|u l IH]; [reflexivity|].
  cbn [existsb]. rewrite Hnone by now left.
  apply IH. intros v Hv. apply Hnone. now right.
Qed.

Lemma existsb_no_match_iff {A} (cond : A -> bool) (l : list A) :
  existsb cond l = false <-> (forall u, In u l -> cond u = false).
Proof.
  split; [|apply existsb_no_match].
  intros Hnone u Hu. destruct (cond u) eqn:Hc; [|reflexivity].
  assert (existsb cond l = true) by (apply existsb_exists; eauto).
  congruence.
Qed.

Lemma filter_no_match {A} (cond : A -> bool) (l : list A) :
  (forall u, In u l -> cond u = false) -> List.filter cond l = [].
Proof.
  intros Hnone. induction l as [|u l IH]; [reflexivity|].
  cbn [List.filter]. rewrite Hnone by now left.
  apply IH. intros v Hv. apply Hnone. now right.
Qed.

Lemma filter_some_match {A} (cond : A -> bool) (l : list A) (u : A) :
  In u l -> cond u = true -> (0 < List.length (List.filter cond l))%nat.
Proof.
  intros Hin Hc. induction l as [|v l IH]; [destruct Hin|].
  cbn [List.filter]. destruct Hin as [->|Hin].
  - rewrite Hc. cbn. lia.
  - destruct (cond v); [cbn; lia|]. now apply IH.
Qed.

(** [Create] maintains the [UNIQUE] constraint on [short_code]: no two
    rows of the table, active or not, hold the same code. *)
Lemma Create_keeps_codes_unique (db : DB) (now : Time) (url : URL) :
  NoDup (map ShortCode (rows db)) ->
  NoDup (map ShortCode (rows (snd (Create db now url)))).
Proof.
  intros Hunique. unfold Create, gorm_Create.
  destruct (negb (reachable db)); [exact Hunique|].
  destruct ((len (ShortCode (stamp_created now url)) >? 12)
            || (len (CreatorIP (stamp_created now url)) >? 45));
    [exact Hunique|].
  destruct (existsb (has_code (ShortCode (stamp_created now url))) (rows db))
    eqn:Hdup.
  - destruct (TranslateError db); exact Hunique.
  - cbn [snd rows]. rewrite map_app. cbn [map inserted_row ShortCode].
    apply NoDup_app. repeat split.
    + exact Hunique.
    + intros code Hin Hnew. apply list_elem_of_In in Hin, Hnew.
      destruct Hnew as [<-|[]].
      apply in_map_iff in Hin as (u & Hcode & Hu).
      assert (Hno : has_code (ShortCode (stamp_created now url)) u = false).
      { apply (proj1 (existsb_no_match_iff _ _) Hdup u Hu). }
      unfold has_code in Hno. rewrite Hcode, String.eqb_refl in Hno.
      discriminate.
    + apply NoDup_singleton.
Qed.

(** The existence check sees active rows only. *)
Lemma ExistsByShortCode_false (db : DB) (shortCode : string) :
  reachable db = true ->
  (forall u, In u (rows db) -> active_code shortCode u = false) ->
  ExistsByShortCode db shortCode = Ok false.
Proof.
  intros Hup Hnone. unfold ExistsByShortCode. rewrite Hup. cbn [negb].
  now rewrite filter_no_match.
Qed.

Lemma ExistsByShortCode_true (db : DB) (shortCode : string) (u : URL) :
  reachable db = true ->
  In u (rows db) -> active_code shortCode u = true ->
  ExistsByShortCode db shortCode = Ok true.
Proof.
  intros Hup Hin Hact. unfold ExistsByShortCode. rewrite Hup. cbn [negb].
  pose proof (filter_some_match _ _ _ Hin Hact) as Hpos.
  f_equal. apply Z.gtb_lt. lia.
Qed.

(** A row that only lacks activity is still a row of the code. *)
Lemma inactive_owner_no_active (shortCode : string) (table : list URL) :
  (forall u, In u table -> has_code shortCode u = true -> IsActive u = false) ->
  forall u, In u table -> active_code shortCode u = false.
Proof.
  intros Hin u Hu. unfold active_code.
  destruct (has_code shortCode u) eqn:Hc; [|reflexivity].
  now rewrite (Hin u Hu Hc).
Qed.

(** C7, as stated, fails: on a code whose only row is inactive,
    [IncrementClickCount] returns [ErrURLNotFound], not success. *)
Lemma IncrementClickCount_inactive_is_error :
  (forall u, In u (rows (retired_db false)) ->
             has_code "promo" u = true -> IsActive u = false) /\
  fst (IncrementClickCount (retired_db false) 3000 "promo") <> None.
Proof.
  split.
  - intros u [<-|[]] _. reflexivity.
  - vm_compute. discriminate.
Qed.

(** C7 (amended): [IncrementClickCount] on a code that no active row
    holds updates no row: the table, the inactive record included, is
    left exactly as it was; but the call returns [ErrURLNotFound], not
    success. *)
Theorem IncrementClickCount_inactive_noop (db : DB) (now : Time)
    (shortCode : string) :
  reachable db = true ->
  (forall u, In u (rows db) -> has_code shortCode u = true -> IsActive u = false) ->
  IncrementClickCount db now shortCode = (Some ErrURLNotFound, db).
Proof.
  intros Hup Hinactive.
  pose proof (inactive_owner_no_active _ _ Hinactive) as Hnone.
  unfold IncrementClickCount. rewrite Hup. cbn [negb].
  rewrite existsb_no_match.
  - rewrite update_where_no_match by exact Hnone.
    cbn [Z.eqb]. now rewrite with_rows_same.
  - intros u Hu. now rewrite (Hnone u Hu).
Qed.

Lemma IncrementClickCount_inactive_noop_witness :
  IncrementClickCount (retired_db false) 3000 "promo"
  = (Some ErrURLNotFound, retired_db false).
Proof.
  apply (IncrementClickCount_inactive_noop (retired_db false) 3000 "promo").
  - reflexivity.
  - intros u [<-|[]] _. reflexivity.
Defined.

End RepositoryFacts.

(** ** The service *)

Section ServiceFacts.
Import gostr domain postgres service spec.

Context (ValidateURL : string -> option validator.ValidationError)
        (NormalizeURL : string -> string)
        (rand_Reader : shortener.entropy).

Lemma with_repo_same (w : World) : with_repo w (repo w) = w.
Proof. now destruct w. Qed.

Lemma cache_seed_repo (s : urlService) (w : World) (key value : string) :
  repo (cache_seed s w key value) = repo w.
Proof. unfold cache_seed. now destruct (cache w). Qed.

(** [First] among the rows that satisfy [cond], when there is one and
    all of them satisfy [good], returns a row that satisfies [good]. *)
Lemma gorm_First_all (db : DB) (cond good : URL -> bool) :
  reachable db = true ->
  (exists u, In u (rows db) /\ cond u = true) ->
  (forall u, In u (rows db) -> cond u = true -> good u = true) ->
  exists u, gorm_First db cond = inr u /\ In u (rows db) /\
            cond u = true /\ good u = true.
Proof.
  intros Hup (u0 & Hin0 & Hc0) Hall. unfold gorm_First. rewrite Hup. cbn [negb].
  destruct (List.find cond (rows db)) as [u|] eqn:Hfind.
  - apply find_some in Hfind as [Hin Hc]. exists u. auto.
  - pose proof (find_none _ _ Hfind u0 Hin0) as Hno. congruence.
Qed.

Lemma dedup_miss (s : urlService) (now : Time) (req : CreateURLRequest)
    (clientIP : string) (w : World) :
  ValidateURL (req_URL req) = None ->
  no_live_mapping (repo w) now (NormalizeURL (req_URL req)) ->
  ShortenURL ValidateURL NormalizeURL rand_Reader s now req clientIP w
  = ShortenURL_create rand_Reader s now req clientIP
      (NormalizeURL (req_URL req)) w.
Proof.
  intros Hvalid Hnone. unfold ShortenURL. rewrite Hvalid.
  cbn zeta. unfold FindByOriginalURL, gorm_First.
  destruct (reachable (repo w)); cbn [negb]; [|reflexivity].
  destruct (List.find _ (rows (repo w))) as [u|] eqn:Hfind; [|reflexivity].
  apply find_some in Hfind as [Hin Hact].
  now rewrite (Hnone u Hin Hact).
Qed.

(** Deduplication when it applies: if the first active record of the
    target is unexpired, the shorten returns it and changes nothing. *)
Lemma dedup_hit (s : urlService) (now : Time) (req : CreateURLRequest)
    (clientIP : string) (w : World) (existingURL : URL) :
  ValidateURL (req_URL req) = None ->
  FindByOriginalURL (repo w) (NormalizeURL (req_URL req)) = Ok existingURL ->
  IsExpired existingURL now = false ->
  ShortenURL ValidateURL NormalizeURL rand_Reader s now req clientIP w
  = (Ok (buildResponse s existingURL), w).
Proof.
  intros Hvalid Hfound Hlive. unfold ShortenURL.
  now rewrite Hvalid, Hfound, Hlive.
Qed.

(** A click handed to a goroutine for a code that no active row holds
    is dropped when the goroutine runs: the table stays as it was. *)
Lemma run_spawned_inactive (now : Time) (w : World) (shortCode : string)
    (pending : list string) :
  spawned w = shortCode :: pending ->
  reachable (repo w) = true ->
  (forall u, In u (rows (repo w)) -> has_code shortCode u = true ->
             IsActive u = false) ->
  repo (run_spawned now w) = repo w /\ spawned (run_spawned now w) = pending.
Proof.
  intros Hqueue Hup Hinactive. unfold run_spawned. rewrite Hqueue.
  pose proof (inactive_owner_no_active _ _ Hinactive) as Hnone.
  unfold IncrementClickCount. rewrite Hup. cbn [negb].
  rewrite existsb_no_match
    by (intros u Hu; now rewrite (Hnone u Hu)).
  rewrite update_where_no_match by exact Hnone.
  cbn [Z.eqb repo spawned]. now rewrite with_rows_same.
Qed.

(** *** Resolving an expired code *)

(** C2: when the cache misses and every active record stored under the
    code (there is one) has [expiresAt] strictly before [now], resolving
    fails with [ErrURLExpired], which is not [ErrURLNotFound], and leaves
    the cache, the table and everything else exactly as they were. *)
Theorem GetOriginalURL_expired (s : urlService) (now : Time)
    (shortCode : string) (w : World) :
  reachable (repo w) = true ->
  cache_hit w shortCode = None ->
  (exists u, In u (rows (repo w)) /\ active_code shortCode u = true) ->
  (forall u, In u (rows (repo w)) -> active_code shortCode u = true ->
             exists expiresAt, ExpiresAt u = Some expiresAt /\ expiresAt < now) ->
  GetOriginalURL s now shortCode w = (Fail ErrURLExpired, w) /\
  errors_Is ErrURLExpired ErrURLNotFound = false.
Proof.
  intros Hup Hmiss Hsome Hpast. split; [|reflexivity].
  unfold GetOriginalURL. rewrite Hmiss.
  destruct (gorm_First_all (repo w) (active_code shortCode)
              (fun u => IsExpired u now) Hup Hsome) as (u & Hfirst & _ & _ & Hexp).
  - intros u Hin Hact. destruct (Hpast u Hin Hact) as (t & Ht & Hlt).
    unfold IsExpired. rewrite Ht. apply Z.gtb_lt. exact Hlt.
  - unfold FindByShortCode. rewrite Hfirst. cbn beta in Hexp. now rewrite Hexp.
Qed.

(** *** A custom code that an inactive record holds *)


(** *** Collision retry *)

Lemma candidate_first (s : urlService) (k : nat) :
  shortener.Generate (generator s) rand_Reader k
  = (candidate s rand_Reader k 0,
     (k + Z.to_nat (shortener.length (generator s)))%nat).
Proof.
  unfold candidate. rewrite Nat.mul_0_l, Nat.add_0_r. reflexivity.
Qed.

Lemma candidate_shift (s : urlService) (k i : nat) :
  candidate s rand_Reader (k + Z.to_nat (shortener.length (generator s))) i
  = candidate s rand_Reader k (S i).
Proof. unfold candidate. do 2 f_equal. lia. Qed.

(** The loop stops at the first candidate that the store reports as
    unused, having read the entropy of the candidates before it. *)
Lemma generateUniqueShortCode_loop_found (s : urlService) (K : nat) :
  forall (todo : nat) (w : World),
  (K < todo)%nat ->
  (forall i, (i < K)%nat ->
     ExistsByShortCode (repo w) (candidate s rand_Reader (entropy_pos w) i)
     = Ok true) ->
  ExistsByShortCode (repo w) (candidate s rand_Reader (entropy_pos w) K)
  = Ok false ->
  generateUniqueShortCode_loop rand_Reader s todo w
  = (Ok (candidate s rand_Reader (entropy_pos w) K),
     with_entropy_pos w
       (entropy_pos w + (K + 1) * Z.to_nat (shortener.length (generator s)))).
Proof.
  induction K as [|K IH]; intros todo w Htodo Htaken Hfree;
    (destruct todo as [|todo]; [lia|]);
    cbn [generateUniqueShortCode_loop]; rewrite candidate_first;
    cbn [repo with_entropy_pos].
  - rewrite Hfree. cbn [negb]. do 2 f_equal. lia.
  - rewrite (Htaken 0%nat) by lia. cbn [negb].
    rewrite IH; cbn [repo entropy_pos with_entropy_pos].
    + rewrite candidate_shift. unfold with_entropy_pos.
      cbn [repo cache spawned entropy_pos]. do 2 f_equal. lia.
    + lia.
    + intros i Hi. rewrite candidate_shift. apply Htaken. lia.
    + rewrite candidate_shift. exact Hfree.
Qed.

(** When every attempt meets a code that the store reports as existing,
    the loop gives up after [todo] of them. *)
Lemma generateUniqueShortCode_loop_exhausted (s : urlService) (todo : nat) :
  forall (w : World),
  (forall i, (i < todo)%nat ->
     ExistsByShortCode (repo w) (candidate s rand_Reader (entropy_pos w) i)
     = Ok true) ->
  generateUniqueShortCode_loop rand_Reader s todo w
  = (Fail (Errorf "failed to generate unique short code after 5 attempts"),
     with_entropy_pos w
       (entropy_pos w + todo * Z.to_nat (shortener.length (generator s)))).
Proof.
  induction todo as [|todo IH]; intros w Htaken;
    cbn [generateUniqueShortCode_loop].
  - f_equal. destruct w. unfold with_entropy_pos. cbn. f_equal. lia.
  - rewrite candidate_first. cbn [repo with_entropy_pos].
    rewrite (Htaken 0%nat) by lia. cbn [negb].
    rewrite IH; cbn [repo entropy_pos with_entropy_pos].
    + unfold with_entropy_pos. cbn [repo cache spawned entropy_pos].
      do 2 f_equal. lia.
    + intros i Hi. rewrite candidate_shift. apply Htaken. lia.
Qed.

Lemma candidate_len (cfg : Config) (k i : nat) :
  4 <= len (candidate (NewURLService cfg) rand_Reader k i) <= 12.
Proof.
  unfold candidate, NewURLService. cbn [generator].
  rewrite Generate_len. apply NewCodeGenerator_bounds.
Qed.

Lemma ExistsByShortCode_reachable (db : DB) (shortCode : string) (b : bool) :
  ExistsByShortCode db shortCode = Ok b -> reachable db = true.
Proof.
  unfold ExistsByShortCode. destruct (reachable db); [reflexivity|discriminate].
Qed.


(** *** The rule for custom codes *)


End ServiceFacts.

(** ** The service on sample data *)

Section ServiceRuns.
Import gostr domain postgres service spec sample.

Lemma GetOriginalURL_expired_witness :
  GetOriginalURL svc 2000 "sale24" expired_world
  = (Fail ErrURLExpired, expired_world) /\
  errors_Is ErrURLExpired ErrURLNotFound = false.
Proof.
  apply (GetOriginalURL_expired svc 2000 "sale24" expired_world).
  - reflexivity.
  - vm_compute. reflexivity.
  - exists expired_row. split; [now left|reflexivity].
  - intros u [<-|[]] _. exists 1000. split; [reflexivity|lia].
Defined.



(** The world [shadowed_world] is what two shorten requests for one
    page make of an empty table: the first for one day, the second two
    days later. *)
Lemma shadowed_world_reached :
  let w1 := snd (shorten svc 1000 (page_request 1) client (world_of empty_db)) in
  shorten svc two_days_later (page_request 0) client w1
  = (Ok {| resp_ShortCode := "6789AB";
           resp_ShortURL := "https://short.url/6789AB";
           resp_OriginalURL := "https://example.com/page";
           resp_CreatedAt := two_days_later;
           resp_ExpiresAt := None |},
     shadowed_world).
Proof. vm_compute. reflexivity. Qed.

(** C3, where the code breaks it: [live_row] is an active, unexpired
    record for the page, yet a shorten request for the same page does not
    return its code ["6789AB"]: the expired record in front of it is the
    one that deduplication looks at, so a third record is created, under
    the new code ["CDEFGH"]. *)
Theorem ShortenURL_duplicates_live_target :
  In live_row (rows (repo shadowed_world)) /\
  active_target "https://example.com/page" live_row = true /\
  IsExpired live_row two_days_later = false /\
  exists resp w',
    shorten svc two_days_later (page_request 0) client shadowed_world
    = (Ok resp, w') /\
    resp_ShortCode resp = "CDEFGH" /\
    resp_ShortCode resp <> ShortCode live_row /\
    List.length (rows (repo w')) = 3%nat.
Proof.
  split; [right; now left|]. split; [reflexivity|]. split; [reflexivity|].
  eexists _, _. split; [vm_compute; reflexivity|].
  split; [reflexivity|]. split; [discriminate|reflexivity].
Qed.




End ServiceRuns.

(** ** Normalization of URLs *)

Section NormalizeFacts.
Import gostr net_url url_form validator sample.

(** *** Bytes, case by case *)

Ltac each_byte c := destruct c as [[] [] [] [] [] [] [] []]; vm_compute; reflexivity.

Lemma scheme_byte_facts (c : ascii) :
  implb (scheme_byte c)
    (plain_byte c && scheme_byte (lower_byte c)
     && negb (contains_byte ":/?#" c)
     && implb (letter c) (letter (lower_byte c))) = true.
Proof. each_byte c. Qed.

Lemma host_byte_facts (c : ascii) :
  implb (host_byte c)
    (plain_byte c && host_byte (lower_byte c)
     && negb (contains_byte "/?#" c)
     && negb (shouldEscape c encodeHost)) = true.
Proof. each_byte c. Qed.

Lemma path_byte_facts (c : ascii) :
  implb (path_byte c)
    (plain_byte c && negb (contains_byte "?#" c)
     && negb (shouldEscape c encodePath)) = true.
Proof. each_byte c. Qed.

Lemma query_byte_facts (c : ascii) :
  implb (query_byte c)
    (plain_byte c && negb (Ascii.eqb c "#")
     && negb (shouldEscape c encodeFragment)) = true.
Proof. each_byte c. Qed.

Lemma lower_byte_facts (c : ascii) :
  Ascii.eqb (lower_byte (lower_byte c)) (lower_byte c)
  && Bool.eqb (Ascii.eqb (lower_byte c) ":") (Ascii.eqb c ":")
  && Bool.eqb (byte_in "0" "9" (lower_byte c)) (byte_in "0" "9" c) = true.
Proof. each_byte c. Qed.

(** *** Scanning *)

Lemma all_bytes_impl (P Q : ascii -> bool) (s : string) :
  (forall c, P c = true -> Q c = true) ->
  all_bytes P s = true -> all_bytes Q s = true.
Proof.
  intros HPQ. induction s as [|c s IH]; [reflexivity|].
  cbn [all_bytes]. intros H. apply andb_prop in H as [Hc Hs].
  now rewrite (HPQ c Hc), IH.
Qed.

Lemma append_empty_l (s : string) : EmptyString ++ s = s.
Proof. reflexivity. Qed.

Lemma Contains_app (a b sub : string) :
  HasPrefix b sub = true -> Contains (a ++ b) sub = true.
Proof.
  intros Hb. induction a as [|c a IH].
  - rewrite append_empty_l. destruct b; cbn [Contains]; now rewrite Hb.
  - rewrite append_String. cbn [Contains]. rewrite IH. apply orb_true_r.
Qed.

Lemma Cut_found (sep : ascii) (a b : string) :
  lacks sep a = true -> Cut (a ++ String sep b) sep = (a, b, true).
Proof.
  unfold lacks. induction a as [|c a IH]; intros Ha.
  - rewrite append_empty_l. cbn [Cut]. now rewrite Ascii.eqb_refl.
  - cbn [all_bytes] in Ha. apply andb_prop in Ha as [Hc Ha].
    rewrite append_String. cbn [Cut].
    apply negb_true_iff in Hc. rewrite Hc. now rewrite (IH Ha).
Qed.

Lemma Cut_none (sep : ascii) (a : string) :
  lacks sep a = true -> Cut a sep = (a, EmptyString, false).
Proof.
  unfold lacks. induction a as [|c a IH]; intros Ha; [reflexivity|].
  cbn [all_bytes] in Ha. apply andb_prop in Ha as [Hc Ha].
  cbn [Cut]. apply negb_true_iff in Hc. rewrite Hc. now rewrite (IH Ha).
Qed.

Lemma lacks_app (sep : ascii) (a b : string) :
  lacks sep (a ++ b) = lacks sep a && lacks sep b.
Proof. apply all_bytes_app. Qed.

(** A byte class that excludes the separator. *)
Lemma lacks_class (P : ascii -> bool) (sep : ascii) (s : string) :
  P sep = false -> all_bytes P s = true -> lacks sep s = true.
Proof.
  intros Hsep. apply all_bytes_impl. intros c Hc.
  destruct (Ascii.eqb_spec c sep) as [->|]; [congruence|reflexivity].
Qed.

Lemma getScheme_loop_rest (t rest : string) :
  all_bytes scheme_byte t = true ->
  getScheme_loop false (t ++ String ":" rest) = SchemeFound t rest.
Proof.
  induction t as [|c t IH]; intros Ht.
  - reflexivity.
  - cbn [all_bytes] in Ht. apply andb_prop in Ht as [Hc Ht].
    rewrite append_String. cbn [getScheme_loop]. rewrite (IH Ht).
    unfold scheme_byte, letter in Hc.
    destruct (byte_in "a" "z" c || byte_in "A" "Z" c); [reflexivity|].
    cbn [orb] in Hc. now rewrite Hc.
Qed.

Lemma getScheme_scheme (c : ascii) (t rest : string) :
  letter c = true -> all_bytes scheme_byte t = true ->
  getScheme (String c t ++ String ":" rest) = Some (String c t, rest).
Proof.
  intros Hc Ht. unfold getScheme. rewrite append_String.
  cbn [getScheme_loop]. rewrite (getScheme_loop_rest t rest Ht).
  unfold letter in Hc. now rewrite Hc.
Qed.

Lemma HasSuffix_byte_lacks (sep : ascii) (s : string) :
  lacks sep s = true -> HasSuffix_byte s sep = false.
Proof.
  unfold lacks. induction s as [|c s IH]; intros Hs; [reflexivity|].
  cbn [all_bytes] in Hs. apply andb_prop in Hs as [Hc Hs].
  cbn [HasSuffix_byte]. destruct s as [|d s].
  - now apply negb_true_iff in Hc.
  - now apply IH.
Qed.

Lemma HasSuffix_byte_app (sep : ascii) (a b : string) :
  b <> EmptyString -> HasSuffix_byte (a ++ b) sep = HasSuffix_byte b sep.
Proof.
  intros Hb. induction a as [|c a IH]; [reflexivity|].
  rewrite append_String. cbn [HasSuffix_byte].
  destruct (a ++ b) as [|d s] eqn:Hab; [|exact IH].
  destruct a; [rewrite append_empty_l in Hab; contradiction|discriminate].
Qed.

Lemma Count_byte_app (sep : ascii) (a b : string) :
  Count_byte (a ++ b) sep = Count_byte a sep + Count_byte b sep.
Proof.
  induction a as [|c a IH]; [reflexivity|].
  rewrite append_String. cbn [Count_byte]. rewrite IH. lia.
Qed.

Lemma Count_byte_lacks (sep : ascii) (s : string) :
  lacks sep s = true -> Count_byte s sep = 0.
Proof.
  unfold lacks. induction s as [|c s IH]; intros Hs; [reflexivity|].
  cbn [all_bytes] in Hs. apply andb_prop in Hs as [Hc Hs].
  cbn [Count_byte]. apply negb_true_iff in Hc. rewrite Hc, (IH Hs). reflexivity.
Qed.

Lemma Count_byte_nonneg (sep : ascii) (s : string) : 0 <= Count_byte s sep.
Proof.
  induction s as [|c s IH]; [reflexivity|].
  cbn [Count_byte]. destruct (Ascii.eqb c sep); lia.
Qed.

Lemma HasSuffix_byte_Count (sep : ascii) (s : string) :
  HasSuffix_byte s sep = true -> 1 <= Count_byte s sep.
Proof.
  induction s as [|c s IH]; [discriminate|].
  cbn [HasSuffix_byte Count_byte]. destruct s as [|d s].
  - intros ->. cbn. lia.
  - intros H. specialize (IH H). destruct (Ascii.eqb c sep); lia.
Qed.

Lemma drop_last_app (a : string) (c : ascii) :
  drop_last (a ++ String c EmptyString) = a.
Proof.
  induction a as [|d a IH]; [reflexivity|].
  rewrite append_String. cbn [drop_last].
  destruct (a ++ String c EmptyString) eqn:Hab.
  - destruct a; discriminate.
  - now rewrite IH.
Qed.

Lemma substring_all (s : string) : substring 0 (String.length s) s = s.
Proof.
  induction s as [|c s IH]; [reflexivity|].
  cbn [String.length substring]. now rewrite IH.
Qed.

Lemma split_at_slash_app (h p : string) :
  lacks "/" h = true ->
  (String.eqb p EmptyString || HasPrefix p "/") = true ->
  split_at_slash (h ++ p) = (h, p).
Proof.
  unfold lacks. induction h as [|c h IH]; intros Hh Hp.
  - rewrite append_empty_l. destruct p as [|d p]; [reflexivity|].
    cbn in Hp. apply andb_prop in Hp as [Hd _].
    cbn [split_at_slash]. now rewrite Hd.
  - cbn [all_bytes] in Hh. apply andb_prop in Hh as [Hc Hh].
    rewrite append_String. cbn [split_at_slash].
    apply negb_true_iff in Hc. rewrite Hc. now rewrite (IH Hh Hp).
Qed.

Lemma escape_plain (mode : encoding) (s : string) :
  all_bytes (fun c => negb (shouldEscape c mode)) s = true ->
  escape s mode = s.
Proof.
  induction s as [|c s IH]; intros Hs; [reflexivity|].
  cbn [all_bytes] in Hs. apply andb_prop in Hs as [Hc Hs].
  cbn [escape]. apply negb_true_iff in Hc. rewrite Hc. now rewrite (IH Hs).
Qed.

(** *** Parsing a rendered URL *)

Lemma query_split (r0 : string) (q : option string) :
  lacks "?" r0 = true ->
  (if HasSuffix_byte (r0 ++ query_text q) "?"
      && (Count_byte (r0 ++ query_text q) "?" =? 1)
   then (drop_last (r0 ++ query_text q), true, EmptyString)
   else let '(before, after, _) := Cut (r0 ++ query_text q) "?" in
        (before, false, after))
  = (r0, is_empty_query q, text_of q).
Proof.
  intros Hr0. destruct q as [[|d q]|]; cbn [query_text is_empty_query text_of].
  - change ("?" ++ "") with (String "?" EmptyString).
    rewrite HasSuffix_byte_app by discriminate.
    rewrite Count_byte_app, (Count_byte_lacks _ _ Hr0).
    cbn [HasSuffix_byte Count_byte]. rewrite Ascii.eqb_refl. cbn [andb Z.add Z.eqb Pos.eqb].
    now rewrite drop_last_app.
  - change ("?" ++ String d q) with (String "?" (String d q)).
    rewrite HasSuffix_byte_app by discriminate.
    rewrite Count_byte_app, (Count_byte_lacks _ _ Hr0).
    change (HasSuffix_byte (String "?" (String d q)) "?")
      with (HasSuffix_byte (String d q) "?").
    change (Count_byte (String "?" (String d q)) "?")
      with ((if Ascii.eqb "?" "?" then 1 else 0) + Count_byte (String d q) "?").
    rewrite Ascii.eqb_refl.
    destruct (HasSuffix_byte (String d q) "?") eqn:Hsuf.
    + apply HasSuffix_byte_Count in Hsuf.
      replace (0 + (1 + Count_byte (String d q) "?") =? 1) with false
        by (symmetry; apply Z.eqb_neq; lia).
      cbn [andb]. now rewrite Cut_found.
    + cbn [andb]. now rewrite Cut_found.
  - rewrite append_empty_r, (HasSuffix_byte_lacks _ _ Hr0). cbn [andb].
    now rewrite Cut_none.
Qed.

Lemma parseHost_same (h x : string) : parseHost h = Some x -> x = h.
Proof.
  unfold parseHost. destruct (from_last_colon h) as [colonPort|].
  - destruct (validOptionalPort colonPort); congruence.
  - congruence.
Qed.

Lemma substring_after_slashes (x : string) :
  substring 2 (String.length ("//" ++ x) - 2) ("//" ++ x) = x.
Proof.
  change (substring 0 (String.length x - 0) x = x).
  rewrite Nat.sub_0_r. apply substring_all.
Qed.

Lemma HasPrefix_slashes (x : string) : HasPrefix ("//" ++ x) "//" = true.
Proof. now destruct x. Qed.

Lemma ToLower_not_empty (s : string) :
  String.eqb s EmptyString = false -> String.eqb (ToLower s) EmptyString = false.
Proof. destruct s; [discriminate|reflexivity]. Qed.

Lemma HasPrefix_scheme_sep (x : string) : HasPrefix ("://" ++ x) "://" = true.
Proof. now destruct x. Qed.

Lemma ToLower_ToLower (s : string) : ToLower (ToLower s) = ToLower s.
Proof.
  induction s as [|c s IH]; [reflexivity|].
  cbn [ToLower]. rewrite IH. f_equal.
  pose proof (lower_byte_facts c) as H.
  apply andb_prop in H as [H _]. apply andb_prop in H as [H _].
  now apply Ascii.eqb_eq in H.
Qed.

Lemma all_bytes_ToLower (P Q : ascii -> bool) (s : string) :
  (forall c, P c = true -> Q (lower_byte c) = true) ->
  all_bytes P s = true -> all_bytes Q (ToLower s) = true.
Proof.
  intros HPQ. induction s as [|c s IH]; [reflexivity|].
  cbn [all_bytes ToLower]. intros H. apply andb_prop in H as [Hc Hs].
  now rewrite (HPQ c Hc), IH.
Qed.

Lemma all_bytes_TrimSuffix (P : ascii -> bool) (s : string) :
  all_bytes P s = true -> all_bytes P (TrimSuffix_slash s) = true.
Proof.
  induction s as [|c s IH]; [reflexivity|].
  cbn [all_bytes]. intros H. apply andb_prop in H as [Hc Hs].
  cbn [TrimSuffix_slash]. destruct s as [|d s].
  - destruct (Ascii.eqb c "/"); [reflexivity|]. cbn [all_bytes]. now rewrite Hc.
  - cbn [all_bytes] in *. now rewrite Hc, IH.
Qed.

Lemma TrimSuffix_rooted (s : string) :
  String.eqb s EmptyString || HasPrefix s "/" = true ->
  String.eqb (TrimSuffix_slash s) EmptyString
  || HasPrefix (TrimSuffix_slash s) "/" = true.
Proof.
  destruct s as [|c s]; [reflexivity|].
  cbn [TrimSuffix_slash]. destruct s as [|d s].
  - destruct (Ascii.eqb c "/"); [reflexivity|]. trivial.
  - cbn [String.eqb orb HasPrefix]. intros H.
    apply andb_prop in H as [Hc _]. rewrite Hc.
    now destruct (TrimSuffix_slash (String d s)).
Qed.

Lemma host_byte_lower (x : ascii) :
  host_byte x = true -> host_byte (lower_byte x) = true.
Proof.
  intros Hx. pose proof (host_byte_facts x) as H. rewrite Hx in H.
  cbn [implb] in H. apply andb_prop in H as [H _].
  apply andb_prop in H as [H _]. now apply andb_prop in H as [_ H].
Qed.

Lemma host_byte_unescaped (x : ascii) :
  host_byte x = true -> negb (shouldEscape x encodeHost) = true.
Proof.
  intros Hx. pose proof (host_byte_facts x) as H. rewrite Hx in H.
  cbn [implb] in H. now apply andb_prop in H as [_ H].
Qed.

Lemma path_byte_unescaped (x : ascii) :
  path_byte x = true -> negb (shouldEscape x encodePath) = true.
Proof.
  intros Hx. pose proof (path_byte_facts x) as H. rewrite Hx in H.
  cbn [implb] in H. now apply andb_prop in H as [_ H].
Qed.

Lemma query_byte_unescaped (x : ascii) :
  query_byte x = true -> negb (shouldEscape x encodeFragment) = true.
Proof.
  intros Hx. pose proof (query_byte_facts x) as H. rewrite Hx in H.
  cbn [implb] in H. now apply andb_prop in H as [_ H].
Qed.

Lemma eqb_app_not_empty (a b : string) :
  String.eqb a EmptyString = false -> String.eqb (a ++ b) EmptyString = false.
Proof. destruct a; [discriminate|reflexivity]. Qed.

(** [String] on a URL that has a scheme and a host. *)
Lemma String_hosted (S H P : string) (fq : bool) (rq fr : string) :
  String.eqb S EmptyString = false ->
  String.eqb H EmptyString = false ->
  String.eqb P EmptyString || HasPrefix P "/" = true ->
  escape H encodeHost = H ->
  escape P encodePath = P ->
  escape fr encodeFragment = fr ->
  String_ {| Scheme := S; Opaque := EmptyString; Host := H; Path := P;
             OmitHost := false; ForceQuery := fq; RawQuery := rq;
             Fragment := fr |}
  = S ++ "://" ++ H ++ P
    ++ (if fq || negb (String.eqb rq EmptyString) then "?" ++ rq else EmptyString)
    ++ (if negb (String.eqb fr EmptyString) then "#" ++ fr else EmptyString).
Proof.
  intros HS HH HP HeH HeP Hef.
  unfold String_, EscapedPath, EscapedFragment.
  cbn [Scheme Opaque Host Path OmitHost ForceQuery RawQuery Fragment].
  rewrite HS, HH, HeH, HeP, Hef.
  cbn [negb orb andb String.eqb].
  replace (negb (String.eqb P EmptyString) && negb (HasPrefix P "/")) with false
    by (now destruct (String.eqb P EmptyString), (HasPrefix P "/")).
  cbn [andb].
  rewrite (eqb_app_not_empty _ H);
    [|now apply eqb_app_not_empty, eqb_app_not_empty].
  cbn [andb].
  destruct (fq || negb (String.eqb rq EmptyString));
    destruct (negb (String.eqb fr EmptyString));
    rewrite ?append_assoc, ?append_empty_r; reflexivity.
Qed.

Section Parts.

Variables (c : ascii) (t h pa : string) (q f : option string).

Hypothesis Hletter : letter c = true.
Hypothesis Hscheme : all_bytes scheme_byte t = true.
Hypothesis Hhost : String.eqb h EmptyString = false.
Hypothesis Hhost_bytes : all_bytes host_byte h = true.
Hypothesis Hport : parseHost h = Some h.
Hypothesis Hpath : String.eqb pa EmptyString || HasPrefix pa "/" = true.
Hypothesis Hpath_bytes : all_bytes path_byte pa = true.
Hypothesis Hquery : all_bytes_of query_byte q = true.
Hypothesis Hfragment : all_bytes_of query_byte f = true.

Let p : parts :=
  {| scheme := String c t; host := h; path := pa; query := q; fragment := f |}.

Lemma host_lacks (sep : ascii) :
  contains_byte "/?#" sep = true -> lacks sep h = true.
Proof.
  intros Hsep. apply (lacks_class host_byte); [|exact Hhost_bytes].
  unfold host_byte. now rewrite Hsep, andb_false_r.
Qed.

Lemma path_lacks (sep : ascii) :
  contains_byte "?#" sep = true -> lacks sep pa = true.
Proof.
  intros Hsep. apply (lacks_class path_byte); [|exact Hpath_bytes].
  unfold path_byte. now rewrite Hsep, andb_false_r.
Qed.

Lemma scheme_lacks (sep : ascii) :
  contains_byte ":/?#" sep = true -> lacks sep (String c t) = true.
Proof.
  intros Hsep. apply (lacks_class scheme_byte).
  - pose proof (scheme_byte_facts sep) as H.
    destruct (scheme_byte sep); [|reflexivity].
    cbn [implb] in H. rewrite Hsep in H. rewrite !andb_false_r in H.
    cbn in H. discriminate.
  - cbn [all_bytes]. rewrite Hscheme, andb_true_r.
    unfold scheme_byte. now rewrite Hletter.
Qed.

Lemma query_lacks : lacks "#" (query_text q) = true.
Proof.
  destruct q as [s|]; [|reflexivity]. cbn [query_text all_bytes_of] in *.
  change ("?" ++ s) with (String "?" s). unfold lacks. cbn [all_bytes].
  change (negb (Ascii.eqb "?" "#")) with true. cbn [andb].
  apply (lacks_class query_byte); [|exact Hquery].
  reflexivity.
Qed.

Lemma scheme_plain : all_bytes plain_byte (String c t) = true.
Proof.
  apply (all_bytes_impl scheme_byte).
  - intros x Hx. pose proof (scheme_byte_facts x) as H.
    rewrite Hx in H. cbn [implb] in H.
    now repeat (apply andb_prop in H as [H _]).
  - cbn [all_bytes]. rewrite Hscheme, andb_true_r.
    unfold scheme_byte. now rewrite Hletter.
Qed.

Lemma host_plain : all_bytes plain_byte h = true.
Proof.
  revert Hhost_bytes. apply all_bytes_impl. intros x Hx.
  unfold host_byte in Hx. now apply andb_prop in Hx as [Hx _].
Qed.

Lemma path_plain : all_bytes plain_byte pa = true.
Proof.
  revert Hpath_bytes. apply all_bytes_impl. intros x Hx.
  unfold path_byte in Hx. now apply andb_prop in Hx as [Hx _].
Qed.

Lemma query_byte_plain (s : string) :
  all_bytes query_byte s = true -> all_bytes plain_byte s = true.
Proof.
  apply all_bytes_impl. intros x Hx.
  unfold query_byte in Hx. now apply andb_prop in Hx as [Hx _].
Qed.

Lemma render_plain : all_bytes plain_byte (render p) = true.
Proof.
  unfold render, p. cbn [scheme host path query fragment].
  rewrite !all_bytes_app, scheme_plain, host_plain, path_plain.
  assert (Hq : all_bytes plain_byte (query_text q) = true).
  { destruct q as [s|]; [|reflexivity]. cbn [query_text all_bytes_of] in *.
    change ("?" ++ s) with (String "?" s). cbn [all_bytes].
    now rewrite (query_byte_plain s Hquery). }
  assert (Hf : all_bytes plain_byte (fragment_text f) = true).
  { destruct f as [s|]; [|reflexivity]. cbn [fragment_text all_bytes_of] in *.
    change ("#" ++ s) with (String "#" s). cbn [all_bytes].
    now rewrite (query_byte_plain s Hfragment). }
  now rewrite Hq, Hf.
Qed.

(** The text in front of the fragment. *)
Let base : string := String c t ++ "://" ++ h ++ pa ++ query_text q.

Lemma render_base : render p = base ++ fragment_text f.
Proof.
  unfold render, base, p. cbn [scheme host path query fragment].
  now rewrite !append_assoc.
Qed.

Lemma base_lacks : lacks "#" base = true.
Proof.
  unfold base. rewrite !lacks_app.
  rewrite scheme_lacks, host_lacks, path_lacks, query_lacks by reflexivity.
  reflexivity.
Qed.

Lemma Cut_render : exists found, Cut (render p) "#" = (base, text_of f, found).
Proof.
  rewrite render_base. destruct f as [s|]; cbn [fragment_text text_of].
  - exists true. change ("#" ++ s) with (String "#" s).
    apply Cut_found, base_lacks.
  - exists false. rewrite append_empty_r. apply Cut_none, base_lacks.
Qed.

Lemma parse_base :
  parse base
  = Some {| Scheme := ToLower (String c t); Opaque := EmptyString; Host := h;
            Path := pa; OmitHost := false; ForceQuery := is_empty_query q;
            RawQuery := text_of q; Fragment := EmptyString |}.
Proof.
  unfold parse, base.
  change ("://" ++ h ++ pa ++ query_text q)
    with (String ":" ("//" ++ h ++ pa ++ query_text q)).
  rewrite (getScheme_scheme c t _ Hletter Hscheme).
  replace ("//" ++ h ++ pa ++ query_text q)
    with (("//" ++ h ++ pa) ++ query_text q) by now rewrite !append_assoc.
  rewrite query_split.
  - cbv beta iota zeta.
    change (HasPrefix ("//" ++ h ++ pa) "/") with true.
    rewrite HasPrefix_slashes.
    cbn [negb andb orb ToLower String.eqb].
    rewrite substring_after_slashes.
    rewrite (split_at_slash_app h pa (host_lacks "/" eq_refl) Hpath).
    now rewrite Hport.
  - rewrite !lacks_app, host_lacks, path_lacks by reflexivity. reflexivity.
Qed.

Lemma Parse_render :
  Parse (render p)
  = Some {| Scheme := ToLower (String c t); Opaque := EmptyString; Host := h;
            Path := pa; OmitHost := false; ForceQuery := is_empty_query q;
            RawQuery := text_of q; Fragment := text_of f |}.
Proof.
  unfold Parse. rewrite render_plain. cbn [negb].
  destruct Cut_render as [found ->]. now rewrite parse_base.
Qed.

Lemma NormalizeURL_render : NormalizeURL (render p) = render (normal p).
Proof.
  unfold NormalizeURL.
  assert (Hsep : Contains (render p) "://" = true).
  { unfold render, p. cbn [scheme host path query fragment].
    apply Contains_app, HasPrefix_scheme_sep. }
  rewrite Hsep. cbn [negb]. rewrite Parse_render.
  cbn [Scheme Opaque Host Path OmitHost ForceQuery RawQuery Fragment].
  rewrite ToLower_ToLower.
  rewrite String_hosted.
  - unfold render, normal, p. cbn [scheme host path query fragment].
    do 4 f_equal. f_equal.
    + now destruct q as [[|d s]|].
    + now destruct f as [[|d s]|].
  - reflexivity.
  - now apply ToLower_not_empty.
  - now apply TrimSuffix_rooted.
  - apply escape_plain. apply (all_bytes_ToLower host_byte); [|exact Hhost_bytes].
    intros x Hx. apply host_byte_unescaped, host_byte_lower, Hx.
  - apply escape_plain, all_bytes_TrimSuffix.
    revert Hpath_bytes. apply all_bytes_impl, path_byte_unescaped.
  - apply escape_plain. destruct f as [s|]; [|reflexivity].
    cbn [text_of all_bytes_of] in *.
    revert Hfragment. apply all_bytes_impl, query_byte_unescaped.
Qed.

End Parts.

(** *** Normal forms *)

Lemma from_last_colon_ToLower (h : string) :
  from_last_colon (ToLower h) = option_map ToLower (from_last_colon h).
Proof.
  induction h as [|c h IH]; [reflexivity|].
  cbn [ToLower from_last_colon]. rewrite IH.
  destruct (from_last_colon h) as [colonPort|]; [reflexivity|].
  cbn [option_map].
  pose proof (lower_byte_facts c) as H.
  apply andb_prop in H as [H _]. apply andb_prop in H as [_ H].
  apply Bool.eqb_prop in H. rewrite H.
  now destruct (Ascii.eqb c ":").
Qed.

Lemma validOptionalPort_ToLower (port : string) :
  validOptionalPort (ToLower port) = validOptionalPort port.
Proof.
  destruct port as [|c digits]; [reflexivity|].
  cbn [ToLower validOptionalPort].
  pose proof (lower_byte_facts c) as H.
  apply andb_prop in H as [H _]. apply andb_prop in H as [_ H].
  apply Bool.eqb_prop in H. rewrite H. f_equal.
  induction digits as [|d digits IH]; [reflexivity|].
  cbn [ToLower all_bytes]. rewrite IH. f_equal.
  pose proof (lower_byte_facts d) as Hd.
  apply andb_prop in Hd as [_ Hd]. now apply Bool.eqb_prop in Hd.
Qed.

Lemma parseHost_ToLower (h : string) :
  parseHost h = Some h -> parseHost (ToLower h) = Some (ToLower h).
Proof.
  unfold parseHost. rewrite from_last_colon_ToLower.
  destruct (from_last_colon h) as [colonPort|]; cbn [option_map]; [|reflexivity].
  rewrite validOptionalPort_ToLower.
  now destruct (validOptionalPort colonPort).
Qed.

Lemma TrimSuffix_settled (s : string) :
  ends_in_two_slashes s = false ->
  TrimSuffix_slash (TrimSuffix_slash s) = TrimSuffix_slash s.
Proof.
  induction s as [|a s IH]; [reflexivity|].
  destruct s as [|b rest].
  - intros _. cbn [TrimSuffix_slash].
    destruct (Ascii.eqb a "/") eqn:Ha; [reflexivity|].
    cbn [TrimSuffix_slash]. now rewrite Ha.
  - destruct rest as [|x rest].
    + cbn [ends_in_two_slashes TrimSuffix_slash]. intros Hends.
      destruct (Ascii.eqb b "/") eqn:Hb.
      * rewrite andb_true_r in Hends. cbn [TrimSuffix_slash]. now rewrite Hends.
      * cbn [TrimSuffix_slash]. now rewrite Hb.
    + intros Hends.
      change (ends_in_two_slashes (String b (String x rest)) = false) in Hends.
      specialize (IH Hends).
      change (TrimSuffix_slash (String a (String b (String x rest))))
        with (String a (TrimSuffix_slash (String b (String x rest)))).
      change (TrimSuffix_slash (String b (String x rest)))
        with (String b (TrimSuffix_slash (String x rest))) in *.
      change (TrimSuffix_slash (String a (String b (TrimSuffix_slash (String x rest)))))
        with (String a (TrimSuffix_slash (String b (TrimSuffix_slash (String x rest))))).
      now rewrite IH.
Qed.

Lemma TrimSuffix_shrinks (s : string) :
  ends_in_two_slashes s = true ->
  len (TrimSuffix_slash (TrimSuffix_slash s)) + 1 = len (TrimSuffix_slash s).
Proof.
  induction s as [|a s IH]; [discriminate|].
  destruct s as [|b rest]; [discriminate|].
  destruct rest as [|x rest].
  - cbn [ends_in_two_slashes]. intros Hends.
    apply andb_prop in Hends as [Ha Hb].
    cbn [TrimSuffix_slash]. rewrite Hb. cbn [TrimSuffix_slash]. rewrite Ha.
    reflexivity.
  - intros Hends.
    change (ends_in_two_slashes (String b (String x rest)) = true) in Hends.
    specialize (IH Hends).
    change (TrimSuffix_slash (String a (String b (String x rest))))
      with (String a (TrimSuffix_slash (String b (String x rest)))).
    change (TrimSuffix_slash (String b (String x rest)))
      with (String b (TrimSuffix_slash (String x rest))) in *.
    change (TrimSuffix_slash (String a (String b (TrimSuffix_slash (String x rest)))))
      with (String a (TrimSuffix_slash (String b (TrimSuffix_slash (String x rest))))).
    unfold len in *. cbn [String.length] in *. lia.
Qed.

(** What [well_formed] says, piece by piece. *)
Lemma well_formed_inv (p : parts) :
  well_formed p = true ->
  exists c t,
    scheme p = String c t /\ letter c = true /\ all_bytes scheme_byte t = true /\
    String.eqb (host p) EmptyString = false /\
    all_bytes host_byte (host p) = true /\
    parseHost (host p) = Some (host p) /\
    String.eqb (path p) EmptyString || HasPrefix (path p) "/" = true /\
    all_bytes path_byte (path p) = true /\
    all_bytes_of query_byte (query p) = true /\
    all_bytes_of query_byte (fragment p) = true.
Proof.
  unfold well_formed. intros H.
  repeat match type of H with
         | _ && _ = true => let H' := fresh "H" in apply andb_prop in H as [H H']
         end.
  destruct (scheme p) as [|c t]; [discriminate|].
  apply andb_prop in H as [Hc Ht].
  exists c, t. repeat split; try assumption.
  - now apply negb_true_iff.
  - destruct (parseHost (host p)) as [x|] eqn:Hx; [|discriminate].
    now rewrite (parseHost_same _ _ Hx) in Hx |- *.
Qed.

Lemma NormalizeURL_well_formed (p : parts) :
  well_formed p = true -> NormalizeURL (render p) = render (normal p).
Proof.
  intros Hp.
  destruct (well_formed_inv p Hp)
    as (c & t & Hs & Hc & Ht & Hh & Hhb & Hport & Hpa & Hpab & Hq & Hf).
  destruct p as [sch h pa q f]. cbn [scheme host path query fragment] in *.
  subst sch. now apply NormalizeURL_render.
Qed.

Lemma well_formed_normal (p : parts) :
  well_formed p = true -> well_formed (normal p) = true.
Proof.
  intros Hp.
  destruct (well_formed_inv p Hp)
    as (c & t & Hs & Hc & Ht & Hh & Hhb & Hport & Hpa & Hpab & Hq & Hf).
  unfold well_formed, normal. cbn [scheme host path query fragment].
  rewrite Hs. cbn [ToLower].
  assert (Hscheme_lower : forall x, scheme_byte x = true ->
            scheme_byte (lower_byte x) = true
            /\ (letter x = true -> letter (lower_byte x) = true)).
  { intros x Hx. pose proof (scheme_byte_facts x) as H. rewrite Hx in H.
    cbn [implb] in H. apply andb_prop in H as [H Hl].
    apply andb_prop in H as [H _]. apply andb_prop in H as [_ H].
    split; [exact H|]. intros Hlx. now rewrite Hlx in Hl. }
  assert (Hsc : scheme_byte c = true) by (unfold scheme_byte; now rewrite Hc).
  rewrite (proj2 (Hscheme_lower c Hsc) Hc).
  rewrite (all_bytes_ToLower scheme_byte scheme_byte t
             (fun x Hx => proj1 (Hscheme_lower x Hx)) Ht).
  rewrite (ToLower_not_empty _ Hh).
  rewrite (all_bytes_ToLower host_byte host_byte _ host_byte_lower Hhb).
  rewrite (parseHost_ToLower _ Hport).
  rewrite (TrimSuffix_rooted _ Hpa).
  rewrite (all_bytes_TrimSuffix _ _ Hpab).
  rewrite Hq.
  now destruct (fragment p) as [[|d s]|].
Qed.

Lemma normal_settled (p : parts) :
  ends_in_two_slashes (path p) = false -> normal (normal p) = normal p.
Proof.
  intros Hends. unfold normal. cbn [scheme host path query fragment].
  rewrite !ToLower_ToLower, (TrimSuffix_settled _ Hends).
  now destruct (fragment p) as [[|d s]|].
Qed.

Lemma len_render (p : parts) :
  len (render p)
  = len (scheme p) + 3 + len (host p) + len (path p)
    + len (query_text (query p)) + len (fragment_text (fragment p)).
Proof.
  unfold render. rewrite !len_append. change (len "://") with 3. lia.
Qed.




(** An input without [://] is normalized as the same text behind
    [https://]. *)
Lemma NormalizeURL_default_scheme (rawURL : string) :
  Contains rawURL "://" = false ->
  NormalizeURL rawURL = NormalizeURL ("https://" ++ rawURL).
Proof.
  intros Hno.
  assert (Hsep : Contains ("https://" ++ rawURL) "://" = true)
    by exact (Contains_app "https" ("://" ++ rawURL) "://"
                (HasPrefix_scheme_sep rawURL)).
  unfold NormalizeURL. now rewrite Hno, Hsep.
Qed.

End NormalizeFacts.

(** ** More on the code generator *)

Section GeneratorMore.
Import gostr shortener.

Lemma base62_is_shortCode_byte (c : ascii) :
  implb (contains_byte base62Chars c) (validator.shortCode_byte c) = true.
Proof. destruct c as [[] [] [] [] [] [] [] []]; vm_compute; reflexivity. Qed.

(** X1: whatever length is configured and whatever the entropy source
    delivers (failures included), the code that [Generate] returns is
    accepted by [IsValid] of the same generator and by
    [validator.ValidateShortCode]. *)
Theorem Generate_passes_validators (n : Z) (src : entropy) (k : nat) :
  let g := NewCodeGenerator n in
  let code := fst (Generate g src k) in
  IsValid g code = true /\ validator.ValidateShortCode code = true.
Proof.
  cbn zeta. pose proof (Generate_len n src k) as Hlen.
  pose proof (NewCodeGenerator_bounds n) as Hb.
  pose proof (Generate_loop_alphabet src k 0
                (Z.to_nat (length (NewCodeGenerator n)))) as Halpha.
  change (Generate_loop src k 0 (Z.to_nat (length (NewCodeGenerator n))))
    with (fst (Generate (NewCodeGenerator n) src k)) in Halpha.
  split.
  - unfold IsValid. rewrite Hlen.
    rewrite (proj2 (Z.eqb_neq _ 0)) by lia.
    rewrite Z.gtb_ltb, Z.ltb_irrefl. cbn [orb]. exact Halpha.
  - unfold validator.ValidateShortCode, validator.shortCodeRegex_MatchString.
    rewrite Hlen.
    rewrite (proj2 (Z.ltb_ge _ 2)) by lia.
    rewrite Z.gtb_ltb, (proj2 (Z.ltb_ge 50 _)) by lia.
    rewrite (proj2 (Z.eqb_neq _ 0)) by lia. cbn [orb negb andb].
    revert Halpha. apply all_bytes_impl. intros c Hc.
    pose proof (base62_is_shortCode_byte c) as H. now rewrite Hc in H.
Qed.

Lemma digits_alphabet (num : Z) (result : string) :
  all_bytes (contains_byte base62Chars) result = true ->
  all_bytes (contains_byte base62Chars) (GenerateFromID_digits num result) = true.
Proof.
  funelim (GenerateFromID_digits num result); intros Hres; [|exact Hres].
  match goal with IH : _ -> _ = true |- _ => apply IH end.
  cbn [all_bytes]. rewrite Hres, andb_true_r.
  apply base62_table. apply Z.mod_pos_bound. lia.
Qed.

Lemma digits_len_ge (num : Z) (result : string) :
  len result <= len (GenerateFromID_digits num result).
Proof.
  funelim (GenerateFromID_digits num result); [|lia].
  match goal with IH : _ <= _ |- _ => revert IH end.
  unfold len. cbn [String.length]. lia.
Qed.

(** The digits of [num] fit [room] places exactly when [num < 62^room]. *)
Lemma digits_fit (num : Z) (result : string) :
  0 <= num ->
  forall room, 0 <= room ->
    (len (GenerateFromID_digits num result) <= len result + room
     <-> num < 62 ^ room).
Proof.
  funelim (GenerateFromID_digits num result); intros Hnum room Hroom.
  - match goal with IH : 0 <= _ -> forall _, _ |- _ => rename IH into IHd end.
    assert (Hq : 0 <= num / 62) by (apply Z.div_pos; lia).
    destruct (Z.eq_dec room 0) as [->|Hpos].
    + pose proof (digits_len_ge (num / 62)
                    (String (index base62Chars (num mod 62)) result)) as Hge.
      unfold len in *. cbn [String.length] in *.
      change (62 ^ 0) with 1. lia.
    + specialize (IHd Hq (room - 1) ltac:(lia)).
      replace room with (Z.succ (room - 1)) at 2 by lia.
      rewrite Z.pow_succ_r by lia.
      unfold len in *. cbn [String.length] in *.
      split; intros H.
      * assert (num / 62 < 62 ^ (room - 1)) by (apply IHd; lia).
        pose proof (Z.div_mod num 62 ltac:(lia)).
        pose proof (Z.mod_pos_bound num 62 ltac:(lia)). lia.
      * assert (num / 62 < 62 ^ (room - 1))
          by (apply Z.div_lt_upper_bound; lia).
        apply IHd in H0. lia.
  - assert (num = 0) by lia. subst.
    pose proof (Z.pow_pos_nonneg 62 room ltac:(lia) Hroom). lia.
Qed.

Lemma GenerateFromID_pad_full (n : Z) (s : string) :
  n <= len s -> GenerateFromID_pad n s = s.
Proof.
  intros Hfull. funelim (GenerateFromID_pad n s); [lia|reflexivity].
Qed.

(** X2: for a generator of positive length and an [id] of type [uint],
    the code that [GenerateFromID] makes of [id] is accepted by [IsValid]
    exactly when [id < 62 ^ length]: a larger id gets a code longer than
    the configured length. *)
Theorem GenerateFromID_valid_iff (g : CodeGenerator) (id : Z) :
  1 <= length g -> 0 <= id < uint_modulus ->
  (IsValid g (GenerateFromID g id) = true <-> id < 62 ^ length g).
Proof.
  intros Hg [Hid _]. unfold GenerateFromID.
  destruct (id =? 0) eqn:H0.
  - apply Z.eqb_eq in H0. subst.
    pose proof (Z.pow_pos_nonneg 62 (length g) ltac:(lia) ltac:(lia)).
    unfold IsValid. change (len (String (index base62Chars 0) "")) with 1.
    rewrite Z.gtb_ltb, (proj2 (Z.ltb_ge _ _)) by lia.
    cbn. split; [lia|reflexivity].
  - apply Z.eqb_neq in H0. cbn zeta.
    pose proof (digits_fit id "" Hid (length g) ltac:(lia)) as Hfit.
    change (len "") with 0 in Hfit. rewrite Z.add_0_l in Hfit.
    pose proof (digits_len_ge id "") as Hge0.
    assert (Hpos : 1 <= len (GenerateFromID_digits id "")).
    { rewrite GenerateFromID_digits_equation_1.
      destruct (Z_lt_dec 0 id) as [Hlt|]; [|lia]. cbn.
      pose proof (digits_len_ge (id / 62)
                    (String (index base62Chars (id mod 62)) "")) as Hge.
      unfold len in *. cbn [String.length] in *. lia. }
    pose proof (digits_alphabet id "" eq_refl) as Halpha.
    destruct (Z_le_gt_dec (len (GenerateFromID_digits id "")) (length g))
      as [Hle|Hgt].
    + destruct (GenerateFromID_pad_spec (length g) _ Hle)
        as (Hlen & zeros & Hz & Hpad).
      unfold IsValid. rewrite Hlen.
      rewrite (proj2 (Z.eqb_neq _ 0)) by lia.
      rewrite Z.gtb_ltb, Z.ltb_irrefl. cbn [orb].
      rewrite Hpad, all_bytes_app, Halpha, andb_true_r.
      split; [intros _; now apply Hfit|intros _].
      revert Hz. apply all_bytes_impl. intros c Hc.
      apply Ascii.eqb_eq in Hc. now subst.
    + rewrite GenerateFromID_pad_full by lia.
      unfold IsValid.
      rewrite Z.gtb_ltb, (proj2 (Z.ltb_lt _ _)) by lia.
      rewrite orb_true_r. split; [discriminate|].
      intros Hlt. apply Hfit in Hlt. lia.
Qed.

Lemma Decode_loop_app (a b : string) (result : Z) :
  Decode_loop (a ++ b) result = Decode_loop b (Decode_loop a result).
Proof.
  revert result. induction a as [|c a IH]; intros result; [reflexivity|].
  rewrite append_String. cbn [Decode_loop].
  destruct (Decode_value c); apply IH.
Qed.

(** X3: [Decode] skips every byte outside the alphabet, wherever it
    stands, and a leading ["0"] does not change the value: codes that
    differ in such bytes only decode to the same id. *)
Theorem Decode_skips_foreign_bytes (g : CodeGenerator) (a b : string) (c : ascii) :
  contains_byte base62Chars c = false ->
  Decode g (a ++ String c b) = Decode g (a ++ b)
  /\ Decode g (String "0" b) = Decode g b.
Proof.
  intros Hc. split; [|reflexivity].
  assert (Hnone : Decode_value c = None).
  { revert Hc. clear. destruct c as [[] [] [] [] [] [] [] []]; vm_compute;
      intros H; first [reflexivity|discriminate]. }
  unfold Decode. rewrite !Decode_loop_app. cbn [Decode_loop]. now rewrite Hnone.
Qed.

End GeneratorMore.

(** ** More on the repository *)

Section RepositoryMore.
Import gostr domain postgres.

Lemma find_app_skip {A} (cond : A -> bool) (l k : list A) :
  existsb cond l = false -> List.find cond (l ++ k) = List.find cond k.
Proof.
  induction l as [|x l IH]; [reflexivity|].
  cbn [existsb app List.find]. intros H. apply orb_false_elim in H as [Hx Hl].
  rewrite Hx. now apply IH.
Qed.

Lemma existsb_weaken {A} (strong weak : A -> bool) (l : list A) :
  (forall x, strong x = true -> weak x = true) ->
  existsb weak l = false -> existsb strong l = false.
Proof.
  intros Himp Hweak. apply existsb_no_match. intros x Hx.
  destruct (strong x) eqn:Hs; [|reflexivity].
  pose proof (proj1 (existsb_no_match_iff _ _) Hweak x Hx) as Hw.
  rewrite (Himp x Hs) in Hw. discriminate.
Qed.

Lemma active_code_has_code (shortCode : string) (u : URL) :
  active_code shortCode u = true -> has_code shortCode u = true.
Proof. unfold active_code. intros H. now apply andb_prop in H as [H _]. Qed.

(** What a successful insert has done. *)
Lemma Create_Ok_inv (db db' : DB) (now : Time) (url row : URL) :
  Create db now url = (Ok row, db') ->
  reachable db' = true /\
  List.find (active_code (ShortCode url)) (rows db') = Some row /\
  rows db' = (rows db ++ [row])%list /\
  row = inserted_row (next_id db) (stamp_created now url).
Proof.
  unfold Create, gorm_Create.
  destruct (reachable db) eqn:Hup; cbn [negb]; [|discriminate].
  destruct ((len (ShortCode (stamp_created now url)) >? 12)
            || (len (CreatorIP (stamp_created now url)) >? 45));
    [discriminate|].
  destruct (existsb (has_code (ShortCode (stamp_created now url))) (rows db))
    eqn:Hdup; [destruct (TranslateError db); discriminate|].
  intros [= <- <-]. cbn [ShortCode stamp_created] in Hdup.
  cbn [reachable rows]. repeat split.
  rewrite find_app_skip.
  - cbn [List.find]. unfold active_code, has_code.
    cbn [inserted_row stamp_created ShortCode IsActive].
    now rewrite String.eqb_refl.
  - apply (existsb_weaken _ (has_code (ShortCode url)));
      [apply active_code_has_code|exact Hdup].
Qed.

(** What a refused insert answers, and that it has done nothing. *)
Lemma Create_Fail_inv (db db' : DB) (now : Time) (url : URL) (e : error) :
  Create db now url = (Fail e, db') ->
  db' = db /\ (e = ErrShortCodeTaken \/ exists inner, e = NewInternalError inner).
Proof.
  unfold Create, gorm_Create.
  destruct (negb (reachable db)); [intros [= <- <-]; eauto|].
  destruct ((len (ShortCode (stamp_created now url)) >? 12)
            || (len (CreatorIP (stamp_created now url)) >? 45));
    [intros [= <- <-]; eauto|].
  destruct (existsb (has_code (ShortCode (stamp_created now url))) (rows db));
    [|discriminate].
  destruct (TranslateError db); intros [= <- <-]; eauto.
Qed.




Lemma find_map_settled {A} (cond : A -> bool) (f : A -> A) (l : list A) :
  (forall x, cond (f x) = cond x) ->
  (forall x, cond x = true -> f x = x) ->
  List.find cond (map f l) = List.find cond l.
Proof.
  intros Hcond Hfix. induction l as [|x l IH]; [reflexivity|].
  cbn [map List.find]. rewrite Hcond. destruct (cond x) eqn:Hx; [|exact IH].
  now rewrite Hfix.
Qed.

Lemma find_map_changed {A} (cond : A -> bool) (f : A -> A) (l : list A) :
  (forall x, cond (f x) = cond x) ->
  List.find cond (map (fun x => if cond x then f x else x) l)
  = option_map f (List.find cond l).
Proof.
  intros Hcond. induction l as [|x l IH]; [reflexivity|].
  cbn [map List.find]. destruct (cond x) eqn:Hx.
  - now rewrite Hcond, Hx.
  - now rewrite Hx.
Qed.

Lemma has_code_other (shortCode other : string) (u : URL) :
  other <> shortCode -> has_code shortCode u = true -> has_code other u = false.
Proof.
  unfold has_code. intros Hne Hc. apply String.eqb_eq in Hc.
  apply String.eqb_neq. congruence.
Qed.

Lemma FindByShortCode_rows (db : DB) (table : list URL) (shortCode : string) :
  List.find (active_code shortCode) table
  = List.find (active_code shortCode) (rows db) ->
  FindByShortCode (with_rows db table) shortCode = FindByShortCode db shortCode.
Proof.
  intros H. unfold FindByShortCode, gorm_First. cbn [with_rows reachable rows].
  now rewrite H.
Qed.

Lemma filter_length_pos {A} (cond : A -> bool) (l : list A) :
  (0 < List.length (List.filter cond l))%nat <-> existsb cond l = true.
Proof.
  induction l as [|x l IH]; cbn [List.filter existsb].
  - cbn. split; [lia|discriminate].
  - destruct (cond x); cbn [orb List.length]; [split; [reflexivity|lia]|exact IH].
Qed.

Lemma update_where_affected (cond : URL -> bool) (change : URL -> URL)
    (table : list URL) :
  (snd (update_where cond change table) =? 0) = negb (existsb cond table).
Proof.
  unfold update_where. cbn [snd].
  pose proof (filter_length_pos cond table) as H.
  destruct (existsb cond table); cbn [negb].
  - apply Z.eqb_neq. assert (0 < List.length (List.filter cond table))%nat
      by now apply H. lia.
  - apply Z.eqb_eq.
    destruct (List.length (List.filter cond table)) eqn:Hl; [reflexivity|].
    assert (false = true) by (apply H; lia). discriminate.
Qed.

Lemma existsb_update_settled {A} (cond : A -> bool) (f : A -> A) (l : list A) :
  (forall x, cond (f x) = cond x) ->
  existsb cond (map (fun x => if cond x then f x else x) l) = existsb cond l.
Proof.
  intros Hcond. induction l as [|x l IH]; [reflexivity|].
  cbn [map existsb]. rewrite IH. f_equal.
  destruct (cond x) eqn:Hx; [now rewrite Hcond|exact Hx].
Qed.

Lemma filter_update_settled {A} (cond : A -> bool) (f : A -> A) (l : list A) :
  (forall x, cond (f x) = cond x) ->
  List.length (List.filter cond (map (fun x => if cond x then f x else x) l))
  = List.length (List.filter cond l).
Proof.
  intros Hcond. induction l as [|x l IH]; [reflexivity|].
  cbn [map List.filter]. destruct (cond x) eqn:Hx.
  - rewrite Hcond, Hx. cbn [List.length]. now rewrite IH.
  - now rewrite Hx.
Qed.

Lemma FindByShortCode_none (db : DB) (shortCode : string) :
  reachable db = true ->
  (forall u, In u (rows db) -> active_code shortCode u = false) ->
  FindByShortCode db shortCode = Fail ErrURLNotFound.
Proof.
  intros Hup Hnone. unfold FindByShortCode, gorm_First. rewrite Hup. cbn [negb].
  destruct (List.find (active_code shortCode) (rows db)) as [u|] eqn:Hf;
    [|reflexivity].
  apply find_some in Hf as [Hin Hact]. rewrite (Hnone u Hin) in Hact. discriminate.
Qed.

Lemma deactivated_gone (now : Time) (shortCode : string) (table : list URL) (u : URL) :
  In u (map (fun v => if has_code shortCode v then deactivated now v else v) table) ->
  active_code shortCode u = false.
Proof.
  intros Hu. apply in_map_iff in Hu as (v & <- & _).
  unfold active_code. destruct (has_code shortCode v) eqn:Hv.
  - cbn [deactivated IsActive]. apply andb_false_r.
  - now rewrite Hv.
Qed.

(** The soft delete while the database answers. *)
Lemma Delete_reachable (db : DB) (now : Time) (shortCode : string) :
  reachable db = true ->
  postgres.Delete db now shortCode
  = (if existsb (has_code shortCode) (rows db) then None else Some ErrURLNotFound,
     with_rows db (map (fun u => if has_code shortCode u
                                 then deactivated now u else u) (rows db))).
Proof.
  intros Hup. unfold postgres.Delete. rewrite Hup. cbn [negb].
  pose proof (update_where_affected (has_code shortCode) (deactivated now) (rows db))
    as Haff.
  unfold update_where in *. cbn [snd] in Haff. rewrite Haff.
  now destruct (existsb (has_code shortCode) (rows db)).
Qed.

(** X6: while the database answers, [Delete] reports [nil] exactly
    when some row, active or not, holds the code, and [ErrURLNotFound]
    otherwise; afterwards [FindByShortCode] answers [ErrURLNotFound] and
    [ExistsByShortCode] false for the code, the lookups of every other
    code are as before, no row has been removed, and a second [Delete]
    of the code answers as the first did. *)
Theorem Delete_hides_code (db : DB) (now : Time) (shortCode : string) :
  reachable db = true ->
  let err := fst (postgres.Delete db now shortCode) in
  let db' := snd (postgres.Delete db now shortCode) in
  (err = None <-> exists u, In u (rows db) /\ ShortCode u = shortCode) /\
  (err <> None -> err = Some ErrURLNotFound) /\
  FindByShortCode db' shortCode = Fail ErrURLNotFound /\
  ExistsByShortCode db' shortCode = Ok false /\
  (forall other, other <> shortCode ->
     FindByShortCode db' other = FindByShortCode db other) /\
  List.length (rows db') = List.length (rows db) /\
  fst (postgres.Delete db' now shortCode) = err.
Proof.
  intros Hup. cbv zeta. rewrite (Delete_reachable db now shortCode Hup).
  cbn [fst snd].
  set (table := map _ (rows db)).
  assert (Hgone : forall u, In u table -> active_code shortCode u = false)
    by apply deactivated_gone.
  assert (Hkeep : existsb (has_code shortCode) table
                  = existsb (has_code shortCode) (rows db)).
  { apply existsb_update_settled. reflexivity. }
  split; [|split; [|split; [|split; [|split; [|split]]]]].
  - split.
    + destruct (existsb (has_code shortCode) (rows db)) eqn:Hex;
        [intros _|discriminate].
      apply existsb_exists in Hex as (u & Hu & Hc). apply String.eqb_eq in Hc. eauto.
    + intros (u & Hu & Hc).
      assert (Hex : existsb (has_code shortCode) (rows db) = true).
      { apply existsb_exists. exists u. split; [exact Hu|]. now apply String.eqb_eq. }
      now rewrite Hex.
  - destruct (existsb (has_code shortCode) (rows db)); intros H;
      [now elim H|reflexivity].
  - apply FindByShortCode_none; [exact Hup|exact Hgone].
  - apply ExistsByShortCode_false; [exact Hup|exact Hgone].
  - intros other Hne. apply FindByShortCode_rows. unfold table.
    apply find_map_settled.
    + intros u. destruct (has_code shortCode u) eqn:Hu; [|reflexivity].
      unfold active_code.
      change (has_code other (deactivated now u)) with (has_code other u).
      now rewrite (has_code_other shortCode other u Hne Hu).
    + intros u Hu. apply active_code_has_code in Hu.
      destruct (has_code shortCode u) eqn:Hc; [|reflexivity].
      rewrite (has_code_other shortCode other u Hne Hc) in Hu. discriminate.
  - cbn [with_rows rows]. unfold table. apply length_map.
  - rewrite (Delete_reachable (with_rows db table) now shortCode Hup).
    cbn [fst with_rows rows]. now rewrite Hkeep.
Qed.

Lemma active_code_clicked (shortCode : string) (now : Time) (u : URL) :
  active_code shortCode (clicked now u) = active_code shortCode u.
Proof. reflexivity. Qed.

Lemma FindByShortCode_Ok (db : DB) (shortCode : string) (u : URL) :
  FindByShortCode db shortCode = Ok u <->
  reachable db = true /\ List.find (active_code shortCode) (rows db) = Some u.
Proof.
  unfold FindByShortCode, gorm_First.
  destruct (reachable db); cbn [negb is_ErrRecordNotFound connection_failure].
  - destruct (List.find _ _) as [v|]; cbn [is_ErrRecordNotFound].
    + split; [now intros [= ->]|now intros [_ [= ->]]].
    + split; [discriminate|now intros [_ H]].
  - split; [discriminate|now intros [H _]].
Qed.

(** One increment of an active code whose counters have room. *)
Lemma IncrementClickCount_once (db : DB) (now : Time) (shortCode : string)
    (u : URL) :
  FindByShortCode db shortCode = Ok u ->
  (forall v, In v (rows db) -> active_code shortCode v = true ->
             ClickCount v < max_int64) ->
  let db' := with_rows db (map (fun v => if active_code shortCode v
                                         then clicked now v else v) (rows db)) in
  IncrementClickCount db now shortCode = (None, db') /\
  FindByShortCode db' shortCode = Ok (clicked now u).
Proof.
  intros Hfind Hroom. apply FindByShortCode_Ok in Hfind as [Hup Hfind].
  cbv zeta. split.
  - unfold IncrementClickCount. rewrite Hup. cbn [negb].
    rewrite existsb_no_match.
    2:{ intros v Hv. destruct (active_code shortCode v) eqn:Hact; [|reflexivity].
        cbn [andb]. rewrite Z.geb_leb. apply Z.leb_gt. now apply Hroom. }
    pose proof (update_where_affected (active_code shortCode) (clicked now) (rows db))
      as Haff.
    unfold update_where in *. cbn [snd] in Haff. rewrite Haff.
    assert (Hex : existsb (active_code shortCode) (rows db) = true).
    { apply find_some in Hfind as [Hin Hact]. apply existsb_exists. eauto. }
    rewrite Hex. reflexivity.
  - apply FindByShortCode_Ok. cbn [with_rows reachable rows]. split; [exact Hup|].
    rewrite find_map_changed by (intros v; apply active_code_clicked).
    now rewrite Hfind.
Qed.

(** X7: [n] calls of [IncrementClickCount] on a code that the table
    resolves, whose counters stay within [BIGINT], leave the code
    resolving to the same record (id, target, expiry) with exactly [n]
    clicks more. *)
Theorem IncrementClickCount_adds (n : nat) (db : DB) (now : Time)
    (shortCode : string) (u : URL) :
  FindByShortCode db shortCode = Ok u ->
  (forall v, In v (rows db) -> active_code shortCode v = true ->
             ClickCount v + Z.of_nat n <= max_int64) ->
  let db' := Nat.iter n (fun d => snd (IncrementClickCount d now shortCode)) db in
  exists u', FindByShortCode db' shortCode = Ok u' /\
             ClickCount u' = ClickCount u + Z.of_nat n /\
             ID u' = ID u /\ OriginalURL u' = OriginalURL u /\
             ExpiresAt u' = ExpiresAt u /\
             (forall v', In v' (rows db') -> active_code shortCode v' = true ->
                         exists v, In v (rows db) /\ active_code shortCode v = true /\
                                   ClickCount v' = ClickCount v + Z.of_nat n).
Proof.
  cbv zeta. set (f := fun d => snd (IncrementClickCount d now shortCode)).
  induction n as [|n IH]; intros Hfind Hroom.
  - change (Nat.iter 0 f db) with db. exists u. rewrite Z.add_0_r.
    repeat split; try assumption; try reflexivity.
    intros v' Hv' Hact. exists v'. rewrite Z.add_0_r. auto.
  - change (Nat.iter (S n) f db) with (f (Nat.iter n f db)).
    destruct IH as (u1 & Hf1 & Hc1 & Hid & Htarget & Hexp & Hrows).
    { exact Hfind. }
    { intros v Hv Hact. specialize (Hroom v Hv Hact). lia. }
    set (d := Nat.iter n f db) in *. unfold f at 1 2.
    destruct (IncrementClickCount_once d now shortCode u1 Hf1) as [Hstep Hf2].
    { intros v' Hv' Hact. destruct (Hrows v' Hv' Hact) as (v & Hv & Hact0 & Hc).
      specialize (Hroom v Hv Hact0). lia. }
    rewrite Hstep. cbn [snd]. exists (clicked now u1).
    split; [exact Hf2|]. cbn [clicked ClickCount ID OriginalURL ExpiresAt].
    repeat split; try assumption; try lia.
    intros v' Hv' Hact. cbn [with_rows rows] in Hv'.
    apply in_map_iff in Hv' as (v1 & <- & Hv1).
    destruct (active_code shortCode v1) eqn:Hact1.
    + destruct (Hrows v1 Hv1 Hact1) as (v & Hv & Hact0 & Hc).
      exists v. repeat split; try assumption. cbn [clicked ClickCount]. lia.
    + rewrite Hact1 in Hact. discriminate.
Qed.

Lemma past_expiry_IsExpired (u : URL) (now : Time) :
  IsExpired u now = past_expiry now u.
Proof.
  unfold IsExpired, past_expiry. destruct (ExpiresAt u); [|reflexivity].
  now rewrite Z.gtb_ltb.
Qed.

(** X8: while the database answers, [DeleteExpired] reports the number
    of rows whose expiry lies before [now], inactive rows included;
    afterwards no active row is expired at [now], every row that was not
    expired is still there unchanged, and a second sweep at the same
    instant reports the same number again. *)
Theorem DeleteExpired_sweeps (db : DB) (now : Time) :
  reachable db = true ->
  let db' := snd (DeleteExpired db now) in
  fst (DeleteExpired db now)
    = Ok (Z.of_nat (List.length (List.filter (past_expiry now) (rows db)))) /\
  (forall u, In u (rows db') -> IsActive u = true -> IsExpired u now = false) /\
  (forall u, In u (rows db) -> IsExpired u now = false -> In u (rows db')) /\
  fst (DeleteExpired db' now) = fst (DeleteExpired db now).
Proof.
  intros Hup. unfold DeleteExpired. rewrite Hup. cbn [negb].
  unfold update_where. cbn [fst snd with_rows rows reachable].
  rewrite Hup. cbn [negb fst].
  repeat split.
  - intros u Hu Hact. apply in_map_iff in Hu as (v & <- & _).
    rewrite past_expiry_IsExpired.
    destruct (past_expiry now v) eqn:Hv; [discriminate Hact|exact Hv].
  - intros u Hu Hlive. apply in_map_iff. exists u. split; [|exact Hu].
    rewrite past_expiry_IsExpired in Hlive. now rewrite Hlive.
  - now rewrite filter_update_settled.
Qed.

Lemma FindByShortCode_Fail (db : DB) (shortCode : string) (e : error) :
  FindByShortCode db shortCode = Fail e ->
  e = ErrURLNotFound \/ exists inner, e = NewInternalError inner.
Proof.
  unfold FindByShortCode.
  destruct (gorm_First db (active_code shortCode)) as [err|url]; [|discriminate].
  destruct (is_ErrRecordNotFound err); intros [= <-]; eauto.
Qed.

Lemma Delete_Some (db db' : DB) (now : Time) (shortCode : string) (e : error) :
  postgres.Delete db now shortCode = (Some e, db') ->
  e = ErrURLNotFound \/ exists inner, e = NewInternalError inner.
Proof.
  unfold postgres.Delete. destruct (negb (reachable db)); [intros [= <- _]; eauto|].
  unfold update_where. destruct (_ =? 0); [intros [= <- _]; auto|discriminate].
Qed.

End RepositoryMore.

(** ** What every run of the engine keeps *)

Section EngineFacts.
Import gostr domain postgres service engine.

Context (ValidateURL : string -> option validator.ValidationError)
        (NormalizeURL : string -> string)
        (rand_Reader : shortener.entropy).

Lemma evolves_refl (u : URL) : evolves u u.
Proof. unfold evolves. repeat split; try reflexivity; auto; lia. Qed.

Lemma evolves_trans (u v w : URL) : evolves u v -> evolves v w -> evolves u w.
Proof.
  unfold evolves.
  intros (? & ? & ? & ? & ? & ? & ? & ? & ?) (? & ? & ? & ? & ? & ? & ? & ? & ?).
  repeat split; try congruence; try lia; auto.
Qed.

Lemma evolves_clicked (now : Time) (u : URL) : evolves u (clicked now u).
Proof. unfold evolves. cbn. repeat split; auto; lia. Qed.

Lemma evolves_deactivated (now : Time) (u : URL) : evolves u (deactivated now u).
Proof. unfold evolves. cbn. repeat split; auto; lia. Qed.

Lemma advances_refl (db : DB) : advances db db.
Proof.
  left. exists (fun u => u). rewrite map_id.
  repeat split; try reflexivity. apply evolves_refl.
Qed.

Lemma advances_update (db : DB) (cond : URL -> bool) (change : URL -> URL) :
  (forall u, evolves u (change u)) ->
  advances db (with_rows db (fst (update_where cond change (rows db)))).
Proof.
  intros Hev. left. exists (fun u => if cond u then change u else u).
  repeat split; try reflexivity.
  all: destruct (cond u); [apply Hev|apply evolves_refl].
Qed.

Lemma advances_Create (db : DB) (now : Time) (url : URL) :
  advances db (snd (Create db now url)).
Proof.
  unfold Create, gorm_Create.
  destruct (negb (reachable db)); [apply advances_refl|].
  destruct ((len (ShortCode (stamp_created now url)) >? 12)
            || (len (CreatorIP (stamp_created now url)) >? 45)) eqn:Hfit;
    [apply advances_refl|].
  destruct (existsb (has_code (ShortCode (stamp_created now url))) (rows db))
    eqn:Hdup; [destruct (TranslateError db); apply advances_refl|].
  cbn [snd]. right. eexists. cbn [rows next_id].
  split; [reflexivity|]. split; [reflexivity|]. split; [reflexivity|].
  cbn [inserted_row stamp_created ShortCode] in *.
  apply orb_false_elim in Hfit as [Hfit _]. rewrite Z.gtb_ltb in Hfit.
  apply Z.ltb_ge in Hfit. split; [exact Hfit|].
  intros u Hu Heq.
  pose proof (proj1 (existsb_no_match_iff _ _) Hdup u Hu) as Hno.
  unfold has_code in Hno. rewrite Heq, String.eqb_refl in Hno. discriminate.
Qed.

Lemma advances_Delete (db : DB) (now : Time) (shortCode : string) :
  advances db (snd (postgres.Delete db now shortCode)).
Proof.
  unfold postgres.Delete. destruct (negb (reachable db)); [apply advances_refl|].
  rewrite (surjective_pairing (update_where _ _ _)).
  destruct (_ =? 0); cbn [snd]; apply advances_update, evolves_deactivated.
Qed.

Lemma advances_IncrementClickCount (db : DB) (now : Time) (shortCode : string) :
  advances db (snd (IncrementClickCount db now shortCode)).
Proof.
  unfold IncrementClickCount.
  destruct (negb (reachable db)); [apply advances_refl|].
  destruct (existsb _ (rows db)); [apply advances_refl|].
  rewrite (surjective_pairing (update_where _ _ _)).
  destruct (_ =? 0); cbn [snd]; apply advances_update, evolves_clicked.
Qed.

Lemma advances_DeleteExpired (db : DB) (now : Time) :
  advances db (snd (DeleteExpired db now)).
Proof.
  unfold DeleteExpired. destruct (negb (reachable db)); [apply advances_refl|].
  rewrite (surjective_pairing (update_where _ _ _)). cbn [snd].
  apply advances_update, evolves_deactivated.
Qed.

(** The search for a free code reads the table and the entropy, and
    writes nothing. *)
Lemma generateUniqueShortCode_loop_frame (s : urlService) (todo : nat) (w : World) :
  let w' := snd (generateUniqueShortCode_loop rand_Reader s todo w) in
  repo w' = repo w /\ cache w' = cache w /\ spawned w' = spawned w.
Proof.
  cbv zeta. revert w. induction todo as [|todo IH]; intros w.
  - cbn. auto.
  - cbn [generateUniqueShortCode_loop].
    destruct (shortener.Generate _ _ _) as [shortCode k].
    destruct (ExistsByShortCode _ _) as [[|]|err]; cbn [negb snd]; auto.
    destruct (IH (with_entropy_pos w k)) as (-> & -> & ->). auto.
Qed.

Lemma cache_seed_frame (s : urlService) (w : World) (key value : string) :
  repo (cache_seed s w key value) = repo w /\
  spawned (cache_seed s w key value) = spawned w /\
  entropy_pos (cache_seed s w key value) = entropy_pos w.
Proof. unfold cache_seed. now destruct (cache w). Qed.

Lemma advances_ShortenURL_create (s : urlService) (now : Time)
    (req : CreateURLRequest) (clientIP normalizedURL : string) (w : World) :
  advances (repo w)
    (repo (snd (ShortenURL_create rand_Reader s now req clientIP normalizedURL w))).
Proof.
  unfold ShortenURL_create.
  assert (Hstore : forall (url : URL) shortCode (w1 : World), repo w1 = repo w ->
            advances (repo w)
              (repo (snd (match Create (repo w1) now url with
                          | (Fail err, db) => (Fail err, with_repo w1 db)
                          | (Ok row, db) =>
                              (Ok (buildResponse s row),
                               cache_seed s (with_repo w1 db) shortCode normalizedURL)
                          end)))).
  { intros url shortCode w1 Hrepo.
    pose proof (advances_Create (repo w1) now url) as Hadv.
    destruct (Create (repo w1) now url) as [[row|err] db]; cbn [snd] in *.
    - destruct (cache_seed_frame s (with_repo w1 db) shortCode normalizedURL)
        as (-> & _). now rewrite <- Hrepo.
    - now rewrite <- Hrepo. }
  destruct (negb (req_CustomAlias req =? "")%string).
  - destruct (negb (validator.ValidateShortCode (req_CustomAlias req)));
      [apply advances_refl|].
    destruct (ExistsByShortCode (repo w) (req_CustomAlias req)) as [[|]|err];
      try apply advances_refl.
    cbv zeta. now apply Hstore.
  - unfold generateUniqueShortCode.
    pose proof (generateUniqueShortCode_loop_frame s maxRetries w) as (Hrepo & _).
    cbv zeta in Hrepo.
    destruct (generateUniqueShortCode_loop rand_Reader s maxRetries w)
      as [[shortCode|err] w1]; cbn [snd] in Hrepo.
    + cbv zeta. now apply Hstore.
    + cbn [snd]. rewrite Hrepo. apply advances_refl.
Qed.

Lemma advances_ShortenURL (s : urlService) (now : Time)
    (req : CreateURLRequest) (clientIP : string) (w : World) :
  advances (repo w)
    (repo (snd (ShortenURL ValidateURL NormalizeURL rand_Reader s now req clientIP w))).
Proof.
  unfold ShortenURL. destruct (ValidateURL _); [apply advances_refl|].
  destruct (FindByOriginalURL _ _) as [existingURL|err];
    [|apply advances_ShortenURL_create].
  destruct (negb (IsExpired existingURL now));
    [apply advances_refl|apply advances_ShortenURL_create].
Qed.

Lemma advances_GetOriginalURL (s : urlService) (now : Time) (shortCode : string)
    (w : World) :
  advances (repo w) (repo (snd (GetOriginalURL s now shortCode w))).
Proof.
  unfold GetOriginalURL. destruct (cache_hit w shortCode); [apply advances_refl|].
  destruct (FindByShortCode _ _) as [url|err]; [|apply advances_refl].
  destruct (IsExpired url now); [apply advances_refl|].
  pose proof (advances_IncrementClickCount (repo w) now shortCode) as Hadv.
  destruct (IncrementClickCount (repo w) now shortCode) as [err db].
  cbn [snd] in *.
  now destruct (cache_seed_frame s (with_repo w db) shortCode (OriginalURL url))
    as (-> & _).
Qed.

Lemma advances_DeleteURL (s : urlService) (now : Time) (shortCode : string)
    (w : World) :
  advances (repo w) (repo (snd (DeleteURL s now shortCode w))).
Proof.
  unfold DeleteURL.
  pose proof (advances_Delete (repo w) now shortCode) as Hadv.
  destruct (postgres.Delete (repo w) now shortCode) as [[err|] db];
    cbn [snd] in *; [exact Hadv|].
  now destruct (cache (with_repo w db)).
Qed.

Lemma advances_run_spawned (now : Time) (w : World) :
  advances (repo w) (repo (run_spawned now w)).
Proof.
  unfold run_spawned. destruct (spawned w) as [|shortCode pending];
    [apply advances_refl|].
  pose proof (advances_IncrementClickCount (repo w) now shortCode) as Hadv.
  now destruct (IncrementClickCount (repo w) now shortCode) as [err db].
Qed.

Lemma advances_step (s : urlService) (w : World) (e : event) :
  advances (repo w) (repo (step ValidateURL NormalizeURL rand_Reader s w e)).
Proof.
  destruct e; cbn [step].
  - apply advances_ShortenURL.
  - apply advances_GetOriginalURL.
  - apply advances_DeleteURL.
  - apply advances_run_spawned.
  - apply advances_DeleteExpired.
  - left. exists (fun u => u). cbn [repo db_connectivity rows next_id].
    rewrite map_id. repeat split; try reflexivity. apply evolves_refl.
Qed.

Lemma advances_well_kept (db db' : DB) :
  advances db db' -> well_kept db -> well_kept db'.
Proof.
  intros [(change & Hrows & Hnext & Hev)|(row & Hrows & Hnext & Hid & Hfit & Hfree)]
         (Hdup & Hall & Hasc); unfold well_kept; rewrite Hrows, Hnext.
  - assert (Hcodes : map ShortCode (map change (rows db)) = map ShortCode (rows db)).
    { rewrite map_map. apply map_ext. intros u. now destruct (Hev u) as (_ & -> & _). }
    rewrite Hcodes. split; [exact Hdup|]. split.
    + apply Forall_map. eapply Forall_impl; [exact Hall|].
      intros u [Hlen Hlt]. cbn beta.
      destruct (Hev u) as (-> & -> & _). auto.
    + intros i j u v Hi Hj Hij. rewrite list_lookup_fmap in Hi, Hj.
      destruct (rows db !! i) as [u0|] eqn:Hi0; [|discriminate].
      destruct (rows db !! j) as [v0|] eqn:Hj0; [|discriminate].
      cbn in Hi, Hj. injection Hi as <-. injection Hj as <-.
      destruct (Hev u0) as (-> & _). destruct (Hev v0) as (-> & _).
      now apply (Hasc i j).
  - split; [|split].
    + rewrite map_app. cbn [map]. apply NoDup_app. split; [exact Hdup|].
      split; [|apply NoDup_singleton].
      intros c Hc Hin. apply list_elem_of_In in Hc.
      apply in_map_iff in Hc as (u & <- & Hu).
      apply list_elem_of_singleton in Hin. now elim (Hfree u Hu).
    + apply Forall_app. split.
      * eapply Forall_impl; [exact Hall|]. intros u [Hlen Hlt]. cbn beta. lia.
      * apply Forall_singleton. lia.
    + intros i j u v Hi Hj Hij.
      apply lookup_app_Some in Hj as [Hj|[Hlen Hj]].
      * assert (Hi' : rows db !! i = Some u).
        { apply lookup_lt_Some in Hj. rewrite lookup_app_l in Hi by lia. exact Hi. }
        now apply (Hasc i j).
      * apply list_lookup_singleton_Some in Hj as [Hj <-].
        rewrite lookup_app_l in Hi by lia.
        apply list_elem_of_lookup_2 in Hi.
        rewrite Forall_forall in Hall.
        destruct (Hall u Hi) as [_ Hlt]. lia.
Qed.

Lemma continues_refl (table : list URL) : continues table table.
Proof.
  exists table, []. rewrite app_nil_r. split; [reflexivity|].
  induction table; constructor; auto using evolves_refl.
Qed.

Lemma continues_trans (a b c : list URL) :
  continues a b -> continues b c -> continues a c.
Proof.
  intros (kept1 & added1 & -> & H1) (kept2 & added2 & -> & H2).
  apply Forall2_app_inv_l in H2 as (k1 & k2 & Hk1 & Hk2 & ->).
  exists k1, (k2 ++ added2)%list. rewrite app_assoc. split; [reflexivity|].
  clear Hk2. revert k1 Hk1. induction H1 as [|u v a kept1 Huv H1 IH]; intros k1 Hk1.
  - inversion Hk1. constructor.
  - inversion Hk1 as [|v' w' ? k1' Hvw Hrest]; subst. constructor.
    + eapply evolves_trans; eassumption.
    + now apply IH.
Qed.

Lemma advances_continues (db db' : DB) :
  advances db db' -> continues (rows db) (rows db').
Proof.
  intros [(change & Hrows & _ & Hev)|(row & Hrows & _)].
  - exists (rows db'), []. rewrite app_nil_r. split; [reflexivity|].
    rewrite Hrows. clear Hrows.
    induction (rows db); cbn [map]; constructor; auto.
  - exists (rows db), [row]. split; [exact Hrows|].
    clear Hrows. induction (rows db); constructor; auto using evolves_refl.
Qed.

(** X9: whatever sequence of shorten, resolve, delete, click
    accounting, sweep and connectivity events the engine goes through,
    the table keeps what the schema declares: no two rows share a code,
    every code fits [VARCHAR(12)], and the ids ascend in the order of the
    rows, below the sequence. *)
Theorem run_well_kept (s : urlService) (w : World) (events : list event) :
  well_kept (repo w) ->
  well_kept (repo (run ValidateURL NormalizeURL rand_Reader s w events)).
Proof.
  unfold run. revert w. induction events as [|e events IH]; intros w Hw;
    [exact Hw|].
  cbn [fold_left]. apply IH.
  eapply advances_well_kept; [apply advances_step|exact Hw].
Qed.

(** X10: over any sequence of events no row is ever removed or moved:
    every row stays in place with the same id, code, target, creation
    time, expiry, creator address and alias flag, its clicks never go
    down, an inactive row never becomes active again, and new rows only
    come behind. *)
Theorem run_continues (s : urlService) (w : World) (events : list event) :
  continues (rows (repo w))
    (rows (repo (run ValidateURL NormalizeURL rand_Reader s w events))).
Proof.
  unfold run. revert w. induction events as [|e events IH]; intros w;
    [apply continues_refl|].
  cbn [fold_left]. eapply continues_trans; [|apply IH].
  apply advances_continues, advances_step.
Qed.

End EngineFacts.

(** ** More on the service *)

Section ServiceMore.
Import gostr domain postgres service engine.

Context (ValidateURL : string -> option validator.ValidationError)
        (NormalizeURL : string -> string)
        (rand_Reader : shortener.entropy).

(** What a successful creation has done. *)
Lemma ShortenURL_create_Ok (s : urlService) (now : Time) (req : CreateURLRequest)
    (clientIP normalizedURL : string) (w w1 : World) (resp : CreateURLResponse) :
  ShortenURL_create rand_Reader s now req clientIP normalizedURL w = (Ok resp, w1) ->
  exists (w0 : World) (url row : URL) (db : DB),
    repo w0 = repo w /\ cache w0 = cache w /\ spawned w0 = spawned w /\
    OriginalURL url = normalizedURL /\
    Create (repo w) now url = (Ok row, db) /\
    w1 = cache_seed s (with_repo w0 db) (ShortCode url) normalizedURL /\
    resp = buildResponse s row.
Proof.
  unfold ShortenURL_create.
  assert (Hstore : forall (url : URL) (w0 : World),
            repo w0 = repo w -> cache w0 = cache w -> spawned w0 = spawned w ->
            OriginalURL url = normalizedURL ->
            match Create (repo w0) now url with
            | (Fail err, db) => (Fail err, with_repo w0 db)
            | (Ok row, db) =>
                (Ok (buildResponse s row),
                 cache_seed s (with_repo w0 db) (ShortCode url) normalizedURL)
            end = (Ok resp, w1) ->
            exists (w0 : World) (url row : URL) (db : DB),
              repo w0 = repo w /\ cache w0 = cache w /\ spawned w0 = spawned w /\
              OriginalURL url = normalizedURL /\
              Create (repo w) now url = (Ok row, db) /\
              w1 = cache_seed s (with_repo w0 db) (ShortCode url) normalizedURL /\
              resp = buildResponse s row).
  { intros url w0 Hrepo Hcache Hspawned Htarget. rewrite Hrepo.
    destruct (Create (repo w) now url) as [[row|err] db] eqn:Hcreate;
      [|discriminate].
    intros [= <- <-]. exists w0, url, row, db. auto 10. }
  destruct (negb (req_CustomAlias req =? "")%string).
  - destruct (negb (validator.ValidateShortCode (req_CustomAlias req)));
      [discriminate|].
    destruct (ExistsByShortCode (repo w) (req_CustomAlias req)) as [[|]|err];
      try discriminate.
    cbv zeta. now apply Hstore.
  - unfold generateUniqueShortCode.
    pose proof (generateUniqueShortCode_loop_frame rand_Reader s maxRetries w)
      as (Hrepo & Hcache & Hspawned).
    destruct (generateUniqueShortCode_loop rand_Reader s maxRetries w)
      as [[shortCode|err] w0]; cbn [snd] in *; [|discriminate].
    cbv zeta. now apply Hstore.
Qed.

(** What a failed creation answers, and that it has written nothing. *)
Lemma ShortenURL_create_Fail (s : urlService) (now : Time) (req : CreateURLRequest)
    (clientIP normalizedURL : string) (w w1 : World) (e : error) :
  ShortenURL_create rand_Reader s now req clientIP normalizedURL w = (Fail e, w1) ->
  repo w1 = repo w /\ cache w1 = cache w /\ spawned w1 = spawned w /\
  (e = NewValidationError "Custom alias contains invalid characters" \/
   e = ErrShortCodeTaken \/ exists inner, e = NewInternalError inner).
Proof.
  unfold ShortenURL_create.
  assert (Hstore : forall (url : URL) (shortCode : string) (w0 : World),
            repo w0 = repo w -> cache w0 = cache w -> spawned w0 = spawned w ->
            match Create (repo w0) now url with
            | (Fail err, db) => (Fail err, with_repo w0 db)
            | (Ok row, db) =>
                (Ok (buildResponse s row),
                 cache_seed s (with_repo w0 db) shortCode normalizedURL)
            end = (Fail e, w1) ->
            repo w1 = repo w /\ cache w1 = cache w /\ spawned w1 = spawned w /\
            (e = NewValidationError "Custom alias contains invalid characters" \/
             e = ErrShortCodeTaken \/ exists inner, e = NewInternalError inner)).
  { intros url shortCode w0 Hrepo Hcache Hspawned.
    destruct (Create (repo w0) now url) as [[row|err] db] eqn:Hcreate;
      [discriminate|].
    apply Create_Fail_inv in Hcreate as [-> Herr].
    intros [= <- <-]. cbn [with_repo repo cache spawned]. tauto. }
  destruct (negb (req_CustomAlias req =? "")%string).
  - destruct (negb (validator.ValidateShortCode (req_CustomAlias req)));
      [intros [= <- <-]; repeat split; auto|].
    destruct (ExistsByShortCode (repo w) (req_CustomAlias req)) as [[|]|err].
    + intros [= <- <-]. repeat split; auto.
    + cbv zeta. now apply Hstore.
    + intros [= <- <-]. repeat split; eauto.
  - unfold generateUniqueShortCode.
    pose proof (generateUniqueShortCode_loop_frame rand_Reader s maxRetries w)
      as (Hrepo & Hcache & Hspawned).
    destruct (generateUniqueShortCode_loop rand_Reader s maxRetries w)
      as [[shortCode|err] w0]; cbn [snd] in *.
    + cbv zeta. now apply Hstore.
    + intros [= <- <-]. repeat split; eauto.
Qed.

(** The cases of a shorten that fails. *)
Lemma ShortenURL_Fail (s : urlService) (now : Time) (req : CreateURLRequest)
    (clientIP : string) (w w1 : World) (e : error) :
  ShortenURL ValidateURL NormalizeURL rand_Reader s now req clientIP w
  = (Fail e, w1) ->
  repo w1 = repo w /\ cache w1 = cache w /\ spawned w1 = spawned w /\
  (e = NewValidationError "Invalid URL format" \/
   e = NewValidationError "Custom alias contains invalid characters" \/
   e = ErrShortCodeTaken \/ exists inner, e = NewInternalError inner).
Proof.
  unfold ShortenURL.
  destruct (ValidateURL _); [intros [= <- <-]; repeat split; auto|].
  assert (Hcreate :
            ShortenURL_create rand_Reader s now req clientIP
              (NormalizeURL (req_URL req)) w = (Fail e, w1) ->
            repo w1 = repo w /\ cache w1 = cache w /\ spawned w1 = spawned w /\
            (e = NewValidationError "Invalid URL format" \/
             e = NewValidationError "Custom alias contains invalid characters" \/
             e = ErrShortCodeTaken \/ exists inner, e = NewInternalError inner)).
  { intros H. apply ShortenURL_create_Fail in H. tauto. }
  cbv zeta. destruct (FindByOriginalURL _ _) as [existingURL|err]; [|exact Hcreate].
  destruct (negb (IsExpired existingURL now)); [discriminate|exact Hcreate].
Qed.

(** X11: a [ShortenURL] that fails has written nothing: the table, the
    cache and the pending goroutines are as before; and its error is the
    validation error of the URL, the validation error of the alias,
    [ErrShortCodeTaken], or an internal error. *)
Theorem ShortenURL_failure_writes_nothing (s : urlService) (now : Time)
    (req : CreateURLRequest) (clientIP : string) (w w1 : World) (e : error) :
  ShortenURL ValidateURL NormalizeURL rand_Reader s now req clientIP w
  = (Fail e, w1) ->
  repo w1 = repo w /\ cache w1 = cache w /\ spawned w1 = spawned w /\
  (e = NewValidationError "Invalid URL format" \/
   e = NewValidationError "Custom alias contains invalid characters" \/
   e = ErrShortCodeTaken \/ exists inner, e = NewInternalError inner).
Proof. apply ShortenURL_Fail. Qed.

Lemma unique_code_row (table : list URL) (u v : URL) :
  NoDup (map ShortCode table) -> In u table -> In v table ->
  ShortCode u = ShortCode v -> u = v.
Proof.
  induction table as [|x table IH]; [intros _ []|].
  cbn [map]. intros Hdup Hu Hv Hcode. apply NoDup_cons in Hdup as [Hx Hdup].
  assert (Hfresh : forall y, In y table -> ShortCode y <> ShortCode x).
  { intros y Hy Heq. apply Hx. rewrite <- Heq. apply list_elem_of_In.
    now apply in_map. }
  destruct Hu as [<-|Hu], Hv as [<-|Hv]; auto.
  - now elim (Hfresh v Hv).
  - now elim (Hfresh u Hu).
Qed.

Lemma FindByOriginalURL_Ok (db : DB) (originalURL : string) (u : URL) :
  FindByOriginalURL db originalURL = Ok u ->
  reachable db = true /\ In u (rows db) /\ IsActive u = true /\
  OriginalURL u = originalURL.
Proof.
  unfold FindByOriginalURL, gorm_First.
  destruct (reachable db); cbn [negb is_ErrRecordNotFound connection_failure];
    [|discriminate].
  destruct (List.find _ _) as [v|] eqn:Hfind; cbn [is_ErrRecordNotFound];
    [|discriminate].
  intros [= ->]. apply find_some in Hfind as [Hin Hact].
  unfold active_target in Hact. apply andb_prop in Hact as [Ht Ha].
  apply String.eqb_eq in Ht. auto.
Qed.

(** The first active row of a code is the only row of the code. *)
Lemma FindByShortCode_unique (db : DB) (u : URL) :
  NoDup (map ShortCode (rows db)) -> reachable db = true ->
  In u (rows db) -> IsActive u = true ->
  FindByShortCode db (ShortCode u) = Ok u.
Proof.
  intros Hdup Hup Hin Hact. apply FindByShortCode_Ok. split; [exact Hup|].
  destruct (List.find (active_code (ShortCode u)) (rows db)) as [v|] eqn:Hfind.
  - apply find_some in Hfind as [Hv Hcode]. apply active_code_has_code in Hcode.
    apply String.eqb_eq in Hcode. f_equal.
    now apply (unique_code_row (rows db)).
  - pose proof (find_none _ _ Hfind u Hin) as Hno. unfold active_code, has_code in Hno.
    now rewrite String.eqb_refl, Hact in Hno.
Qed.

Lemma not_expired (u : URL) (later : Time) :
  match ExpiresAt u with Some expiresAt => later <= expiresAt | None => True end ->
  IsExpired u later = false.
Proof.
  unfold IsExpired. destruct (ExpiresAt u); [|reflexivity].
  intros H. rewrite Z.gtb_ltb. now apply Z.ltb_ge.
Qed.

(** A lookup in the table that finds a live row answers with its
    target, whatever becomes of the accounting. *)
Lemma GetOriginalURL_from_table (s : urlService) (later : Time)
    (shortCode : string) (w : World) (u : URL) :
  cache_hit w shortCode = None ->
  FindByShortCode (repo w) shortCode = Ok u ->
  IsExpired u later = false ->
  fst (GetOriginalURL s later shortCode w) = Ok (OriginalURL u).
Proof.
  intros Hmiss Hfind Hlive. unfold GetOriginalURL.
  rewrite Hmiss, Hfind, Hlive.
  now destruct (IncrementClickCount (repo w) later shortCode).
Qed.

(** X12: when [ShortenURL] succeeds on a table with unique codes, the
    response carries the normalized target and the short URL
    [BaseURL/code]; and, the cache not answering for the code beforehand,
    [GetOriginalURL] on the code of the response returns that normalized
    target at every instant that is not past the expiry of the response. *)
Theorem ShortenURL_then_GetOriginalURL (s : urlService) (now later : Time)
    (req : CreateURLRequest) (clientIP : string) (w : World)
    (resp : CreateURLResponse) :
  let result :=
    ShortenURL ValidateURL NormalizeURL rand_Reader s now req clientIP w in
  well_kept (repo w) ->
  fst result = Ok resp ->
  cache_hit w (resp_ShortCode resp) = None ->
  match resp_ExpiresAt resp with
  | Some expiresAt => later <= expiresAt
  | None => True
  end ->
  resp_OriginalURL resp = NormalizeURL (req_URL req) /\
  resp_ShortURL resp = BaseURL (cfg s) ++ "/" ++ resp_ShortCode resp /\
  fst (GetOriginalURL s later (resp_ShortCode resp) (snd result))
  = Ok (NormalizeURL (req_URL req)).
Proof.
  cbv zeta. intros (Hdup & _) Hok Hmiss Hlive.
  destruct (ShortenURL _ _ _ s now req clientIP w) as [res w1] eqn:Hrun.
  cbn [fst snd] in *. subst res. revert Hrun. unfold ShortenURL.
  destruct (ValidateURL _); [discriminate|]. cbv zeta.
  set (normalizedURL := NormalizeURL (req_URL req)).
  assert (Hcreate :
            ShortenURL_create rand_Reader s now req clientIP normalizedURL w
            = (Ok resp, w1) ->
            resp_OriginalURL resp = normalizedURL /\
            resp_ShortURL resp = BaseURL (cfg s) ++ "/" ++ resp_ShortCode resp /\
            fst (GetOriginalURL s later (resp_ShortCode resp) w1)
            = Ok normalizedURL).
  { intros H. apply ShortenURL_create_Ok in H
      as (w0 & url & row & db & Hrepo & Hcache & _ & Htarget & Hstore & -> & ->).
    apply Create_Ok_inv in Hstore as (Hup & Hfind & _ & Hrow).
    assert (Hcode : ShortCode row = ShortCode url) by now rewrite Hrow.
    assert (Horig : OriginalURL row = normalizedURL) by now rewrite Hrow.
    cbn [buildResponse resp_OriginalURL resp_ShortURL resp_ShortCode resp_ExpiresAt]
      in *.
    split; [exact Horig|]. split; [reflexivity|].
    rewrite Hcode.
    assert (Htable : forall w2, repo w2 = db -> cache_hit w2 (ShortCode url) = None ->
              fst (GetOriginalURL s later (ShortCode url) w2) = Ok normalizedURL).
    { intros w2 Hrepo2 Hmiss2. rewrite <- Horig.
      apply GetOriginalURL_from_table; [exact Hmiss2| |now apply not_expired].
      apply FindByShortCode_Ok. now rewrite Hrepo2. }
    unfold cache_seed. cbn [with_repo cache]. rewrite Hcache.
    destruct (cache w) as [c|] eqn:Hc.
    2:{ apply Htable; [reflexivity|]. unfold cache_hit. cbn [with_repo cache].
        now rewrite Hcache. }
    unfold cache.Set_. destruct (cache.reachable c) eqn:Hcup; cbn [negb snd].
    - destruct (String.eqb normalizedURL "") eqn:Hempty.
      + apply Htable; [reflexivity|]. unfold cache_hit, cache.Get.
        cbn [with_cache cache cache.reachable cache.keyspace negb].
        rewrite lookup_insert_eq. now rewrite Hempty.
      + unfold GetOriginalURL, cache_hit, cache.Get.
        cbn [with_cache cache cache.reachable cache.keyspace negb].
        rewrite lookup_insert_eq. now rewrite Hempty.
    - apply Htable; [reflexivity|]. unfold cache_hit, cache.Get.
      cbn [with_cache cache]. now rewrite Hcup. }
  destruct (FindByOriginalURL (repo w) normalizedURL) as [existingURL|err] eqn:Hfound;
    [|exact Hcreate].
  destruct (IsExpired existingURL now); cbn [negb]; [exact Hcreate|].
  intros [= <- <-].
  apply FindByOriginalURL_Ok in Hfound as (Hup & Hin & Hact & Htarget).
  cbn [buildResponse resp_OriginalURL resp_ShortURL resp_ShortCode resp_ExpiresAt]
    in *.
  split; [exact Htarget|]. split; [reflexivity|]. rewrite <- Htarget.
  apply GetOriginalURL_from_table; [exact Hmiss| |now apply not_expired].
  now apply FindByShortCode_unique.
Qed.


(** The cases of a resolve that fails: it has changed nothing. *)
Lemma GetOriginalURL_Fail (s : urlService) (now : Time) (shortCode : string)
    (w w1 : World) (e : error) :
  GetOriginalURL s now shortCode w = (Fail e, w1) ->
  w1 = w /\
  (e = ErrURLNotFound \/ e = ErrURLExpired \/ exists inner, e = NewInternalError inner).
Proof.
  unfold GetOriginalURL. destruct (cache_hit w shortCode); [discriminate|].
  unfold FindByShortCode.
  destruct (gorm_First (repo w) (active_code shortCode)) as [err|url].
  - destruct (is_ErrRecordNotFound err); intros [= <- <-]; eauto.
  - destruct (IsExpired url now); [intros [= <- <-]; auto|].
    now destruct (IncrementClickCount (repo w) now shortCode).
Qed.

(** X13: after a [DeleteURL] that succeeds, the cache being absent or
    reachable, [GetOriginalURL] and [GetURLInfo] on the code answer
    [ErrURLNotFound] and change nothing, and a second [DeleteURL] on the
    code succeeds again. *)
Theorem DeleteURL_then_GetOriginalURL (s : urlService) (now later : Time)
    (shortCode : string) (w w1 : World) :
  DeleteURL s now shortCode w = (None, w1) ->
  (forall c, cache w = Some c -> cache.reachable c = true) ->
  GetOriginalURL s later shortCode w1 = (Fail ErrURLNotFound, w1) /\
  GetURLInfo s shortCode w1 = Fail ErrURLNotFound /\
  fst (DeleteURL s later shortCode w1) = None.
Proof.
  unfold DeleteURL. intros Hdel Hcache.
  destruct (reachable (repo w)) eqn:Hup.
  2:{ unfold postgres.Delete in Hdel. rewrite Hup in Hdel. discriminate. }
  rewrite (Delete_reachable (repo w) now shortCode Hup) in Hdel.
  destruct (existsb (has_code shortCode) (rows (repo w))) eqn:Hheld;
    [|discriminate].
  set (table := map _ (rows (repo w))) in Hdel.
  assert (Hfind : forall w2, repo w2 = with_rows (repo w) table ->
            FindByShortCode (repo w2) shortCode = Fail ErrURLNotFound).
  { intros w2 ->. apply FindByShortCode_none; [exact Hup|].
    apply deactivated_gone. }
  assert (Hheld' : existsb (has_code shortCode) table = true).
  { unfold table. rewrite existsb_update_settled by reflexivity. exact Hheld. }
  assert (Hagain : forall w2, repo w2 = with_rows (repo w) table ->
            fst (DeleteURL s later shortCode w2) = None).
  { intros w2 Hrepo. unfold DeleteURL. rewrite Hrepo.
    rewrite (Delete_reachable (with_rows (repo w) table) later shortCode Hup).
    change (rows (with_rows (repo w) table)) with table.
    rewrite Hheld'. cbv beta iota. cbn [with_repo cache].
    destruct (cache w2); reflexivity. }
  cbn [with_repo cache] in Hdel.
  destruct (cache w) as [c|] eqn:Hc; injection Hdel as <-.
  - specialize (Hcache c eq_refl).
    split; [|split; [now apply Hfind|now apply Hagain]].
    unfold GetOriginalURL, cache_hit, cache.Get, cache.Delete.
    cbn [with_cache cache]. rewrite Hcache.
    cbn [negb snd cache.reachable cache.keyspace].
    rewrite lookup_delete_eq. cbn [String.eqb negb].
    now rewrite Hfind.
  - split; [|split; [now apply Hfind|now apply Hagain]].
    unfold GetOriginalURL, cache_hit.
    change (cache (with_repo w (with_rows (repo w) table))) with (cache w).
    rewrite Hc. now rewrite Hfind.
Qed.

Lemma pending_spawn (w : World) (shortCode other : string) :
  pending (spawn w shortCode) other
  = pending w other + (if String.eqb other shortCode then 1 else 0).
Proof.
  unfold pending, spawn. cbn [spawned].
  rewrite List.filter_app, length_app. cbn [List.filter].
  destruct (String.eqb other shortCode); cbn [List.length]; lia.
Qed.

Lemma counted_other (db : DB) (now : Time) (shortCode other : string) :
  other <> shortCode ->
  List.find (active_code other)
    (map (fun v => if active_code shortCode v then clicked now v else v) (rows db))
  = List.find (active_code other) (rows db).
Proof.
  intros Hne. apply find_map_settled.
  - intros v. now destruct (active_code shortCode v).
  - intros v Hv. destruct (active_code shortCode v) eqn:Hc; [|reflexivity].
    apply active_code_has_code in Hv, Hc.
    rewrite (has_code_other shortCode other v Hne Hc) in Hv. discriminate.
Qed.

(** X14: a [GetOriginalURL] that succeeds accounts for exactly one
    click of its code, either counted in the table at once or handed to a
    goroutine, the counters staying within [BIGINT]; the clicks of every
    other code, counted and pending, are as before. *)
Theorem GetOriginalURL_accounts_once (s : urlService) (now : Time)
    (shortCode : string) (w w1 : World) (target : string) :
  GetOriginalURL s now shortCode w = (Ok target, w1) ->
  (forall v, In v (rows (repo w)) -> active_code shortCode v = true ->
             ClickCount v < max_int64) ->
  counted (repo w1) shortCode + pending w1 shortCode
  = counted (repo w) shortCode + pending w shortCode + 1 /\
  (forall other, other <> shortCode ->
     counted (repo w1) other = counted (repo w) other /\
     pending w1 other = pending w other).
Proof.
  unfold GetOriginalURL. intros Hrun Hroom.
  destruct (cache_hit w shortCode) as [cachedURL|].
  - injection Hrun as _ <-. split.
    + rewrite pending_spawn, String.eqb_refl. cbn [spawn repo]. lia.
    + intros other Hne. rewrite pending_spawn.
      apply String.eqb_neq in Hne. rewrite Hne. cbn [spawn repo]. split; lia.
  - destruct (FindByShortCode (repo w) shortCode) as [url|err] eqn:Hfind;
      [|discriminate].
    destruct (IsExpired url now); [discriminate|].
    destruct (IncrementClickCount_once (repo w) now shortCode url Hfind Hroom)
      as [Hstep Hfound].
    rewrite Hstep in Hrun. injection Hrun as _ <-.
    destruct (cache_seed_frame s
                (with_repo w (with_rows (repo w)
                   (map (fun v => if active_code shortCode v
                                  then clicked now v else v) (rows (repo w)))))
                shortCode (OriginalURL url)) as (Hrepo & Hspawned & _).
    apply FindByShortCode_Ok in Hfind as [_ Hfind].
    apply FindByShortCode_Ok in Hfound as [_ Hfound].
    unfold counted, pending. rewrite Hrepo, Hspawned.
    cbn [with_repo repo spawned] in *. split.
    + rewrite Hfound, Hfind. cbn [clicked ClickCount]. lia.
    + intros other Hne. cbn [with_rows rows].
      now rewrite (counted_other (repo w) now shortCode other Hne).
Qed.

(** X15: when the goroutine of a pending click runs while the table
    still resolves the code, the click moves from pending to counted:
    one more in the table, one fewer pending, and nothing changes for any
    other code. *)
Theorem run_spawned_settles (now : Time) (w : World) (shortCode : string)
    (rest : list string) (u : URL) :
  spawned w = shortCode :: rest ->
  FindByShortCode (repo w) shortCode = Ok u ->
  (forall v, In v (rows (repo w)) -> active_code shortCode v = true ->
             ClickCount v < max_int64) ->
  let w1 := run_spawned now w in
  counted (repo w1) shortCode = counted (repo w) shortCode + 1 /\
  pending w1 shortCode = pending w shortCode - 1 /\
  (forall other, other <> shortCode ->
     counted (repo w1) other = counted (repo w) other /\
     pending w1 other = pending w other).
Proof.
  intros Hspawned Hfind Hroom. cbv zeta. unfold run_spawned. rewrite Hspawned.
  destruct (IncrementClickCount_once (repo w) now shortCode u Hfind Hroom)
    as [Hstep Hfound].
  rewrite Hstep.
  apply FindByShortCode_Ok in Hfind as [_ Hfind].
  apply FindByShortCode_Ok in Hfound as [_ Hfound].
  unfold counted, pending. cbn [repo spawned] in *. rewrite Hspawned.
  cbn [List.filter]. rewrite String.eqb_refl. cbn [List.length].
  split; [|split].
  - rewrite Hfound, Hfind. reflexivity.
  - lia.
  - intros other Hne. cbn [with_rows rows].
    rewrite (counted_other (repo w) now shortCode other Hne).
    apply String.eqb_neq in Hne. now rewrite Hne.
Qed.


(** X16: on a table with unique codes, a code whose resolve fails with
    [ErrURLExpired] fails with [ErrURLNotFound] once the cleanup sweep has
    run at the same instant. *)
Theorem sweep_then_GetOriginalURL (s : urlService) (now : Time)
    (shortCode : string) (w : World) :
  well_kept (repo w) ->
  cache_hit w shortCode = None ->
  fst (GetOriginalURL s now shortCode w) = Fail ErrURLExpired ->
  let w1 := with_repo w (snd (DeleteExpired (repo w) now)) in
  GetOriginalURL s now shortCode w1 = (Fail ErrURLNotFound, w1).
Proof.
  intros (Hdup & _) Hmiss Hgone. cbv zeta.
  unfold GetOriginalURL in *. rewrite Hmiss in Hgone.
  change (cache_hit (with_repo w (snd (DeleteExpired (repo w) now))) shortCode)
    with (cache_hit w shortCode).
  rewrite Hmiss.
  destruct (FindByShortCode (repo w) shortCode) as [u|err] eqn:Hfind.
  2:{ cbn [fst] in Hgone. injection Hgone as ->.
      apply FindByShortCode_Fail in Hfind as [Hbad|(inner & Hbad)]; discriminate. }
  destruct (IsExpired u now) eqn:Hexpired.
  2:{ now destruct (IncrementClickCount (repo w) now shortCode). }
  apply FindByShortCode_Ok in Hfind as [Hup Hfind].
  apply find_some in Hfind as [Hin Hact].
  cbn [with_repo repo]. unfold DeleteExpired. rewrite Hup. cbn [negb].
  unfold update_where. cbn [snd].
  rewrite FindByShortCode_none; [reflexivity|exact Hup|].
  intros v Hv. cbn [with_rows rows] in Hv.
  apply in_map_iff in Hv as (v0 & <- & Hv0).
  destruct (past_expiry now v0) eqn:Hpast.
  - unfold active_code. cbn [deactivated IsActive]. apply andb_false_r.
  - destruct (active_code shortCode v0) eqn:Hact0; [|reflexivity].
    assert (v0 = u) as ->.
    { apply (unique_code_row (rows (repo w))); try assumption.
      apply active_code_has_code in Hact, Hact0.
      apply String.eqb_eq in Hact, Hact0. congruence. }
    rewrite <- past_expiry_IsExpired in Hpast. congruence.
Qed.

End ServiceMore.

(** ** The answers of the handlers *)

Section HandlerFacts.
Import gostr domain postgres service handler.

Context (ValidateURL : string -> option validator.ValidationError)
        (NormalizeURL : string -> string)
        (rand_Reader : shortener.entropy).

Lemma handleError_validation (message : string) :
  handleError (NewValidationError message)
  = JSON 400 (ErrorBody {| err_Error := "client_error"; err_Message := message;
                           err_Code := 400 |}).
Proof. reflexivity. Qed.

Lemma handleError_internal (inner : error) :
  handleError (NewInternalError inner)
  = JSON 500 (ErrorBody {| err_Error := "internal_error";
                           err_Message := "An internal error occurred";
                           err_Code := 500 |}).
Proof. reflexivity. Qed.


(** X18: the handlers that take a short code.  [RedirectURL] answers
    301 with the target that the service returned, or an error of status
    400, 404, 410 or 500 that leaves the world unchanged; [GetURLInfo]
    answers 200 with an active record of the code, or an error of status
    400, 404 or 500, never 410; [DeleteURL] answers 200 with the code, or
    an error of status 400, 404 or 500.  The [Code] of an error body is
    its status. *)
Theorem handler_code_requests_answer (s : urlService) (now : Time)
    (shortCode : string) (w : World) :
  let failed (out : Outcome) (statuses : list Z) : Prop :=
    exists status e,
      out = JSON status (ErrorBody e) /\ err_Code e = status /\ In status statuses in
  ((exists target,
      service.GetOriginalURL s now shortCode w
      = (Ok target, snd (RedirectURL s now shortCode w)) /\
      fst (RedirectURL s now shortCode w) = Redirect 301 target) \/
   (failed (fst (RedirectURL s now shortCode w)) [400; 404; 410; 500] /\
    snd (RedirectURL s now shortCode w) = w)) /\
  ((exists url, handler.GetURLInfo s shortCode w = JSON 200 (URLBody url) /\
                IsActive url = true /\ ShortCode url = shortCode) \/
   failed (handler.GetURLInfo s shortCode w) [400; 404; 500]) /\
  (fst (handler.DeleteURL s now shortCode w) = JSON 200 (DeletedBody shortCode) \/
   failed (fst (handler.DeleteURL s now shortCode w)) [400; 404; 500]).
Proof.
  cbv zeta. unfold RedirectURL, handler.GetURLInfo, handler.DeleteURL.
  destruct (String.eqb shortCode "") eqn:Hempty.
  { cbn [fst snd]. unfold short_code_required.
    split; [|split]; right; [split; [|reflexivity]| |];
      (eexists _, _; split; [reflexivity|]; cbn; auto). }
  split; [|split].
  - destruct (service.GetOriginalURL s now shortCode w) as [[target|err] w1]
      eqn:Hrun; cbn [fst snd].
    + left. eauto.
    + right. apply GetOriginalURL_Fail in Hrun as (-> & [->|[->|(inner & ->)]]).
      all: split; [|reflexivity].
      all: eexists _, _; (split; [reflexivity|]); cbn; auto 10.
  - unfold service.GetURLInfo.
    destruct (FindByShortCode (repo w) shortCode) as [url|err] eqn:Hfind.
    + left. exists url. split; [reflexivity|].
      apply FindByShortCode_Ok in Hfind as [_ Hfind].
      apply find_some in Hfind as [_ Hact]. unfold active_code, has_code in Hact.
      apply andb_prop in Hact as [Hcode Hact]. apply String.eqb_eq in Hcode. auto.
    + right. apply FindByShortCode_Fail in Hfind as [->|(inner & ->)].
      all: eexists _, _; (split; [reflexivity|]); cbn; auto 10.
  - unfold service.DeleteURL.
    destruct (postgres.Delete (repo w) now shortCode) as [[err|] db] eqn:Hdel;
      cbn [fst].
    + right. apply Delete_Some in Hdel as [->|(inner & ->)].
      all: eexists _, _; (split; [reflexivity|]); cbn; auto 10.
    + left. now destruct (cache (with_repo w db)).
Qed.

End HandlerFacts.

(** ** The configuration *)

Section ConfigFacts.
Import gostr config.

Lemma getEnv_not_empty (env : gmap string string) (key defaultValue : string) :
  defaultValue <> "" -> getEnv env key defaultValue <> "".
Proof.
  intros Hdefault. unfold getEnv.
  destruct (String.eqb (os_Getenv env key) "") eqn:Hvalue; cbn [negb];
    [exact Hdefault|].
  now apply String.eqb_neq.
Qed.

(** X19: a configuration that [LoadConfig] returns has a code length
    between 4 and 12, which [NewURLService] hands to the generator
    unchanged, a base URL, an API key when authentication is enabled, and
    a database password in production. *)
Theorem LoadConfig_sound (env : gmap string string) (cfg : Config) :
  LoadConfig env = inl cfg ->
  4 <= ShortCodeLength cfg <= 12 /\
  shortener.length (service.generator (service.NewURLService (for_service cfg)))
  = ShortCodeLength cfg /\
  BaseURL cfg <> "" /\
  (EnableAuthentication cfg = true -> APIKey cfg <> "") /\
  (IsProduction cfg = true -> DBPassword cfg <> "").
Proof.
  unfold LoadConfig. set (loaded := Build_Config _ _ _ _ _ _ _ _ _ _ _ _ _ _ _ _ _ _).
  destruct (Validate loaded) as [err|] eqn:Hvalid; [discriminate|].
  intros [= <-]. revert Hvalid. unfold Validate, IsProduction.
  generalize loaded. clear loaded. intros c.
  destruct (String.eqb (Environment c) "production" && String.eqb (DBPassword c) "")
    eqn:Hprod; [discriminate|].
  destruct ((ShortCodeLength c <? 4) || (ShortCodeLength c >? 12)) eqn:Hlen;
    [discriminate|].
  destruct (String.eqb (BaseURL c) "") eqn:Hbase; [discriminate|].
  destruct (EnableAuthentication c && String.eqb (APIKey c) "") eqn:Hauth;
    [discriminate|].
  intros _. apply orb_false_elim in Hlen as [Hlow Hhigh].
  apply Z.ltb_ge in Hlow. rewrite Z.gtb_ltb in Hhigh. apply Z.ltb_ge in Hhigh.
  split; [lia|]. split; [|split; [|split]].
  - unfold service.NewURLService, for_service, shortener.NewCodeGenerator.
    cbn [service.generator service.ShortCodeLength shortener.length].
    rewrite (proj2 (Z.ltb_ge _ _) Hlow).
    rewrite Z.gtb_ltb, (proj2 (Z.ltb_ge _ _) Hhigh). reflexivity.
  - now apply String.eqb_neq.
  - intros Hon. rewrite Hon in Hauth. cbn [andb] in Hauth.
    now apply String.eqb_neq.
  - intros Hon. rewrite Hon in Hprod. cbn [andb] in Hprod.
    now apply String.eqb_neq.
Qed.

(** X20: [LoadConfig] fails in three ways only: the environment is
    [production] without [DB_PASSWORD]; [SHORT_CODE_LENGTH] is set to an
    integer below 4 or above 12; or [ENABLE_AUTHENTICATION] is set to a
    true value without [API_KEY].  It never fails for a missing
    [BASE_URL], which has a default. *)
Theorem LoadConfig_failures (env : gmap string string) (err : string) :
  LoadConfig env = inr err ->
  (err = "configuration validation failed: DB_PASSWORD is required in production" /\
   os_Getenv env "ENVIRONMENT" = "production" /\ os_Getenv env "DB_PASSWORD" = "") \/
  (exists n : Z,
     err = "configuration validation failed: "
           ++ "SHORT_CODE_LENGTH must be between 4 and 12, got " ++ pretty n /\
     (n < 4 \/ 12 < n) /\
     strconv_Atoi (os_Getenv env "SHORT_CODE_LENGTH") = Some n) \/
  (err = "configuration validation failed: "
         ++ "API_KEY is required when ENABLE_AUTHENTICATION is true" /\
   strconv_ParseBool (os_Getenv env "ENABLE_AUTHENTICATION") = Some true /\
   os_Getenv env "API_KEY" = "").
Proof.
  unfold LoadConfig, Validate.
  cbn [Environment DBPassword ShortCodeLength BaseURL EnableAuthentication APIKey].
  destruct (String.eqb (getEnv env "ENVIRONMENT" "development") "production"
            && String.eqb (getEnv env "DB_PASSWORD" "") "") eqn:Hprod.
  { intros [= <-]. left. apply andb_prop in Hprod as [Henv Hpw].
    apply String.eqb_eq in Henv, Hpw. split; [reflexivity|].
    unfold getEnv in *.
    destruct (String.eqb (os_Getenv env "ENVIRONMENT") "") eqn:He; cbn [negb] in Henv;
      [discriminate|].
    destruct (String.eqb (os_Getenv env "DB_PASSWORD") "") eqn:Hp; cbn [negb] in Hpw.
    - apply String.eqb_eq in Hp. auto.
    - rewrite Hpw in Hp. discriminate. }
  destruct ((getEnvAsInt env "SHORT_CODE_LENGTH" 7 <? 4)
            || (getEnvAsInt env "SHORT_CODE_LENGTH" 7 >? 12)) eqn:Hlen.
  { intros [= <-]. right. left. exists (getEnvAsInt env "SHORT_CODE_LENGTH" 7).
    split; [reflexivity|]. rewrite Z.gtb_ltb in Hlen.
    apply orb_prop in Hlen. rewrite !Z.ltb_lt in Hlen. split; [exact Hlen|].
    unfold getEnvAsInt in *.
    destruct (String.eqb (os_Getenv env "SHORT_CODE_LENGTH") ""); [lia|].
    destruct (strconv_Atoi (os_Getenv env "SHORT_CODE_LENGTH")); [reflexivity|lia]. }
  destruct (String.eqb (getEnv env "BASE_URL" "http://localhost:8081") "") eqn:Hbase.
  { apply String.eqb_eq in Hbase. now apply getEnv_not_empty in Hbase. }
  destruct (getEnvAsBool env "ENABLE_AUTHENTICATION" false
            && String.eqb (getEnv env "API_KEY" "") "") eqn:Hauth; [|discriminate].
  intros [= <-]. right. right. split; [reflexivity|].
  apply andb_prop in Hauth as [Hon Hkey]. split.
  - unfold getEnvAsBool in Hon.
    destruct (String.eqb (os_Getenv env "ENABLE_AUTHENTICATION") ""); [discriminate|].
    destruct (strconv_ParseBool (os_Getenv env "ENABLE_AUTHENTICATION")) as [[|]|];
      [reflexivity|discriminate|discriminate].
  - apply String.eqb_eq in Hkey. unfold getEnv in Hkey.
    destruct (String.eqb (os_Getenv env "API_KEY") "") eqn:Hk; cbn [negb] in Hkey;
      [now apply String.eqb_eq|exact Hkey].
Qed.

(** X21: under a configuration that [Validate] accepts with
    authentication enabled, [AuthMiddleware] lets a request through
    exactly when its key, the header or else the query parameter, equals
    the configured key; a request without a key is answered 401, and so
    is every request that is not let through. *)
Theorem AuthMiddleware_guards (cfg : Config) (header query : string) :
  Validate cfg = None ->
  EnableAuthentication cfg = true ->
  (handler.AuthMiddleware cfg header query = handler.Next
   <-> (if String.eqb header "" then query else header) = APIKey cfg) /\
  handler.status_of (handler.AuthMiddleware cfg "" "") = Some 401 /\
  (handler.AuthMiddleware cfg header query <> handler.Next ->
   handler.status_of (handler.AuthMiddleware cfg header query) = Some 401).
Proof.
  intros Hvalid Hon.
  assert (Hkey : APIKey cfg <> "").
  { unfold Validate in Hvalid. rewrite Hon in Hvalid. cbn [andb] in Hvalid.
    destruct (_ && _); [discriminate|]. destruct (_ || _); [discriminate|].
    destruct (String.eqb (BaseURL cfg) ""); [discriminate|].
    destruct (String.eqb (APIKey cfg) "") eqn:Hk; [discriminate|].
    now apply String.eqb_neq. }
  unfold handler.AuthMiddleware. rewrite Hon. cbn [negb].
  split; [|split].
  - destruct (String.eqb (if String.eqb header "" then query else header)
                (APIKey cfg)) eqn:Hmatch; cbn [negb].
    + apply String.eqb_eq in Hmatch. tauto.
    + apply String.eqb_neq in Hmatch. split; [discriminate|tauto].
  - assert (Hno : String.eqb "" (APIKey cfg) = false)
      by (apply String.eqb_neq; congruence).
    change (String.eqb "" "") with true. cbv iota. now rewrite Hno.
  - destruct (negb _); [reflexivity|]. intros H. now elim H.
Qed.

End ConfigFacts.

(** ** The cache *)

Section CacheFacts.
Import gostr domain cache.

Lemma prefixKey_inj (a b : string) : prefixKey a = prefixKey b -> a = b.
Proof. unfold prefixKey. intros H. now apply String.app_inj in H. Qed.

(** X22: on a reachable cache, [Get] after [Set] returns the value and
    [Exists] answers true, every other key reads as before; after
    [Delete] of the key, [Get] returns the empty string, [Exists] answers
    false, and every other key reads as it did before the [Set]. *)
Theorem Set_then_Get (c : Redis) (key value : string) (ttl : Z) :
  reachable c = true ->
  let c1 := snd (Set_ c key value ttl) in
  let c2 := snd (Delete c1 key) in
  Get c1 key = Ok value /\ Exists c1 key = Ok true /\
  (forall other, other <> key ->
     Get c1 other = Get c other /\ Exists c1 other = Exists c other) /\
  Get c2 key = Ok "" /\ Exists c2 key = Ok false /\
  (forall other, other <> key -> Get c2 other = Get c other).
Proof.
  intros Hup. cbv zeta. unfold Set_, Delete, Get, Exists.
  do 3 (rewrite ?Hup; cbn [negb snd reachable keyspace]).
  assert (Hne : forall other, other <> key -> prefixKey key <> prefixKey other).
  { intros other Hother Heq. apply prefixKey_inj in Heq. congruence. }
  split; [|split; [|split; [|split; [|split]]]].
  - now rewrite lookup_insert_eq.
  - now rewrite lookup_insert_eq.
  - intros other Hother. now rewrite lookup_insert_ne by auto.
  - now rewrite lookup_delete_eq.
  - now rewrite lookup_delete_eq.
  - intros other Hother.
    now rewrite lookup_delete_ne, lookup_insert_ne by auto.
Qed.

Lemma SetMultiple_keyspace (ks : gmap string (string * Z))
    (items : gmap string string) (ttl : Z) (key : string) :
  map_fold (fun key value ks => <[prefixKey key := (value, ttl)]> ks) ks items
    !! prefixKey key
  = match items !! key with
    | Some value => Some (value, ttl)
    | None => ks !! prefixKey key
    end.
Proof.
  revert key.
  apply (map_fold_weak_ind
           (fun (r : gmap string (string * Z)) (m : gmap string string) =>
              forall key, r !! prefixKey key
                          = match m !! key with
                            | Some value => Some (value, ttl)
                            | None => ks !! prefixKey key
                            end)).
  - intros key. now rewrite lookup_empty.
  - intros i x m r Hfresh IH key. destruct (decide (i = key)) as [->|Hne].
    + now rewrite !lookup_insert_eq.
    + rewrite !lookup_insert_ne; [apply IH|exact Hne|].
      intros Heq. now apply prefixKey_inj in Heq.
Qed.

Lemma GetMultiple_results (ks : gmap string (string * Z)) (keys : list string)
    (key : string) :
  foldr (fun key results =>
           match ks !! prefixKey key with
           | Some (val, _) => <[key := val]> results
           | None => results
           end) (∅ : gmap string string) keys !! key
  = if bool_decide (key ∈ keys) then fst <$> ks !! prefixKey key else None.
Proof.
  induction keys as [|k keys IH]; cbn [foldr].
  - rewrite lookup_empty. now rewrite bool_decide_eq_false_2 by apply not_elem_of_nil.
  - destruct (decide (k = key)) as [->|Hne].
    + rewrite (bool_decide_eq_true_2 (key ∈ key :: keys)) by (apply elem_of_cons; now left).
      destruct (ks !! prefixKey key) as [[val t]|] eqn:Hk.
      * now rewrite lookup_insert_eq.
      * rewrite IH. now destruct (bool_decide _).
    + assert (Hsame : bool_decide (key ∈ k :: keys) = bool_decide (key ∈ keys)).
      { apply bool_decide_ext. rewrite elem_of_cons. split; [|auto].
        intros [Heq|Hin]; [congruence|exact Hin]. }
      rewrite Hsame, <- IH.
      destruct (ks !! prefixKey k) as [[val t]|]; [|reflexivity].
      now rewrite lookup_insert_ne.
Qed.

(** X23: on a reachable cache, [SetMultiple] succeeds, and
    [GetMultiple] afterwards returns, for each requested key, the value
    just written, else the value that the cache already held, and no
    entry for a key that is absent or was not requested. *)
Theorem SetMultiple_then_GetMultiple (c : Redis) (items : gmap string string)
    (ttl : Z) (keys : list string) :
  reachable c = true ->
  let c1 := snd (SetMultiple c items ttl) in
  fst (SetMultiple c items ttl) = None /\
  exists results,
    GetMultiple c1 keys = Ok results /\
    forall key,
      results !! key
      = if bool_decide (key ∈ keys)
        then match items !! key with
             | Some value => Some value
             | None => fst <$> keyspace c !! prefixKey key
             end
        else None.
Proof.
  intros Hup. cbv zeta. unfold SetMultiple, GetMultiple. rewrite Hup. cbn [negb].
  destruct (bool_decide (items = ∅)) eqn:Hempty; cbn [fst snd].
  - apply bool_decide_eq_true in Hempty. subst items. split; [reflexivity|].
    rewrite Hup. cbn [negb].
    destruct (Z.of_nat (List.length keys) =? 0) eqn:Hnone.
    + exists ∅. split; [reflexivity|]. intros key. rewrite lookup_empty.
      destruct keys; [|discriminate].
      now rewrite bool_decide_eq_false_2 by apply not_elem_of_nil.
    + eexists. split; [reflexivity|]. intros key.
      rewrite GetMultiple_results, lookup_empty. reflexivity.
  - split; [reflexivity|]. cbn [reachable keyspace negb].
    destruct (Z.of_nat (List.length keys) =? 0) eqn:Hnone.
    + exists ∅. split; [reflexivity|]. intros key. rewrite lookup_empty.
      destruct keys; [|discriminate].
      now rewrite bool_decide_eq_false_2 by apply not_elem_of_nil.
    + eexists. split; [reflexivity|]. intros key.
      rewrite GetMultiple_results, SetMultiple_keyspace.
      now destruct (items !! key).
Qed.

End CacheFacts.

(** ** More on the validator *)

Section ValidatorMore.
Import gostr validator.

Lemma HasPrefix_len (s prefix : string) :
  HasPrefix s prefix = true -> len prefix <= len s.
Proof.
  unfold len. revert s. induction prefix as [|p prefix IH]; intros s H.
  - cbn [String.length]. lia.
  - destruct s as [|c s]; [discriminate|]. cbn [HasPrefix] in H.
    apply andb_prop in H as [_ H]. specialize (IH s H). cbn [String.length]. lia.
Qed.


End ValidatorMore.

(** ** The properties above on concrete runs *)

Section MoreRuns.
Import gostr shortener domain postgres service engine sample.

Lemma GenerateFromID_valid_iff_witness :
  IsValid (NewCodeGenerator 6) (GenerateFromID (NewCodeGenerator 6) 3844) = true
  <-> 3844 < 62 ^ length (NewCodeGenerator 6).
Proof.
  apply (GenerateFromID_valid_iff (NewCodeGenerator 6) 3844);
    [cbn; lia|unfold uint_modulus; lia].
Defined.

Lemma Decode_skips_foreign_bytes_witness :
  Decode (NewCodeGenerator 6) ("ab" ++ String "-" "cd")
  = Decode (NewCodeGenerator 6) ("ab" ++ "cd") /\
  Decode (NewCodeGenerator 6) (String "0" "cd") = Decode (NewCodeGenerator 6) "cd".
Proof.
  apply (Decode_skips_foreign_bytes (NewCodeGenerator 6) "ab" "cd" "-").
  reflexivity.
Defined.


Lemma Delete_hides_code_witness :
  fst (postgres.Delete one_taken_db 5000 "012345") = None /\
  FindByShortCode (snd (postgres.Delete one_taken_db 5000 "012345")) "012345"
  = Fail ErrURLNotFound /\
  fst (postgres.Delete (snd (postgres.Delete one_taken_db 5000 "012345"))
         5000 "012345") = None.
Proof.
  destruct (Delete_hides_code one_taken_db 5000 "012345")
    as (_ & _ & Hgone & _ & _ & _ & Hagain); [reflexivity|].
  split; [reflexivity|]. split; [exact Hgone|exact Hagain].
Defined.

Lemma IncrementClickCount_adds_witness :
  exists u',
    FindByShortCode
      (Nat.iter 3 (fun d => snd (IncrementClickCount d 5000 "012345")) one_taken_db)
      "012345" = Ok u' /\
    ClickCount u' = ClickCount (taken_row 1 "012345") + Z.of_nat 3.
Proof.
  destruct (IncrementClickCount_adds 3 one_taken_db 5000 "012345"
              (taken_row 1 "012345"))
    as (u' & Hfound & Hclicks & _).
  - reflexivity.
  - intros v [<-|[]] _. vm_compute. discriminate.
  - exists u'. split; [exact Hfound|exact Hclicks].
Defined.

Lemma DeleteExpired_sweeps_witness :
  fst (DeleteExpired (repo expired_world) 2000) = Ok 1 /\
  forall u, In u (rows (snd (DeleteExpired (repo expired_world) 2000))) ->
            IsActive u = true -> IsExpired u 2000 = false.
Proof.
  destruct (DeleteExpired_sweeps (repo expired_world) 2000)
    as (Hcount & Hlive & _); [reflexivity|].
  split; [exact Hcount|exact Hlive].
Defined.

Lemma run_well_kept_witness :
  well_kept
    (repo (run validator.ValidateURL validator.NormalizeURL counting svc
             (world_of empty_db)
             [Shorten 1000 (page_request 0) client; Resolve 2000 "012345";
              Remove 3000 "012345"])).
Proof.
  apply run_well_kept. split; [apply NoDup_nil_2|]. split; [apply Forall_nil_2|].
  intros i j u v Hi. destruct i; discriminate Hi.
Defined.

Lemma ShortenURL_then_GetOriginalURL_witness :
  fst (GetOriginalURL svc 5000 "012345"
         (snd (shorten svc 1000 (page_request 0) client (world_of empty_db))))
  = Ok (validator.NormalizeURL "https://example.com/page").
Proof.
  destruct (ShortenURL_then_GetOriginalURL
              validator.ValidateURL validator.NormalizeURL counting
              svc 1000 5000 (page_request 0) client (world_of empty_db)
              page_response) as (_ & _ & Hresolved).
  - split; [apply NoDup_nil_2|]. split; [apply Forall_nil_2|].
    intros i j u v Hi. destruct i; discriminate Hi.
  - vm_compute. reflexivity.
  - reflexivity.
  - exact I.
  - exact Hresolved.
Defined.

Lemma ShortenURL_failure_writes_nothing_witness :
  repo (world_of (retired_db false)) = retired_db false /\
  exists inner, NewInternalError (GormError "23505") = NewInternalError inner.
Proof.
  destruct (ShortenURL_failure_writes_nothing
              validator.ValidateURL validator.NormalizeURL counting
              svc 1000 promo_request client (world_of (retired_db false))
              (world_of (retired_db false)) (NewInternalError (GormError "23505")))
    as (Hrepo & _ & _ & [Hbad|[Hbad|[Hbad|Hinner]]]);
    [vm_compute; reflexivity|discriminate Hbad|discriminate Hbad|discriminate Hbad|].
  split; [exact Hrepo|exact Hinner].
Defined.

Lemma DeleteURL_then_GetOriginalURL_witness :
  GetOriginalURL svc 4000 "sale24" (snd (DeleteURL svc 3000 "sale24" expired_world))
  = (Fail ErrURLNotFound, snd (DeleteURL svc 3000 "sale24" expired_world)).
Proof.
  destruct (DeleteURL_then_GetOriginalURL svc 3000 4000 "sale24" expired_world
              (snd (DeleteURL svc 3000 "sale24" expired_world)))
    as (Hgone & _).
  - vm_compute. reflexivity.
  - intros c [= <-]. reflexivity.
  - exact Hgone.
Defined.

Lemma GetOriginalURL_accounts_once_witness :
  counted (repo (snd (GetOriginalURL svc 2000 "012345" (world_of one_taken_db))))
    "012345"
  + pending (snd (GetOriginalURL svc 2000 "012345" (world_of one_taken_db)))
      "012345"
  = counted one_taken_db "012345" + pending (world_of one_taken_db) "012345" + 1.
Proof.
  destruct (GetOriginalURL_accounts_once svc 2000 "012345" (world_of one_taken_db)
              (snd (GetOriginalURL svc 2000 "012345" (world_of one_taken_db)))
              "https://example.com/other") as (Hone & _).
  - vm_compute. reflexivity.
  - intros v [<-|[]] _. vm_compute. reflexivity.
  - exact Hone.
Defined.

Lemma run_spawned_settles_witness :
  counted (repo (run_spawned 2000 pending_world)) "012345"
  = counted (repo pending_world) "012345" + 1 /\
  pending (run_spawned 2000 pending_world) "012345"
  = pending pending_world "012345" - 1.
Proof.
  destruct (run_spawned_settles 2000 pending_world "012345" []
              (taken_row 1 "012345")) as (Hcounted & Hpending & _).
  - reflexivity.
  - reflexivity.
  - intros v [<-|[]] _. vm_compute. reflexivity.
  - split; [exact Hcounted|exact Hpending].
Defined.

Lemma sweep_then_GetOriginalURL_witness :
  GetOriginalURL svc 2000 "sale24"
    (with_repo expired_world (snd (DeleteExpired (repo expired_world) 2000)))
  = (Fail ErrURLNotFound,
     with_repo expired_world (snd (DeleteExpired (repo expired_world) 2000))).
Proof.
  apply (sweep_then_GetOriginalURL svc 2000 "sale24" expired_world).
  - split; [apply NoDup_singleton|]. split.
    + apply Forall_singleton. vm_compute. split; [discriminate|reflexivity].
    + intros i j u v Hi Hj Hij. destruct i, j; try lia; discriminate Hj.
  - vm_compute. reflexivity.
  - vm_compute. reflexivity.
Defined.

Lemma LoadConfig_sound_witness :
  4 <= config.ShortCodeLength default_config <= 12 /\
  shortener.length (generator (NewURLService (config.for_service default_config)))
  = config.ShortCodeLength default_config.
Proof.
  destruct (LoadConfig_sound ∅ default_config) as (Hlen & Hgen & _);
    [vm_compute; reflexivity|].
  split; [exact Hlen|exact Hgen].
Defined.

Lemma LoadConfig_failures_witness :
  exists n : Z,
    (n < 4 \/ 12 < n) /\
    config.strconv_Atoi (config.os_Getenv {["SHORT_CODE_LENGTH" := "3"]}
                           "SHORT_CODE_LENGTH") = Some n.
Proof.
  destruct (LoadConfig_failures {["SHORT_CODE_LENGTH" := "3"]}
              ("configuration validation failed: "
               ++ "SHORT_CODE_LENGTH must be between 4 and 12, got 3"))
    as [(Hbad & _)|[(n & _ & Hrange & Hread)|(Hbad & _)]].
  - vm_compute. reflexivity.
  - vm_compute in Hbad. discriminate Hbad.
  - exists n. split; [exact Hrange|exact Hread].
  - vm_compute in Hbad. discriminate Hbad.
Defined.

Lemma AuthMiddleware_guards_witness :
  handler.status_of (handler.AuthMiddleware guarded_config "" "") = Some 401.
Proof.
  destruct (AuthMiddleware_guards guarded_config "" "") as (_ & Hkeyless & _);
    [reflexivity|reflexivity|exact Hkeyless].
Defined.

Lemma Set_then_Get_witness :
  cache.Get (snd (cache.Set_ empty_cache "012345" "https://example.com/page" 3600))
    "012345" = Ok "https://example.com/page".
Proof.
  destruct (Set_then_Get empty_cache "012345" "https://example.com/page" 3600)
    as (Hget & _); [reflexivity|exact Hget].
Defined.

Lemma SetMultiple_then_GetMultiple_witness :
  exists results,
    cache.GetMultiple
      (snd (cache.SetMultiple empty_cache {["a" := "1"]} 3600)) ["a"; "b"]
    = Ok results /\ results !! "a" = Some "1" /\ results !! "b" = None.
Proof.
  destruct (SetMultiple_then_GetMultiple empty_cache {["a" := "1"]} 3600 ["a"; "b"])
    as (_ & results & Hget & Hresults); [reflexivity|].
  exists results. split; [exact Hget|].
  split; rewrite Hresults; vm_compute; reflexivity.
Defined.


End MoreRuns.
